(** * The render context of the request pipeline (render-context.ts) and the
      server-side actions (actions/runtime/virtual/server.ts)

    A shallow embedding of [RenderContext]: the per-request state machine that
    resolves props, runs the middleware chain, dispatches by route type,
    re-enters itself on rewrites and attaches the cookie jar to the response.

    User code (middleware, endpoints, pages) is embedded as finite programs
    over the operations that the API context and the [Astro] global offer;
    the class itself is embedded as functions in a state-and-exception monad
    over a store that holds the [RenderContext] fields and the heap objects
    they alias (requests and the streams of their bodies, cookie jars, render
    results, closure cells).  The actions are embedded as functions over the
    form data, the schema and the object built from them. *)

From Stdlib Require Import ZArith Ascii String List Bool Lia.
From stdpp Require Import base list strings.

Open Scope string_scope.
Open Scope Z_scope.

(** ** JavaScript values *)

(** The values user code can hand to [locals]; an object (array, map, ...) is
    known by its identity. *)
Inductive JsValue : Type :=
| JUndefined
| JNull
| JBoolean (b : bool)
| JNumber (z : Z)
| JBigInt (z : Z)
| JString (s : string)
| JSymbol (description : string)
| JFunction (name : string)
| JObject (id : nat).

(** The [typeof] operator. *)
Definition typeof (v : JsValue) : string :=
  match v with
  | JUndefined => "undefined"
  | JNull => "object"
  | JBoolean _ => "boolean"
  | JNumber _ => "number"
  | JBigInt _ => "bigint"
  | JString _ => "string"
  | JSymbol _ => "symbol"
  | JFunction _ => "function"
  | JObject _ => "object"
  end.

(** Truthiness of an optional string ([if (s)]): absent and empty are falsy. *)
Definition truthy_string (s : option string) : bool :=
  match s with
  | Some s => negb (String.eqb s "")
  | None => false
  end.

(** ** Errors *)

(** The entries of [AstroErrorData] that render-context.ts throws. *)
Inductive AstroErrorData : Type :=
| LocalsNotAnObject
| PrerenderClientAddressNotAvailable
| ClientAddressNotAvailable (adapterName : string)
| StaticClientAddressNotAvailable
| ResponseSentError
| RewriteWithBodyUsed
| AstroResponseHeadersReassigned.

(** What a [throw] carries: an [AstroError], a [TypeError] of the platform,
    or any other exception raised by user code or by a collaborator. *)
Inductive Exn : Type :=
| AstroError (data : AstroErrorData)
| TypeError (message : string)
| OtherError (message : string).

(** ** Routes, URLs, requests, responses *)

Inductive RouteType : Type := page | endpoint | redirect | fallback.

Record RouteData : Type := {
  route : string;
  type : RouteType;
}.

Record URL : Type := {
  origin : string;
  url_pathname : string;
}.

Definition Headers : Type := list (string * string).
Definition Props : Type := list (string * JsValue).
Definition Params : Type := list (string * string).

(** The body of a request is a stream object: its content, and whether it
    has been read ([disturbed]).  Request objects can share one. *)
Record ReadableStream : Type := {
  content : string;
  disturbed : bool;
}.

(** A [Request] object.  [body] is a reference to its stream in the store,
    [body = None] being JavaScript's [request.body === null].  The three
    symbol-keyed properties the file reads or writes are fields. *)
Record Request : Type := {
  req_url : URL;
  req_method : string;
  req_headers : Headers;
  body : option nat;
  clientAddressSymbol : option string;
  clientLocalsSymbol : option JsValue;
  responseSentSymbol : bool;
}.

(** What a request object is made from: the arguments of [new Request] (a
    body given as a string becomes a stream of its own) and the symbol-keyed
    properties put on the object afterwards, as an adapter does. *)
Record RequestInit : Type := {
  init_url : URL;
  init_method : string;
  init_headers : Headers;
  init_body : option string;
  init_clientAddress : option string;
  init_locals : option JsValue;
  init_responseSent : bool;
}.

(** A [Response] object.  [headers_immutable] is the guard of its [Headers]:
    the headers of a response made with [new Response] can be changed, those
    of a response that [Response.redirect], [Response.error] or [fetch] made
    cannot.  [astroCookies] is the property under which
    [attachCookiesToResponse] puts the jar (a reference into the store).
    Responses are handed on by value: the class changes a response (its
    headers, the jar it carries) only on the way out of the call that got it. *)
Record Response : Type := {
  resp_body : option string;
  resp_status : Z;
  resp_statusText : string;
  resp_headers : Headers;
  headers_immutable : bool;
  astroCookies : option nat;
}.

(** Header names are compared without regard to the case of ASCII letters. *)
Definition lower_ascii (c : ascii) : ascii :=
  let n := nat_of_ascii c in
  if ((65 <=? n) && (n <=? 90))%nat then ascii_of_nat (n + 32) else c.

Fixpoint lower (s : string) : string :=
  match s with
  | EmptyString => EmptyString
  | String c rest => String (lower_ascii c) (lower rest)
  end.

Definition header_name_eqb (a b : string) : bool := String.eqb (lower a) (lower b).

(** The values of the entries with a name, in order. *)
Definition headers_values (name : string) (h : Headers) : list string :=
  map snd (List.filter (fun kv => header_name_eqb (fst kv) name) h).

(** The values of a name as [get] combines them: joined with a comma and a
    space. *)
Fixpoint combine_values (first : string) (others : list string) : string :=
  match others with
  | [] => first
  | v :: rest => first ++ ", " ++ combine_values v rest
  end.

(** [Headers.get]: [None] ([null]) when there is no entry with the name. *)
Definition headers_get (name : string) (h : Headers) : option string :=
  match headers_values name h with
  | [] => None
  | v :: rest => Some (combine_values v rest)
  end.

(** [Headers.delete]: every entry with the name goes. *)
Definition headers_delete (name : string) (h : Headers) : Headers :=
  List.filter (fun kv => negb (header_name_eqb (fst kv) name)) h.

(** [Headers.set]: the first entry with the name takes the value and the
    others go; without such an entry, one is added. *)
Fixpoint headers_set (name value : string) (h : Headers) : Headers :=
  match h with
  | [] => [(name, value)]
  | (k, v) :: h' =>
      if header_name_eqb k name then (k, value) :: headers_delete name h'
      else (k, v) :: headers_set name value h'
  end.

(** The response a successful [set] or [delete] on its headers leaves. *)
Definition with_header (name value : string) (r : Response) : Response :=
  {| resp_body := resp_body r; resp_status := resp_status r;
     resp_statusText := resp_statusText r;
     resp_headers := headers_set name value (resp_headers r);
     headers_immutable := headers_immutable r;
     astroCookies := astroCookies r |}.

Definition without_header (name : string) (r : Response) : Response :=
  {| resp_body := resp_body r; resp_status := resp_status r;
     resp_statusText := resp_statusText r;
     resp_headers := headers_delete name (resp_headers r);
     headers_immutable := headers_immutable r;
     astroCookies := astroCookies r |}.

(** [response.headers.set(name, value)] and [response.headers.delete(name)],
    for a name that is no forbidden response-header name (none of the names
    the class sets or deletes is): both throw a [TypeError] when the headers
    are immutable. *)
Definition resp_set_header (name value : string) (r : Response) : Exn + Response :=
  if headers_immutable r then inl (TypeError "immutable")
  else inr (with_header name value r).

Definition resp_delete_header (name : string) (r : Response) : Exn + Response :=
  if headers_immutable r then inl (TypeError "immutable")
  else inr (without_header name r).

(** Modelled from the spec: the internal signalling header names of
    constants.js (route-type marker, reroute-suppress marker, rewrite marker),
    which is not among the sources; only their being distinct, also without
    regard to case, matters. *)
Definition ROUTE_TYPE_HEADER : string := "X-Astro-Route-Type".
Definition REROUTE_DIRECTIVE_HEADER : string := "X-Astro-Reroute".
Definition REWRITE_DIRECTIVE_HEADER_KEY : string := "X-Astro-Rewrite".
Definition REWRITE_DIRECTIVE_HEADER_VALUE : string := "yes".

(** The payload of a rewrite: [string | URL | Request]; a [Request] is a
    reference into the store. *)
Inductive RewritePayload : Type :=
| PString (path : string)
| PURL (u : URL)
| PRequest (ref : nat).

(** [if (payload)]: an absent payload and the empty string are falsy. *)
Definition payload_truthy (p : option RewritePayload) : bool :=
  match p with
  | None => false
  | Some (PString s) => negb (String.eqb s "")
  | Some _ => true
  end.

(** [reroutePayload instanceof Request] *)
Definition instanceof_Request (p : RewritePayload) : option nat :=
  match p with
  | PRequest r => Some r
  | _ => None
  end.

(** ** The cookie jar *)

(** Modelled from the spec: the Cookie Jar of cookies/index.js, which is not
    among the sources: an ordered collection of name -> value pairs for one
    request, changed by explicit set operations; merging another jar into it
    writes each of the other jar's pairs (last write wins per name). *)
Record AstroCookies : Type := {
  jar_request : nat;
  outgoing : list (string * string);
}.

Fixpoint outgoing_set (name value : string) (l : list (string * string))
  : list (string * string) :=
  match l with
  | [] => [(name, value)]
  | (k, v) :: l' =>
      if String.eqb k name then (k, value) :: l'
      else (k, v) :: outgoing_set name value l'
  end.

Fixpoint outgoing_get (name : string) (l : list (string * string)) : option string :=
  match l with
  | [] => None
  | (k, v) :: l' => if String.eqb k name then Some v else outgoing_get name l'
  end.

Definition cookies_set (name value : string) (c : AstroCookies) : AstroCookies :=
  {| jar_request := jar_request c; outgoing := outgoing_set name value (outgoing c) |}.

Definition cookies_merge (into from : AstroCookies) : AstroCookies :=
  {| jar_request := jar_request into;
     outgoing := fold_left (fun acc kv => outgoing_set (fst kv) (snd kv) acc)
                           (outgoing from) (outgoing into) |}.

(** ** Programs of user code *)

(** The operations of the API context ([ctx] in middleware and endpoints). *)
Inductive CtxOp : Type :=
| CookiesSet (name value : string)
| GetClientAddress
| GetCurrentLocale
| GetLocals
| SetLocals (val : JsValue)
| GetPreferredLocale
| GetPreferredLocaleList
| CtxRedirect (path : string) (status : option Z)
| CtxRewrite (reroutePayload : RewritePayload)
| ReadBody
| NewRequest (init : RequestInit).

Definition ctx_ar (o : CtxOp) : Type :=
  match o with
  | CookiesSet _ _ => unit
  | GetClientAddress => string
  | GetCurrentLocale => option string
  | GetLocals => JsValue
  | SetLocals _ => unit
  | GetPreferredLocale => option string
  | GetPreferredLocaleList => option (list string)
  | CtxRedirect _ _ => Response
  | CtxRewrite _ => Response
  | ReadBody => string
  | NewRequest _ => nat
  end.

(** Middleware has the API context and the [next] continuation. *)
Inductive MwOp : Type :=
| OnCtx (o : CtxOp)
| Next (payload : option RewritePayload).

Definition mw_ar (o : MwOp) : Type :=
  match o with
  | OnCtx o => ctx_ar o
  | Next _ => Response
  end.

(** The operations of the [Astro] global of a page; [locals], [params], [url]
    and [request] are plain properties of it. *)
Inductive AstroOp : Type :=
| AstroCookiesSet (name value : string)
| AstroClientAddress
| AstroCurrentLocale
| AstroPreferredLocale
| AstroPreferredLocaleList
| AstroRedirect (path : string) (status : option Z)
| AstroRewrite (reroutePayload : RewritePayload)
| AstroReadBody
| AstroNewRequest (init : RequestInit).

Definition astro_ar (o : AstroOp) : Type :=
  match o with
  | AstroCookiesSet _ _ => unit
  | AstroClientAddress => string
  | AstroCurrentLocale => option string
  | AstroPreferredLocale => option string
  | AstroPreferredLocaleList => option (list string)
  | AstroRedirect _ _ => Response
  | AstroRewrite _ => Response
  | AstroReadBody => string
  | AstroNewRequest _ => nat
  end.

(** A piece of user code: it returns, throws, or performs an operation and
    goes on with what the operation returned or threw ([try]/[catch]). *)
Inductive Prog (O : Type) (ar : O -> Type) (R : Type) : Type :=
| Return (r : R)
| Throw (e : Exn)
| Do (o : O) (k : Exn + ar o -> Prog O ar R).

Arguments Return {O ar R} r.
Arguments Throw {O ar R} e.
Arguments Do {O ar R} o k.

(** [await op] with no handler around it: an exception goes up. *)
Definition await {O : Type} {ar : O -> Type} {R : Type}
  (o : O) (k : ar o -> Prog O ar R) : Prog O ar R :=
  Do o (fun x => match x with inl e => Throw e | inr a => k a end).

(** What user code sees of the API context object. *)
Record APIContext : Type := {
  ctx_cookies : nat;
  ctx_generator : string;
  ctx_params : Params;
  ctx_request : nat;
  ctx_site : option URL;
  ctx_url : URL;
  ctx_props : Props;
  ctx_actionLocals : JsValue;
}.

(** The page-level part of the [Astro] global. *)
Record AstroPagePartial : Type := {
  astro_cookies : nat;
  astro_params : Params;
  astro_locals : JsValue;
  astro_request : nat;
  astro_result : nat;
  astro_site : option URL;
  astro_url : URL;
}.

Definition MiddlewareHandler : Type := APIContext -> Prog MwOp mw_ar Response.

(** A module of a route: the page component ([default]) and the endpoint
    handler, each user code. *)
Record ComponentInstance : Type := {
  partial : bool;
  default : AstroPagePartial -> Props -> Prog AstroOp astro_ar Response;
  handler : APIContext -> Prog CtxOp ctx_ar Response;
}.

(** ** The render context and its collaborators *)

(** The fields of a [RenderContext] instance that change or that the methods
    read; [pipeline] and [middleware] are read-only and are parameters below.
    The [priv_] fields are the class's private [#] fields. *)
Record RenderContext : Type := {
  locals : JsValue;
  pathname : string;
  request : nat;
  routeData : RouteData;
  status : Z;
  cookies : nat;
  params : Params;
  url : URL;
  props : Props;
  originalRoute : RouteData;
  isRewriting : bool;
  counter : Z;
  priv_astroPagePartial : option AstroPagePartial;
  priv_currentLocale : option string;
  priv_preferredLocale : option string;
  priv_preferredLocaleList : option (list string);
}.

Record I18n : Type := {
  defaultLocale : string;
  locales : list string;
  strategy : string;
}.

Record HeadElements : Type := {
  links : list string;
  scripts : list string;
  styles : list string;
}.

(** The members of the [Pipeline] that the render context uses (the logger,
    which only prints, is left out).  [tryRewrite] is the rewrite resolver; it
    may look at the request objects of the store. *)
Record Pipeline : Type := {
  serverLike : bool;
  streaming : bool;
  adapterName : option string;
  i18n : option I18n;
  site : option URL;
  manifest_base : string;
  manifest_trailingSlash : string;
  headElements : RouteData -> Exn + HeadElements;
  componentMetadata : RouteData -> Exn + unit;
  tryRewrite : (nat -> Request) -> RewritePayload -> nat -> RouteData ->
               Exn + (RouteData * ComponentInstance * URL);
}.

(** The imported functions whose sources are elsewhere: props and params
    resolution, the redirect renderer, the action result carried in [locals],
    and the three locale resolvers of i18n/utils. *)
Record Imports : Type := {
  getProps : option ComponentInstance -> RouteData -> string -> Exn + Props;
  getParams : RouteData -> string -> Params;
  renderRedirect : RenderContext -> Exn + Response;
  actionResultOf : JsValue -> JsValue;
  i18n_computeCurrentLocale : string -> list string -> option string;
  i18n_computePreferredLocale : Request -> list string -> option string;
  i18n_computePreferredLocaleList : Request -> list string -> option (list string);
}.

(** The [SSRResult] built for one page render (the fields that come from the
    render context; the manifest constants are in the pipeline). *)
Record SSRResult : Type := {
  cancelled : bool;
  res_cookies : nat;
  res_head : HeadElements;
  res_params : Params;
  res_partial : bool;
  res_pathname : string;
  res_request : nat;
  res_status : Z;
  res_actionResult : JsValue;
}.

(** A call of a collaborator, as a call-counting stub would record it. *)
Inductive Call : Type :=
| CallGetProps
| CallTryRewrite (payload : RewritePayload) (req : nat) (anchor : RouteData)
| CallMiddleware (ctx : APIContext)
| CallRenderEndpoint
| CallRenderRedirect
| CallRenderPage (result : nat)
| CallComputeCurrentLocale (path : string)
| CallComputePreferredLocale
| CallComputePreferredLocaleList.

(** The store: the instance ([this]), the heap objects it shares with user
    code (requests, the streams that are their bodies, jars, results), the
    cells of closure variables, and the record of collaborator calls (most
    recent first). *)
Record Store : Type := {
  this : RenderContext;
  requests : nat -> Request;
  next_request : nat;
  streams : nat -> ReadableStream;
  next_stream : nat;
  jars : nat -> AstroCookies;
  next_jar : nat;
  results : nat -> SSRResult;
  next_result : nat;
  cells : nat -> option ComponentInstance;
  next_cell : nat;
  calls : list Call;
}.

(** Heap update. *)
Definition upd {A : Type} (h : nat -> A) (i : nat) (x : A) : nat -> A :=
  fun j => if Nat.eqb j i then x else h j.

Definition with_this (f : RenderContext -> RenderContext) (s : Store) : Store :=
  {| this := f (this s); requests := requests s; next_request := next_request s;
     streams := streams s; next_stream := next_stream s;
     jars := jars s; next_jar := next_jar s; results := results s;
     next_result := next_result s; cells := cells s; next_cell := next_cell s;
     calls := calls s |}.

Definition set_request_obj (i : nat) (r : Request) (s : Store) : Store :=
  {| this := this s; requests := upd (requests s) i r; next_request := next_request s;
     streams := streams s; next_stream := next_stream s;
     jars := jars s; next_jar := next_jar s; results := results s;
     next_result := next_result s; cells := cells s; next_cell := next_cell s;
     calls := calls s |}.

Definition alloc_request (r : Request) (s : Store) : nat * Store :=
  (next_request s,
   {| this := this s; requests := upd (requests s) (next_request s) r;
      next_request := S (next_request s);
      streams := streams s; next_stream := next_stream s;
      jars := jars s; next_jar := next_jar s; results := results s;
      next_result := next_result s; cells := cells s; next_cell := next_cell s;
      calls := calls s |}).

Definition set_stream (i : nat) (b : ReadableStream) (s : Store) : Store :=
  {| this := this s; requests := requests s; next_request := next_request s;
     streams := upd (streams s) i b; next_stream := next_stream s;
     jars := jars s; next_jar := next_jar s; results := results s;
     next_result := next_result s; cells := cells s; next_cell := next_cell s;
     calls := calls s |}.

Definition alloc_stream (b : ReadableStream) (s : Store) : nat * Store :=
  (next_stream s,
   {| this := this s; requests := requests s; next_request := next_request s;
      streams := upd (streams s) (next_stream s) b; next_stream := S (next_stream s);
      jars := jars s; next_jar := next_jar s; results := results s;
      next_result := next_result s; cells := cells s; next_cell := next_cell s;
      calls := calls s |}).

Definition set_jar (i : nat) (c : AstroCookies) (s : Store) : Store :=
  {| this := this s; requests := requests s; next_request := next_request s;
     streams := streams s; next_stream := next_stream s;
     jars := upd (jars s) i c; next_jar := next_jar s; results := results s;
     next_result := next_result s; cells := cells s; next_cell := next_cell s;
     calls := calls s |}.

Definition alloc_jar (c : AstroCookies) (s : Store) : nat * Store :=
  (next_jar s,
   {| this := this s; requests := requests s; next_request := next_request s;
      streams := streams s; next_stream := next_stream s;
      jars := upd (jars s) (next_jar s) c; next_jar := S (next_jar s);
      results := results s; next_result := next_result s; cells := cells s;
      next_cell := next_cell s; calls := calls s |}).

Definition set_result (i : nat) (r : SSRResult) (s : Store) : Store :=
  {| this := this s; requests := requests s; next_request := next_request s;
     streams := streams s; next_stream := next_stream s;
     jars := jars s; next_jar := next_jar s; results := upd (results s) i r;
     next_result := next_result s; cells := cells s; next_cell := next_cell s;
     calls := calls s |}.

Definition alloc_result (r : SSRResult) (s : Store) : nat * Store :=
  (next_result s,
   {| this := this s; requests := requests s; next_request := next_request s;
      streams := streams s; next_stream := next_stream s;
      jars := jars s; next_jar := next_jar s;
      results := upd (results s) (next_result s) r; next_result := S (next_result s);
      cells := cells s; next_cell := next_cell s; calls := calls s |}).

Definition set_cell (i : nat) (c : option ComponentInstance) (s : Store) : Store :=
  {| this := this s; requests := requests s; next_request := next_request s;
     streams := streams s; next_stream := next_stream s;
     jars := jars s; next_jar := next_jar s; results := results s;
     next_result := next_result s; cells := upd (cells s) i c;
     next_cell := next_cell s; calls := calls s |}.

Definition alloc_cell (c : option ComponentInstance) (s : Store) : nat * Store :=
  (next_cell s,
   {| this := this s; requests := requests s; next_request := next_request s;
      streams := streams s; next_stream := next_stream s;
      jars := jars s; next_jar := next_jar s; results := results s;
      next_result := next_result s; cells := upd (cells s) (next_cell s) c;
      next_cell := S (next_cell s); calls := calls s |}).

Definition record_call (c : Call) (s : Store) : Store :=
  {| this := this s; requests := requests s; next_request := next_request s;
     streams := streams s; next_stream := next_stream s;
     jars := jars s; next_jar := next_jar s; results := results s;
     next_result := next_result s; cells := cells s; next_cell := next_cell s;
     calls := c :: calls s |}.

(** [request.bodyUsed]: the request has a body and its stream has been read. *)
Definition bodyUsed (s : Store) (r : Request) : bool :=
  match body r with
  | Some b => disturbed (streams s b)
  | None => false
  end.

(** Assignments to the fields of [this]. *)
Definition set_locals (v : JsValue) (c : RenderContext) : RenderContext :=
  {| locals := v; pathname := pathname c; request := request c;
     routeData := routeData c; status := status c; cookies := cookies c;
     params := params c; url := url c; props := props c;
     originalRoute := originalRoute c; isRewriting := isRewriting c;
     counter := counter c; priv_astroPagePartial := priv_astroPagePartial c;
     priv_currentLocale := priv_currentLocale c;
     priv_preferredLocale := priv_preferredLocale c;
     priv_preferredLocaleList := priv_preferredLocaleList c |}.

Definition set_pathname (v : string) (c : RenderContext) : RenderContext :=
  {| locals := locals c; pathname := v; request := request c;
     routeData := routeData c; status := status c; cookies := cookies c;
     params := params c; url := url c; props := props c;
     originalRoute := originalRoute c; isRewriting := isRewriting c;
     counter := counter c; priv_astroPagePartial := priv_astroPagePartial c;
     priv_currentLocale := priv_currentLocale c;
     priv_preferredLocale := priv_preferredLocale c;
     priv_preferredLocaleList := priv_preferredLocaleList c |}.

Definition set_request (v : nat) (c : RenderContext) : RenderContext :=
  {| locals := locals c; pathname := pathname c; request := v;
     routeData := routeData c; status := status c; cookies := cookies c;
     params := params c; url := url c; props := props c;
     originalRoute := originalRoute c; isRewriting := isRewriting c;
     counter := counter c; priv_astroPagePartial := priv_astroPagePartial c;
     priv_currentLocale := priv_currentLocale c;
     priv_preferredLocale := priv_preferredLocale c;
     priv_preferredLocaleList := priv_preferredLocaleList c |}.

Definition set_routeData (v : RouteData) (c : RenderContext) : RenderContext :=
  {| locals := locals c; pathname := pathname c; request := request c;
     routeData := v; status := status c; cookies := cookies c;
     params := params c; url := url c; props := props c;
     originalRoute := originalRoute c; isRewriting := isRewriting c;
     counter := counter c; priv_astroPagePartial := priv_astroPagePartial c;
     priv_currentLocale := priv_currentLocale c;
     priv_preferredLocale := priv_preferredLocale c;
     priv_preferredLocaleList := priv_preferredLocaleList c |}.

Definition set_status (v : Z) (c : RenderContext) : RenderContext :=
  {| locals := locals c; pathname := pathname c; request := request c;
     routeData := routeData c; status := v; cookies := cookies c;
     params := params c; url := url c; props := props c;
     originalRoute := originalRoute c; isRewriting := isRewriting c;
     counter := counter c; priv_astroPagePartial := priv_astroPagePartial c;
     priv_currentLocale := priv_currentLocale c;
     priv_preferredLocale := priv_preferredLocale c;
     priv_preferredLocaleList := priv_preferredLocaleList c |}.

Definition set_cookies (v : nat) (c : RenderContext) : RenderContext :=
  {| locals := locals c; pathname := pathname c; request := request c;
     routeData := routeData c; status := status c; cookies := v;
     params := params c; url := url c; props := props c;
     originalRoute := originalRoute c; isRewriting := isRewriting c;
     counter := counter c; priv_astroPagePartial := priv_astroPagePartial c;
     priv_currentLocale := priv_currentLocale c;
     priv_preferredLocale := priv_preferredLocale c;
     priv_preferredLocaleList := priv_preferredLocaleList c |}.

Definition set_params (v : Params) (c : RenderContext) : RenderContext :=
  {| locals := locals c; pathname := pathname c; request := request c;
     routeData := routeData c; status := status c; cookies := cookies c;
     params := v; url := url c; props := props c;
     originalRoute := originalRoute c; isRewriting := isRewriting c;
     counter := counter c; priv_astroPagePartial := priv_astroPagePartial c;
     priv_currentLocale := priv_currentLocale c;
     priv_preferredLocale := priv_preferredLocale c;
     priv_preferredLocaleList := priv_preferredLocaleList c |}.

Definition set_url (v : URL) (c : RenderContext) : RenderContext :=
  {| locals := locals c; pathname := pathname c; request := request c;
     routeData := routeData c; status := status c; cookies := cookies c;
     params := params c; url := v; props := props c;
     originalRoute := originalRoute c; isRewriting := isRewriting c;
     counter := counter c; priv_astroPagePartial := priv_astroPagePartial c;
     priv_currentLocale := priv_currentLocale c;
     priv_preferredLocale := priv_preferredLocale c;
     priv_preferredLocaleList := priv_preferredLocaleList c |}.

Definition set_isRewriting (v : bool) (c : RenderContext) : RenderContext :=
  {| locals := locals c; pathname := pathname c; request := request c;
     routeData := routeData c; status := status c; cookies := cookies c;
     params := params c; url := url c; props := props c;
     originalRoute := originalRoute c; isRewriting := v;
     counter := counter c; priv_astroPagePartial := priv_astroPagePartial c;
     priv_currentLocale := priv_currentLocale c;
     priv_preferredLocale := priv_preferredLocale c;
     priv_preferredLocaleList := priv_preferredLocaleList c |}.

Definition set_counter (v : Z) (c : RenderContext) : RenderContext :=
  {| locals := locals c; pathname := pathname c; request := request c;
     routeData := routeData c; status := status c; cookies := cookies c;
     params := params c; url := url c; props := props c;
     originalRoute := originalRoute c; isRewriting := isRewriting c;
     counter := v; priv_astroPagePartial := priv_astroPagePartial c;
     priv_currentLocale := priv_currentLocale c;
     priv_preferredLocale := priv_preferredLocale c;
     priv_preferredLocaleList := priv_preferredLocaleList c |}.

Definition set_astroPagePartial (v : option AstroPagePartial) (c : RenderContext)
  : RenderContext :=
  {| locals := locals c; pathname := pathname c; request := request c;
     routeData := routeData c; status := status c; cookies := cookies c;
     params := params c; url := url c; props := props c;
     originalRoute := originalRoute c; isRewriting := isRewriting c;
     counter := counter c; priv_astroPagePartial := v;
     priv_currentLocale := priv_currentLocale c;
     priv_preferredLocale := priv_preferredLocale c;
     priv_preferredLocaleList := priv_preferredLocaleList c |}.

Definition set_currentLocale (v : option string) (c : RenderContext) : RenderContext :=
  {| locals := locals c; pathname := pathname c; request := request c;
     routeData := routeData c; status := status c; cookies := cookies c;
     params := params c; url := url c; props := props c;
     originalRoute := originalRoute c; isRewriting := isRewriting c;
     counter := counter c; priv_astroPagePartial := priv_astroPagePartial c;
     priv_currentLocale := v;
     priv_preferredLocale := priv_preferredLocale c;
     priv_preferredLocaleList := priv_preferredLocaleList c |}.

Definition set_preferredLocale (v : option string) (c : RenderContext) : RenderContext :=
  {| locals := locals c; pathname := pathname c; request := request c;
     routeData := routeData c; status := status c; cookies := cookies c;
     params := params c; url := url c; props := props c;
     originalRoute := originalRoute c; isRewriting := isRewriting c;
     counter := counter c; priv_astroPagePartial := priv_astroPagePartial c;
     priv_currentLocale := priv_currentLocale c;
     priv_preferredLocale := v;
     priv_preferredLocaleList := priv_preferredLocaleList c |}.

Definition set_preferredLocaleList (v : option (list string)) (c : RenderContext)
  : RenderContext :=
  {| locals := locals c; pathname := pathname c; request := request c;
     routeData := routeData c; status := status c; cookies := cookies c;
     params := params c; url := url c; props := props c;
     originalRoute := originalRoute c; isRewriting := isRewriting c;
     counter := counter c; priv_astroPagePartial := priv_astroPagePartial c;
     priv_currentLocale := priv_currentLocale c;
     priv_preferredLocale := priv_preferredLocale c;
     priv_preferredLocaleList := v |}.

(** ** The monad of the methods *)

(** A call returns, throws, or (only in this embedding) runs out of fuel;
    the store it leaves behind is kept in all three cases. *)
Inductive Outcome (A : Type) : Type :=
| Ok (a : A)
| Raise (e : Exn)
| OutOfFuel.

Arguments Ok {A} a.
Arguments Raise {A} e.
Arguments OutOfFuel {A}.

Definition M (A : Type) : Type := Store -> Outcome A * Store.

Definition ret {A : Type} (a : A) : M A := fun s => (Ok a, s).

Definition throw {A : Type} (e : Exn) : M A := fun s => (Raise e, s).

Definition bind {A B : Type} (m : M A) (k : A -> M B) : M B :=
  fun s =>
    match m s with
    | (Ok a, s') => k a s'
    | (Raise e, s') => (Raise e, s')
    | (OutOfFuel, s') => (OutOfFuel, s')
    end.

Definition gets {A : Type} (f : Store -> A) : M A := fun s => (Ok (f s), s).

Definition modify (f : Store -> Store) : M unit := fun s => (Ok tt, f s).

Definition assign (f : RenderContext -> RenderContext) : M unit :=
  modify (with_this f).

(** The result of an awaited collaborator. *)
Definition lift {A : Type} (r : Exn + A) : M A :=
  match r with
  | inl e => throw e
  | inr a => ret a
  end.

(** [try { m } catch (e) { h e }] *)
Definition try_catch {A : Type} (m : M A) (h : Exn -> M A) : M A :=
  fun s =>
    match m s with
    | (Raise e, s') => h e s'
    | r => r
    end.

Notation "x <- c ;; k" := (bind c (fun x => k))
  (at level 100, c at next level, right associativity).
Notation "c ;;; k" := (bind c (fun _ => k))
  (at level 100, right associativity).

(** Running a piece of user code, given what each operation does. *)
Fixpoint runProg {O : Type} {ar : O -> Type} {R : Type}
  (h : forall o : O, M (ar o)) (p : Prog O ar R) : M R :=
  fun s =>
    match p with
    | Return r => (Ok r, s)
    | Throw e => (Raise e, s)
    | Do o k =>
        match h o s with
        | (Ok a, s') => runProg h (k (inr a)) s'
        | (Raise e, s') => runProg h (k (inl e)) s'
        | (OutOfFuel, s') => (OutOfFuel, s')
        end
    end.

(** ** The class *)

(** A parameter left out ([undefined]) takes its default value. *)
Definition or_default {A : Type} (d : A) (o : option A) : A :=
  match o with
  | Some a => a
  | None => d
  end.

(** [new Response(body, { status, statusText, headers })] for a body that is
    [null] or a string: a string body brings its [Content-Type] when the
    headers given name none; the headers can be changed. *)
Definition new_Response (body : option string) (status : Z) (statusText : string)
  (headers : Headers) : Response :=
  {| resp_body := body; resp_status := status; resp_statusText := statusText;
     resp_headers :=
       match body, headers_get "Content-Type" headers with
       | Some _, None => (headers ++ [("Content-Type", "text/plain;charset=UTF-8")])%list
       | _, _ => headers
       end;
     headers_immutable := false;
     astroCookies := None |}.

(** Modelled from the spec: [attachCookiesToResponse] and
    [getCookiesFromResponse] of the cookies module, which is not among the
    sources: the first puts the jar on the response object, the second reads
    the jar a response carries (if any). *)
Definition attachCookiesToResponse (r : Response) (jar : nat) : Response :=
  {| resp_body := resp_body r; resp_status := resp_status r;
     resp_statusText := resp_statusText r; resp_headers := resp_headers r;
     headers_immutable := headers_immutable r;
     astroCookies := Some jar |}.

Definition getCookiesFromResponse (r : Response) : option nat := astroCookies r.

(** The [Set-Cookie] entries a response goes out with: the pairs of the jar
    it carries. *)
Definition setCookieEntries (s : Store) (r : Response) : list (string * string) :=
  match getCookiesFromResponse r with
  | Some jar => outgoing (jars s jar)
  | None => []
  end.

(** [new AstroCookies(request)] *)
Definition new_AstroCookies (req : nat) : M nat :=
  fun s => let (j, s') := alloc_jar {| jar_request := req; outgoing := [] |} s in (Ok j, s').

(** The response of the loop guard: [new Response('Loop Detected', ...)]. *)
Definition loopDetected : Response :=
  new_Response (Some "Loop Detected") 508
    "Astro detected a loop where you tried to call the rewriting logic more than four times."
    [].

Section Class.

Variable pipeline : Pipeline.
Variable imports : Imports.
Variable middleware : MiddlewareHandler.

(** The request object made from an init, given the stream of its body. *)
Definition request_of (init : RequestInit) (stream : option nat) : Request :=
  {| req_url := init_url init; req_method := init_method init;
     req_headers := init_headers init; body := stream;
     clientAddressSymbol := init_clientAddress init;
     clientLocalsSymbol := init_locals init;
     responseSentSymbol := init_responseSent init |}.

(** [RenderContext.create]: the constructor's defaults ([cookies], [params],
    [url]) are computed from the request; [originalRoute] is the route given.
    The inbound request is object 0 of the store, its body (if it has one) is
    stream 0, the jar is jar 0. *)
Definition create (locals0 : option JsValue) (pathname0 : string) (inbound : RequestInit)
  (routeData0 : RouteData) (status0 : option Z) (props0 : option Props) : Store :=
  {| this :=
       {| locals := or_default (JObject 0) locals0;
          pathname := pathname0;
          request := 0%nat;
          routeData := routeData0;
          status := or_default 200 status0;
          cookies := 0%nat;
          params := getParams imports routeData0 pathname0;
          url := init_url inbound;
          props := or_default [] props0;
          originalRoute := routeData0;
          isRewriting := false;
          counter := 0;
          priv_astroPagePartial := None;
          priv_currentLocale := None;
          priv_preferredLocale := None;
          priv_preferredLocaleList := None |};
     requests := fun _ => request_of inbound
                            match init_body inbound with
                            | Some _ => Some 0%nat
                            | None => None
                            end;
     next_request := 1%nat;
     streams := fun _ => {| content := or_default "" (init_body inbound);
                            disturbed := false |};
     next_stream := match init_body inbound with
                    | Some _ => 1%nat
                    | None => 0%nat
                    end;
     jars := fun _ => {| jar_request := 0%nat; outgoing := [] |};
     next_jar := 1%nat;
     results := fun _ =>
       {| cancelled := false; res_cookies := 0%nat;
          res_head := {| links := []; scripts := []; styles := [] |};
          res_params := []; res_partial := false; res_pathname := pathname0;
          res_request := 0%nat; res_status := 200; res_actionResult := JUndefined |};
     next_result := 0%nat;
     cells := fun _ => None;
     next_cell := 0%nat;
     calls := [] |}.

(** [clientAddress()] *)
Definition clientAddress : M string :=
  fun s =>
    let req := requests s (request (this s)) in
    match clientAddressSymbol req with
    | Some address => (Ok address, s)
    | None =>
        if serverLike pipeline then
          match body req with
          | None => (Raise (AstroError PrerenderClientAddressNotAvailable), s)
          | Some _ =>
              if truthy_string (adapterName pipeline) then
                (Raise (AstroError
                          (ClientAddressNotAvailable (or_default "" (adapterName pipeline)))), s)
              else (Raise (AstroError StaticClientAddressNotAvailable), s)
          end
        else (Raise (AstroError StaticClientAddressNotAvailable), s)
    end.

(** A call of the locale resolver [computeCurrentLocale] of i18n/utils. *)
Definition call_computeCurrentLocale (path : string) (locs : list string)
  : M (option string) :=
  modify (record_call (CallComputeCurrentLocale path)) ;;;
  ret (i18n_computeCurrentLocale imports path locs).

(** [computeCurrentLocale()]: [this.#currentLocale ??= a ?? b ?? fallbackTo] *)
Definition computeCurrentLocale : M (option string) :=
  c <- gets this ;;
  match i18n pipeline with
  | None => ret None
  | Some cfg =>
      let fallbackTo :=
        if String.eqb (strategy cfg) "pathname-prefix-other-locales"
           || String.eqb (strategy cfg) "domains-prefix-other-locales"
        then Some (defaultLocale cfg) else None in
      match priv_currentLocale c with
      | Some v => ret (Some v)
      | None =>
          a <- call_computeCurrentLocale (route (routeData c)) (locales cfg) ;;
          v <- match a with
               | Some _ => ret a
               | None =>
                   b <- call_computeCurrentLocale (url_pathname (url c)) (locales cfg) ;;
                   match b with
                   | Some _ => ret b
                   | None => ret fallbackTo
                   end
               end ;;
          assign (set_currentLocale v) ;;;
          ret v
      end
  end.

(** [computePreferredLocale()] *)
Definition computePreferredLocale : M (option string) :=
  c <- gets this ;;
  match i18n pipeline with
  | None => ret None
  | Some cfg =>
      match priv_preferredLocale c with
      | Some v => ret (Some v)
      | None =>
          modify (record_call CallComputePreferredLocale) ;;;
          req <- gets (fun s => requests s (request c)) ;;
          let v := i18n_computePreferredLocale imports req (locales cfg) in
          assign (set_preferredLocale v) ;;;
          ret v
      end
  end.

(** [computePreferredLocaleList()] *)
Definition computePreferredLocaleList : M (option (list string)) :=
  c <- gets this ;;
  match i18n pipeline with
  | None => ret None
  | Some cfg =>
      match priv_preferredLocaleList c with
      | Some v => ret (Some v)
      | None =>
          modify (record_call CallComputePreferredLocaleList) ;;;
          req <- gets (fun s => requests s (request c)) ;;
          let v := i18n_computePreferredLocaleList imports req (locales cfg) in
          assign (set_preferredLocaleList v) ;;;
          ret v
      end
  end.

(** [#copyRequest(newUrl, oldRequest)]: the new request takes the listed
    properties of the old one - its [body] is the very stream of the old
    request; the symbol-keyed properties are not among them. *)
Definition copyRequest (newUrl : URL) (oldRequest : nat) : M nat :=
  fun s =>
    let old := requests s oldRequest in
    if bodyUsed s old then (Raise (AstroError RewriteWithBodyUsed), s)
    else
      let (r, s') :=
        alloc_request
          {| req_url := newUrl; req_method := req_method old;
             req_headers := req_headers old; body := body old;
             clientAddressSymbol := None; clientLocalsSymbol := None;
             responseSentSymbol := false |} s in
      (Ok r, s').

(** [createActionAPIContext()] followed by the [Object.assign] of
    [createAPIContext(props)]. *)
Definition createActionAPIContext : M APIContext :=
  c <- gets this ;;
  ret {| ctx_cookies := cookies c;
         ctx_generator := "Astro";
         ctx_params := params c;
         ctx_request := request c;
         ctx_site := site pipeline;
         ctx_url := url c;
         ctx_props := [];
         ctx_actionLocals := JUndefined |}.

Definition createAPIContext (props : Props) : M APIContext :=
  context <- createActionAPIContext ;;
  context_locals <- gets (fun s => locals (this s)) ;;
  ret {| ctx_cookies := ctx_cookies context;
         ctx_generator := ctx_generator context;
         ctx_params := ctx_params context;
         ctx_request := ctx_request context;
         ctx_site := ctx_site context;
         ctx_url := ctx_url context;
         ctx_props := props;
         ctx_actionLocals := context_locals |}.

(** The [locals] setter of the API context. *)
Definition ctx_set_locals (context : APIContext) (val : JsValue) : M unit :=
  if negb (String.eqb (typeof val) "object") then
    throw (AstroError LocalsNotAnObject)
  else
    assign (set_locals val) ;;;
    modify (fun s =>
      let r := requests s (ctx_request context) in
      set_request_obj (ctx_request context)
        {| req_url := req_url r; req_method := req_method r;
           req_headers := req_headers r; body := body r;
           clientAddressSymbol := clientAddressSymbol r;
           clientLocalsSymbol := Some val;
           responseSentSymbol := responseSentSymbol r |} s).

(** Reading the body of a request object, as [await request.text()] does:
    a request without a body gives the empty string; a stream is read once,
    and reading it marks it for every request that has it as its body. *)
Definition read_body (req : nat) : M string :=
  fun s =>
    let r := requests s req in
    match body r with
    | None => (Ok "", s)
    | Some b =>
        if disturbed (streams s b) then (Raise (TypeError "Body is unusable"), s)
        else
          (Ok (content (streams s b)),
           set_stream b {| content := content (streams s b); disturbed := true |} s)
    end.

(** [new Request(...)]: a body given as a string becomes a new stream. *)
Definition new_Request (init : RequestInit) : M nat :=
  fun s =>
    match init_body init with
    | Some text =>
        let (b, s1) := alloc_stream {| content := text; disturbed := false |} s in
        let (r, s2) := alloc_request (request_of init (Some b)) s1 in
        (Ok r, s2)
    | None =>
        let (r, s1) := alloc_request (request_of init None) s in
        (Ok r, s1)
    end.

(** [createResult(mod)] *)
Definition createResult (mdl : option ComponentInstance) : M nat :=
  c <- gets this ;;
  head <- lift (headElements pipeline (routeData c)) ;;
  lift (componentMetadata pipeline (routeData c)) ;;;
  match mdl with
  | None => throw (TypeError "Cannot read properties of undefined")
  | Some m =>
      now <- gets this ;;
      fun s =>
        let (r, s') :=
          alloc_result
            {| cancelled := false;
               res_cookies := cookies c;
               res_head := head;
               res_params := params now;
               res_partial := partial m;
               res_pathname := pathname c;
               res_request := request now;
               res_status := status c;
               res_actionResult := actionResultOf imports (locals now) |} s in
        (Ok r, s')
  end.

(** [createAstroPagePartial(result, astroStaticPartial)] *)
Definition createAstroPagePartial (result : nat) : M AstroPagePartial :=
  c <- gets this ;;
  ret {| astro_cookies := cookies c;
         astro_params := params c;
         astro_locals := locals c;
         astro_request := request c;
         astro_result := result;
         astro_site := site pipeline;
         astro_url := url c |}.

(** [createAstro(result, astroStaticPartial, props, slotValues)]: the page
    partial is made anew while rewriting, else made once and kept. *)
Definition createAstro (result : nat) : M AstroPagePartial :=
  c <- gets this ;;
  if isRewriting c then
    astroPagePartial <- createAstroPagePartial result ;;
    assign (set_astroPagePartial (Some astroPagePartial)) ;;;
    ret astroPagePartial
  else
    match priv_astroPagePartial c with
    | Some astroPagePartial => ret astroPagePartial
    | None =>
        astroPagePartial <- createAstroPagePartial result ;;
        assign (set_astroPagePartial (Some astroPagePartial)) ;;;
        ret astroPagePartial
    end.

(** The [redirect] helper of the API context. *)
Definition ctx_redirect (path : string) (status : option Z) : Response :=
  new_Response None (or_default 302 status) "" [("Location", path)].

(** The [redirect] helper of the [Astro] global. *)
Definition astro_redirect (path : string) (status : option Z) : M Response :=
  c <- gets this ;;
  sent <- gets (fun s => responseSentSymbol (requests s (request c))) ;;
  if (sent : bool) then throw (AstroError ResponseSentError)
  else ret (new_Response None (or_default 302 status) "" [("Location", path)]).

(** [pipeline.tryRewrite(payload, request, sourceRoute)], the rewrite
    resolver as a call-counting stub of it sees a call: the arguments it
    receives are recorded, then the resolver answers for them. *)
Definition pipeline_tryRewrite (payload : RewritePayload) (request : nat)
  (sourceRoute : RouteData) : M (RouteData * ComponentInstance * URL) :=
  modify (record_call (CallTryRewrite payload request sourceRoute)) ;;;
  heap <- gets requests ;;
  lift (tryRewrite pipeline heap payload request sourceRoute).

(** [await pipeline.tryRewrite(payload, this.request, this.originalRoute)],
    the call both rewrite entry points make. *)
Definition call_tryRewrite (payload : RewritePayload)
  : M (RouteData * ComponentInstance * URL) :=
  c <- gets this ;;
  pipeline_tryRewrite payload (request c) (originalRoute c).

Section Body.

(** [this.render], one level of recursion down. *)
Variable render_rec : option ComponentInstance -> M Response.

(** [#executeRewrite(reroutePayload)] up to the recursive call. *)
Definition executeRewrite_reset (reroutePayload : RewritePayload)
  : M ComponentInstance :=
  resolved <- call_tryRewrite reroutePayload ;;
  let '(routeData, component, newURL) := resolved in
  assign (set_routeData routeData) ;;;
  match instanceof_Request reroutePayload with
  | Some r => assign (set_request r)
  | None =>
      old <- gets (fun s => request (this s)) ;;
      r <- copyRequest newURL old ;;
      assign (set_request r)
  end ;;;
  new_url <- gets (fun s => req_url (requests s (request (this s)))) ;;
  assign (set_url new_url) ;;;
  jar <- (r <- gets (fun s => request (this s)) ;; new_AstroCookies r) ;;
  assign (set_cookies jar) ;;;
  assign (set_params (getParams imports routeData (url_pathname new_url))) ;;;
  assign (set_pathname (url_pathname new_url)) ;;;
  assign (set_isRewriting true) ;;;
  assign (set_status 200) ;;;
  ret component.

(** [#executeRewrite(reroutePayload)] *)
Definition executeRewrite (reroutePayload : RewritePayload) : M Response :=
  component <- executeRewrite_reset reroutePayload ;;
  render_rec (Some component).

(** What the operations of an API context object do. *)
Definition ctxHandler (context : APIContext) (o : CtxOp) : M (ctx_ar o) :=
  match o return M (ctx_ar o) with
  | CookiesSet name value =>
      modify (fun s => set_jar (ctx_cookies context)
                         (cookies_set name value (jars s (ctx_cookies context))) s)
  | GetClientAddress => clientAddress
  | GetCurrentLocale => computeCurrentLocale
  | GetLocals => gets (fun s => locals (this s))
  | SetLocals val => ctx_set_locals context val
  | GetPreferredLocale => computePreferredLocale
  | GetPreferredLocaleList => computePreferredLocaleList
  | CtxRedirect path status => ret (ctx_redirect path status)
  | CtxRewrite reroutePayload => executeRewrite reroutePayload
  | ReadBody => read_body (ctx_request context)
  | NewRequest init => new_Request init
  end.

(** What the operations of the [Astro] global of a page do. *)
Definition astroHandler (Astro : AstroPagePartial) (o : AstroOp) : M (astro_ar o) :=
  match o return M (astro_ar o) with
  | AstroCookiesSet name value =>
      modify (fun s => set_jar (astro_cookies Astro)
                         (cookies_set name value (jars s (astro_cookies Astro))) s)
  | AstroClientAddress => clientAddress
  | AstroCurrentLocale => computeCurrentLocale
  | AstroPreferredLocale => computePreferredLocale
  | AstroPreferredLocaleList => computePreferredLocaleList
  | AstroRedirect path status => astro_redirect path status
  | AstroRewrite reroutePayload => executeRewrite reroutePayload
  | AstroReadBody => read_body (astro_request Astro)
  | AstroNewRequest init => new_Request init
  end.

(** Modelled from the spec: the endpoint invoker [renderEndpoint] of
    runtime/server/endpoint.js, which is not among the sources: it runs the
    module's handler on the API context and returns its response as it is. *)
Definition renderEndpoint (mdl : option ComponentInstance) (ctx : APIContext)
  : M Response :=
  modify (record_call CallRenderEndpoint) ;;;
  match mdl with
  | None => throw (TypeError "Cannot read properties of undefined")
  | Some m => runProg (ctxHandler ctx) (handler m ctx)
  end.

(** Modelled from the spec: the template renderer [renderPage] of
    runtime/server, which is not among the sources: it instantiates the
    component, which asks the result for its [Astro] global and runs. *)
Definition renderPage (result : nat) (mdl : ComponentInstance) (props : Props)
  : M Response :=
  modify (record_call (CallRenderPage result)) ;;;
  Astro <- createAstro result ;;
  runProg (astroHandler Astro) (default mdl Astro props).

(** The rewrite block of [lastNext]: [if (payload) { ... }].  [cell] is the
    closure variable [componentInstance] of the enclosing [render] call. *)
Definition lastNext_rewrite (cell : nat) (payload : option RewritePayload) : M unit :=
  match payload with
  | Some p =>
      if payload_truthy payload then
        resolved <- call_tryRewrite p ;;
        let '(routeData, component, _) := resolved in
        assign (set_routeData routeData) ;;;
        modify (set_cell cell (Some component)) ;;;
        assign (set_isRewriting true) ;;;
        assign (set_status 200)
      else ret tt
  | None => ret tt
  end.

(** The rest of [lastNext]: the dispatch on the route type and the merge of
    the cookies the response carries into the jar [render] started with. *)
Definition lastNext_dispatch (cell : nat) (cookies0 : nat) (props : Props)
  (ctx : APIContext) : M Response :=
  c <- gets this ;;
  componentInstance <- gets (fun s => cells s cell) ;;
  let merge_cookies (response : Response) : M Response :=
    match getCookiesFromResponse response with
    | Some responseCookies =>
        modify (fun s => set_jar cookies0
                           (cookies_merge (jars s cookies0) (jars s responseCookies)) s) ;;;
        ret response
    | None => ret response
    end in
  match type (routeData c) with
  | endpoint =>
      response <- renderEndpoint componentInstance ctx ;;
      merge_cookies response
  | redirect =>
      modify (record_call CallRenderRedirect) ;;;
      now <- gets this ;;
      lift (renderRedirect imports now)
  | page =>
      result <- createResult componentInstance ;;
      response <-
        try_catch
          (match componentInstance with
           | Some m => renderPage result m props
           | None => throw (TypeError "Cannot read properties of undefined")
           end)
          (fun e =>
             modify (fun s =>
               let r := results s result in
               set_result result
                 {| cancelled := true; res_cookies := res_cookies r;
                    res_head := res_head r; res_params := res_params r;
                    res_partial := res_partial r; res_pathname := res_pathname r;
                    res_request := res_request r; res_status := res_status r;
                    res_actionResult := res_actionResult r |} s) ;;;
             throw e) ;;
      response <- lift (resp_set_header ROUTE_TYPE_HEADER "page" response) ;;
      now <- gets this ;;
      response <-
        (if String.eqb (route (routeData now)) "/404"
            || String.eqb (route (routeData now)) "/500"
         then lift (resp_set_header REROUTE_DIRECTIVE_HEADER "no" response)
         else ret response) ;;
      response <-
        (if isRewriting now
         then lift (resp_set_header REWRITE_DIRECTIVE_HEADER_KEY
                      REWRITE_DIRECTIVE_HEADER_VALUE response)
         else ret response) ;;
      merge_cookies response
  | fallback =>
      ret (new_Response None 500 "" [(ROUTE_TYPE_HEADER, "fallback")])
  end.

(** [lastNext(ctx, payload)] *)
Definition lastNext (cell : nat) (cookies0 : nat) (props : Props)
  (ctx : APIContext) (payload : option RewritePayload) : M Response :=
  lastNext_rewrite cell payload ;;;
  lastNext_dispatch cell cookies0 props ctx.

(** What the operations of middleware do: those of the API context, and
    [next], which is [lastNext] on the same context. *)
Definition mwHandler (apiContext : APIContext)
  (responseFunction : APIContext -> option RewritePayload -> M Response)
  (o : MwOp) : M (mw_ar o) :=
  match o return M (mw_ar o) with
  | OnCtx o => ctxHandler apiContext o
  | Next payload => responseFunction apiContext payload
  end.

(** Modelled from the spec: [callMiddleware] of the middleware module, which
    is not among the sources: it runs the handler on the API context with the
    [next] continuation; calling [next] without a payload continues the
    dispatch, calling it with a payload triggers the rewrite resolution. *)
Definition callMiddleware (onRequest : MiddlewareHandler) (apiContext : APIContext)
  (responseFunction : APIContext -> option RewritePayload -> M Response)
  : M Response :=
  modify (record_call (CallMiddleware apiContext)) ;;;
  runProg (mwHandler apiContext responseFunction) (onRequest apiContext).

(** The props of [render]: [this.props] when it has keys, else what
    [getProps] resolves. *)
Definition render_props (componentInstance : option ComponentInstance) : M Props :=
  c <- gets this ;;
  if (0 <? length (props c))%nat then ret (props c)
  else
    modify (record_call CallGetProps) ;;;
    lift (getProps imports componentInstance (routeData c) (pathname c)).

(** The part of [render] after the loop guard: the middleware chain ending in
    [lastNext], then the marker header is stripped and the jar [render]
    started with is put on the response. *)
Definition render_dispatch (componentInstance : option ComponentInstance)
  (cookies0 : nat) (props : Props) (apiContext : APIContext) : M Response :=
  cell <- (fun s => let (i, s') := alloc_cell componentInstance s in (Ok i, s')) ;;
  response <- callMiddleware middleware apiContext (lastNext cell cookies0 props) ;;
  response <-
    (if truthy_string (headers_get ROUTE_TYPE_HEADER (resp_headers response))
     then lift (resp_delete_header ROUTE_TYPE_HEADER response)
     else ret response) ;;
  ret (attachCookiesToResponse response cookies0).

(** The body of [render(componentInstance, slots)]; the slots go to the
    template renderer untouched and are left out. *)
Definition render_body (componentInstance : option ComponentInstance) : M Response :=
  c <- gets this ;;
  let cookies0 := cookies c in
  props <- render_props componentInstance ;;
  apiContext <- createAPIContext props ;;
  assign (fun c => set_counter (counter c + 1) c) ;;;
  now <- gets this ;;
  if counter now =? 4 then ret loopDetected
  else render_dispatch componentInstance cookies0 props apiContext.

End Body.

(** [render(componentInstance)], with a bound on the depth of re-entry. *)
Fixpoint render (fuel : nat) (componentInstance : option ComponentInstance)
  : M Response :=
  match fuel with
  | O => fun s => (OutOfFuel, s)
  | S fuel' => render_body (render fuel') componentInstance
  end.

End Class.

(** ** A small site, for running the class on concrete requests *)

Module Site.

Definition localhost (path : string) : URL :=
  {| origin := "http://localhost"; url_pathname := path |}.

(** A GET request (no body) for a path. *)
Definition get (path : string) : RequestInit :=
  {| init_url := localhost path; init_method := "GET"; init_headers := [];
     init_body := None; init_clientAddress := None;
     init_locals := None; init_responseSent := false |}.

(** A POST request with a body for a path. *)
Definition post (path payload : string) : RequestInit :=
  {| init_url := localhost path; init_method := "POST"; init_headers := [];
     init_body := Some payload; init_clientAddress := None;
     init_locals := None; init_responseSent := false |}.

Definition pageRoute (path : string) : RouteData :=
  {| route := path; type := page |}.

Definition html (text : string) : Response :=
  new_Response (Some text) 200 "OK" [("Content-Type", "text/html")].

(** The module of a path: a page that shows the path, and an endpoint that
    answers with it. *)
Definition pageOf (path : string) : ComponentInstance :=
  {| partial := false;
     default := fun _ _ => Return (html path);
     handler := fun _ => Return (html path) |}.

Definition pathOf (heap : nat -> Request) (p : RewritePayload) : string :=
  match p with
  | PString path => path
  | PURL u => url_pathname u
  | PRequest r => url_pathname (req_url (heap r))
  end.

(** Every path is a page of the site. *)
Definition resolver (heap : nat -> Request) (p : RewritePayload) (req : nat)
  (anchor : RouteData) : Exn + (RouteData * ComponentInstance * URL) :=
  inr (pageRoute (pathOf heap p), pageOf (pathOf heap p), localhost (pathOf heap p)).

Definition pipeline (server : bool) (adapter : option string) (cfg : option I18n)
  : Pipeline :=
  {| serverLike := server; streaming := true; adapterName := adapter; i18n := cfg;
     site := None; manifest_base := "/"; manifest_trailingSlash := "ignore";
     headElements := fun _ => inr {| links := []; scripts := []; styles := [] |};
     componentMetadata := fun _ => inr tt;
     tryRewrite := resolver |}.

(** The first segment of a path that is a locale, if any. *)
Fixpoint firstLocaleIn (segments : list string) (locs : list string) : option string :=
  match segments with
  | [] => None
  | seg :: rest =>
      if existsb (String.eqb seg) locs then Some seg else firstLocaleIn rest locs
  end.

Fixpoint split_path (acc : string) (s : string) : list string :=
  match s with
  | EmptyString => [acc]
  | String c rest =>
      if Ascii.eqb c "/"%char then acc :: split_path "" rest
      else split_path (acc ++ String c "") rest
  end.

Definition imports : Imports :=
  {| getProps := fun _ _ _ => inr [];
     getParams := fun _ _ => [];
     renderRedirect := fun _ => inr (new_Response None 302 "" [("Location", "/")]);
     actionResultOf := fun _ => JUndefined;
     i18n_computeCurrentLocale := fun path locs => firstLocaleIn (split_path "" path) locs;
     i18n_computePreferredLocale := fun _ _ => None;
     i18n_computePreferredLocaleList := fun _ _ => Some [] |}.

Definition plain : Pipeline := pipeline true None None.

End Site.

(** ** Server-side actions (actions/runtime/virtual/server.ts) *)

Module Actions.

(** The validators of a schema that the file tells apart with [instanceof];
    any other class of validator is [ZodOther]. *)
Inductive ZodType : Type :=
| ZodString
| ZodNumber
| ZodBoolean
| ZodArray (type : ZodType)
| ZodOptional (innerType : ZodType)
| ZodNullable (innerType : ZodType)
| ZodOther (className : string).

(** An entry of a [FormData]: a string or a file. *)
Inductive FormDataEntryValue : Type :=
| EntryString (s : string)
| EntryFile (name : string).

(** A [FormData]: its entries in order; a key may occur several times. *)
Definition FormData : Type := list (string * FormDataEntryValue).

(** [formData.has(key)], [formData.get(key)] ([None] is [null]),
    [formData.getAll(key)]. *)
Definition has (key : string) (formData : FormData) : bool :=
  existsb (fun kv => String.eqb (fst kv) key) formData.

Fixpoint get (key : string) (formData : FormData) : option FormDataEntryValue :=
  match formData with
  | [] => None
  | (k, v) :: rest => if String.eqb k key then Some v else get key rest
  end.

Definition getAll (key : string) (formData : FormData) : list FormDataEntryValue :=
  map snd (List.filter (fun kv => String.eqb (fst kv) key) formData).

(** [Boolean(entry)]: only the empty string is falsy. *)
Definition Boolean (entry : FormDataEntryValue) : bool :=
  match entry with
  | EntryString s => negb (String.eqb s "")
  | EntryFile _ => true
  end.

(** [validator instanceof z.ZodOptional || validator instanceof z.ZodNullable]
    unwrapped until it is neither: the [while] loop of [formDataToObject]. *)
Fixpoint unwrap (validator : ZodType) : ZodType :=
  match validator with
  | ZodOptional innerType => unwrap innerType
  | ZodNullable innerType => unwrap innerType
  | _ => validator
  end.

Section WithNumber.

(** JavaScript numbers and the conversion [Number(value)] are left abstract. *)
Variable Num : Type.
Variable Number : FormDataEntryValue -> Num.

(** The values [formDataToObject] puts into the object. *)
Inductive Value : Type :=
| Undefined
| Null
| BooleanValue (b : bool)
| NumberValue (n : Num)
| EntryValue (e : FormDataEntryValue)
| NumberArray (l : list Num)
| BooleanArray (l : list bool)
| EntryArray (l : list FormDataEntryValue).

(** [handleFormDataGetAll(key, formData, validator)], for an array validator
    with element validator [elementValidator]. *)
Definition handleFormDataGetAll (key : string) (formData : FormData)
  (elementValidator : ZodType) : Value :=
  let entries := getAll key formData in
  match elementValidator with
  | ZodNumber => NumberArray (map Number entries)
  | ZodBoolean => BooleanArray (map Boolean entries)
  | _ => EntryArray entries
  end.

(** [handleFormDataGet(key, formData, validator, baseValidator)] *)
Definition handleFormDataGet (key : string) (formData : FormData)
  (validator baseValidator : ZodType) : Value :=
  match get key formData with
  | Some value =>
      if Boolean value then
        match validator with
        | ZodNumber => NumberValue (Number value)
        | _ => EntryValue value
        end
      else
        match baseValidator with
        | ZodOptional _ => Undefined
        | _ => Null
        end
  | None =>
      match baseValidator with
      | ZodOptional _ => Undefined
      | _ => Null
      end
  end.

(** A value that is an object: an array or a file. *)
Definition is_object (value : Value) : bool :=
  match value with
  | NumberArray _ | BooleanArray _ | EntryArray _ => true
  | EntryValue (EntryFile _) => true
  | _ => false
  end.

(** The prototype of the object under construction: [Object.prototype], as
    for every object literal, until the [__proto__] setter is given [null]
    or an object. *)
Inductive Prototype : Type :=
| ObjectPrototype
| NullPrototype
| ValuePrototype (value : Value).

(** The object under construction: its own properties and its prototype. *)
Record JsObject : Type := {
  own : list (string * Value);
  prototype : Prototype;
}.

(** The object literal [{}]. *)
Definition empty_object : JsObject := {| own := []; prototype := ObjectPrototype |}.

(** Writing and reading an own property. *)
Fixpoint own_set (key : string) (value : Value) (props : list (string * Value))
  : list (string * Value) :=
  match props with
  | [] => [(key, value)]
  | (k, v) :: rest =>
      if String.eqb k key then (k, value) :: rest
      else (k, v) :: own_set key value rest
  end.

Fixpoint own_get (key : string) (props : list (string * Value)) : option Value :=
  match props with
  | [] => None
  | (k, v) :: rest => if String.eqb k key then Some v else own_get key rest
  end.

(** The own property of an object with a key, if it has one. *)
Definition obj_get (key : string) (obj : JsObject) : option Value :=
  own_get key (own obj).

(** The names of the accessor properties without a setter that a file
    inherits ([name], [size], [type], ..., as the platform has them). *)
Variable readonly_of_File : string -> bool.

(** An object with this prototype inherits an accessor without a setter
    under the key.  [Object.prototype] and arrays have none. *)
Definition inherits_readonly (p : Prototype) (key : string) : bool :=
  match p with
  | ValuePrototype (EntryValue (EntryFile _)) => readonly_of_File key
  | _ => false
  end.

(** What the setter of [Object.prototype.__proto__] does to the object it is
    called on: [null] and objects become the prototype, any other value is
    ignored. *)
Definition set_prototype (value : Value) (obj : JsObject) : JsObject :=
  match value with
  | Null => {| own := own obj; prototype := NullPrototype |}
  | _ =>
      if is_object value then {| own := own obj; prototype := ValuePrototype value |}
      else obj
  end.

(** [obj[key] = value] in strict code: an own property is written; else the
    key [__proto__] reaches the setter that every object inherits whose
    prototype chain ends in [Object.prototype]; an inherited accessor without
    a setter makes the assignment throw a [TypeError]; any other key becomes
    an own property. *)
Definition obj_set (key : string) (value : Value) (obj : JsObject) : Exn + JsObject :=
  match own_get key (own obj) with
  | Some _ => inr {| own := own_set key value (own obj); prototype := prototype obj |}
  | None =>
      if String.eqb key "__proto__"
         && match prototype obj with NullPrototype => false | _ => true end
      then inr (set_prototype value obj)
      else if inherits_readonly (prototype obj) key
      then inl (TypeError "Cannot set property which has only a getter")
      else inr {| own := own_set key value (own obj); prototype := prototype obj |}
  end.

(** The body of the [for] loop of [formDataToObject] for one schema entry. *)
Definition fieldValue (formData : FormData) (key : string) (baseValidator : ZodType)
  : Value :=
  let validator := unwrap baseValidator in
  match validator with
  | ZodBoolean => BooleanValue (has key formData)
  | ZodArray elementValidator => handleFormDataGetAll key formData elementValidator
  | _ => handleFormDataGet key formData validator baseValidator
  end.

(** The [for] loop of [formDataToObject] over the entries that are left. *)
Fixpoint formDataToObject_loop (formData : FormData) (shape : list (string * ZodType))
  (obj : JsObject) : Exn + JsObject :=
  match shape with
  | [] => inr obj
  | (key, baseValidator) :: rest =>
      match obj_set key (fieldValue formData key baseValidator) obj with
      | inl e => inl e
      | inr obj' => formDataToObject_loop formData rest obj'
      end
  end.

(** [formDataToObject(formData, schema)], [shape] being
    [Object.entries(schema.shape)]. *)
Definition formDataToObject (formData : FormData) (shape : list (string * ZodType))
  : Exn + JsObject :=
  formDataToObject_loop formData shape empty_object.

(** What is handed around as [unknown]: a [FormData], the object made from
    one, or any other value ([Other] is left abstract). *)
Variable Other : Type.

Inductive Unknown : Type :=
| AFormData (formData : FormData)
| AnObject (obj : JsObject)
| AnOther (value : Other).

Variable Issues : Type.
Variable Thrown : Type.
Variable Output : Type.
Variable Context : Type.

(** What a server handler throws: an [ActionError] with its code and message,
    an [ActionInputError] with the issues of the failed parse, or what
    [formDataToObject], the schema's parse, [getApiContext] or the action's
    own handler threw. *)
Inductive Failure : Type :=
| ActionError (code message : string)
| ActionInputError (issues : Issues)
| FormDataToObjectThrew (e : Exn)
| ParseThrew (e : Thrown)
| GetApiContextThrew (e : Thrown)
| HandlerThrew (e : Thrown).

(** An input schema: its shape when it is an instance of [z.ZodObject], and
    its [safeParseAsync], which answers with issues or with the parsed data
    unless code of the schema throws. *)
Record InputSchema : Type := {
  zodObject : option (list (string * ZodType));
  safeParseAsync : Unknown -> Thrown + (Issues + Unknown);
}.

Definition ActionHandler : Type := Unknown -> Context -> Thrown + Output.

(** The call [handler(input, context)]. *)
Definition call_handler (handler : ActionHandler) (input : Unknown) (context : Context)
  : Failure + Output :=
  match handler input context with
  | inl e => inl (HandlerThrew e)
  | inr output => inr output
  end.

(** [getApiContext()] of store.js, which is not among the sources, is a
    parameter: it hands out the API context that is stored for the running
    request, and throws when none is. *)
Variable getApiContext : Thrown + Context.

(** [await handler(input, getApiContext())]: the arguments are evaluated
    before the call. *)
Definition handler_with_context (handler : ActionHandler) (input : Unknown)
  : Failure + Output :=
  match getApiContext with
  | inl e => inl (GetApiContextThrew e)
  | inr context => call_handler handler input context
  end.

(** The part of both server handlers from [safeParseAsync] on. *)
Definition parse_then_handle (handler : ActionHandler) (schema : InputSchema)
  (input : Unknown) : Failure + Output :=
  match safeParseAsync schema input with
  | inl e => inl (ParseThrew e)
  | inr (inl issues) => inl (ActionInputError issues)
  | inr (inr data) => handler_with_context handler data
  end.

(** [getFormServerHandler(handler, inputSchema)] *)
Definition getFormServerHandler (handler : ActionHandler)
  (inputSchema : option InputSchema) (unparsedInput : Unknown) : Failure + Output :=
  match unparsedInput with
  | AFormData formData =>
      match inputSchema with
      | Some schema =>
          match zodObject schema with
          | Some shape =>
              match formDataToObject formData shape with
              | inl e => inl (FormDataToObjectThrew e)
              | inr obj => parse_then_handle handler schema (AnObject obj)
              end
          | None => handler_with_context handler unparsedInput
          end
      | None => handler_with_context handler unparsedInput
      end
  | _ => inl (ActionError "UNSUPPORTED_MEDIA_TYPE" "This action only accepts FormData.")
  end.

(** [getJsonServerHandler(handler, inputSchema)] *)
Definition getJsonServerHandler (handler : ActionHandler)
  (inputSchema : option InputSchema) (unparsedInput : Unknown) : Failure + Output :=
  match unparsedInput with
  | AFormData _ =>
      inl (ActionError "UNSUPPORTED_MEDIA_TYPE" "This action only accepts JSON.")
  | _ =>
      match inputSchema with
      | None => handler_with_context handler unparsedInput
      | Some schema => parse_then_handle handler schema unparsedInput
      end
  end.

Inductive ActionAccept : Type := form | json.

(** [callSafely] of shared.js, which is not among the sources, is a
    parameter: it turns a run of the server handler into a [SafeResult]. *)
Variable SafeResult : Type.
Variable callSafely : (Failure + Output) -> SafeResult.

(** The value [defineAction] returns: the safe server handler, with the
    server handler itself as its [orThrow] property. *)
Record ActionClient : Type := {
  safeServerHandler : Unknown -> SafeResult;
  orThrow : Unknown -> Failure + Output;
}.

(** [defineAction({ accept, input, handler })] *)
Definition defineAction (accept : option ActionAccept) (inputSchema : option InputSchema)
  (handler : ActionHandler) : ActionClient :=
  let serverHandler :=
    match accept with
    | Some form => getFormServerHandler handler inputSchema
    | _ => getJsonServerHandler handler inputSchema
    end in
  {| safeServerHandler := fun unparsedInput => callSafely (serverHandler unparsedInput);
     orThrow := serverHandler |}.

End WithNumber.

End Actions.

(** ** Notions used in the statements *)

Definition is_currentLocale_call (c : Call) : bool :=
  match c with
  | CallComputeCurrentLocale _ => true
  | _ => false
  end.

Definition is_tryRewrite_call (c : Call) : bool :=
  match c with
  | CallTryRewrite _ _ _ => true
  | _ => false
  end.

Definition count_calls (f : Call -> bool) (l : list Call) : nat :=
  length (List.filter f l).


(** The context of a fresh request for [/] on the small site. *)
Definition Site_start : Store :=
  create Site.imports None "/" (Site.get "/") (Site.pageRoute "/") None None.

(** The API context that [render] builds for it. *)
Definition Site_ctx : APIContext :=
  {| ctx_cookies := 0%nat; ctx_generator := "Astro"; ctx_params := [];
     ctx_request := 0%nat; ctx_site := None; ctx_url := Site.localhost "/";
     ctx_props := []; ctx_actionLocals := JObject 0 |}.

(** A page whose template throws while it renders. *)
Definition Site_throwingPage : ComponentInstance :=
  {| partial := false;
     default := fun _ _ => Throw (OtherError "boom");
     handler := fun _ => Throw (OtherError "boom") |}.

(** A call of the rewrite resolver is anchored at a route when that route is
    the one it was handed as the route to resolve against. *)
Definition anchored (a : RouteData) (c : Call) : Prop :=
  match c with
  | CallTryRewrite _ _ anchor => anchor = a
  | _ => True
  end.

(** What every step of the class keeps: [originalRoute] is not assigned, the
    calls that are added are anchored at it, the counter does not go down,
    [isRewriting] once set stays set, and a locale that is cached stays. *)
Record evolves (s s' : Store) : Prop := {
  ev_originalRoute : originalRoute (this s') = originalRoute (this s);
  ev_calls : exists new, calls s' = (new ++ calls s)%list
                         /\ Forall (anchored (originalRoute (this s))) new;
  ev_counter : counter (this s) <= counter (this s');
  ev_isRewriting : isRewriting (this s) = true -> isRewriting (this s') = true;
  ev_currentLocale :
    forall v, priv_currentLocale (this s) = Some v ->
              priv_currentLocale (this s') = Some v;
  ev_preferredLocale :
    forall v, priv_preferredLocale (this s) = Some v ->
              priv_preferredLocale (this s') = Some v;
  ev_preferredLocaleList :
    forall v, priv_preferredLocaleList (this s) = Some v ->
              priv_preferredLocaleList (this s') = Some v;
}.

(** A method keeps all of that, however it ends. *)
Definition preserves {A : Type} (m : M A) : Prop :=
  forall s, evolves s (snd (m s)).

(** A site in two languages, a route whose pattern names no locale, and a
    request for its English page. *)
Definition Site_i18n : I18n :=
  {| defaultLocale := "en"; locales := ["en"; "fr"]; strategy := "pathname-prefix-always" |}.

Definition Site_localized : Pipeline := Site.pipeline true None (Some Site_i18n).

Definition Site_start_en : Store :=
  create Site.imports None "/en/about" (Site.get "/en/about")
    {| route := "/[lang]/about"; type := page |} None None.

(** Middleware that, on every call, returns what [ctx.rewrite] returns. *)
Definition Site_alwaysRewrite : MiddlewareHandler :=
  fun ctx => await (OnCtx (CtxRewrite (PString "/loop"))) Return.



(** Middleware that rewrites [/] to [/inner] through the API context
    ([return ctx.rewrite("/inner")]) after setting a cookie, and that for any
    other path sets two cookies and goes on to the page. *)
Definition Site_cookieOnRewrite : MiddlewareHandler :=
  fun ctx =>
    if String.eqb (url_pathname (ctx_url ctx)) "/" then
      await (OnCtx (CookiesSet "theme" "outer")) (fun _ =>
      await (OnCtx (CtxRewrite (PString "/inner"))) Return)
    else
      await (OnCtx (CookiesSet "theme" "inner")) (fun _ =>
      await (OnCtx (CookiesSet "session" "abc")) (fun _ =>
      await (Next None) Return)).

(** Middleware that sets a cookie and goes on to the route's handler. *)
Definition Site_cookieThenNext : MiddlewareHandler :=
  fun ctx =>
    if String.eqb (url_pathname (ctx_url ctx)) "/" then
      await (OnCtx (CookiesSet "theme" "outer")) (fun _ => await (Next None) Return)
    else
      await (OnCtx (CookiesSet "theme" "inner")) (fun _ =>
      await (OnCtx (CookiesSet "session" "abc")) (fun _ =>
      await (Next None) Return)).

(** An endpoint that answers with a rewrite to [/inner]. *)
Definition Site_rewritingEndpoint : ComponentInstance :=
  {| partial := false;
     default := fun _ _ => Return (Site.html "/");
     handler := fun _ => await (CtxRewrite (PString "/inner")) Return |}.

(** The same, setting a cookie after the rewrite has returned. *)
Definition Site_rewritingEndpoint_late : ComponentInstance :=
  {| partial := false;
     default := fun _ _ => Return (Site.html "/");
     handler := fun _ =>
       await (CtxRewrite (PString "/inner")) (fun r =>
       await (CookiesSet "theme" "late") (fun _ => Return r)) |}.

(** The context of a fresh request for the endpoint [/]. *)
Definition Site_start_endpoint : Store :=
  create Site.imports None "/" (Site.get "/") {| route := "/"; type := endpoint |}
    None None.

(** Middleware that goes on to the route's handler and returns its response. *)
Definition Site_passThrough : MiddlewareHandler :=
  fun ctx => await (Next None) Return.

(** A request whose adapter supplied a client address and whose response has
    been sent. *)
Definition Site_request_from_adapter : RequestInit :=
  {| init_url := Site.localhost "/"; init_method := "GET"; init_headers := [];
     init_body := None; init_clientAddress := Some "203.0.113.7";
     init_locals := None; init_responseSent := true |}.

Definition Site_start_from_adapter : Store :=
  create Site.imports None "/" Site_request_from_adapter (Site.pageRoute "/") None None.

(** A pipeline whose rewrite resolver finds nothing. *)
Definition Site_unresolving : Pipeline :=
  {| serverLike := true; streaming := true; adapterName := None; i18n := None;
     site := None; manifest_base := "/"; manifest_trailingSlash := "ignore";
     headElements := fun _ => inr {| links := []; scripts := []; styles := [] |};
     componentMetadata := fun _ => inr tt;
     tryRewrite := fun _ _ _ _ => inl (OtherError "no route") |}.


Definition is_preferredLocale_call (c : Call) : bool :=
  match c with
  | CallComputePreferredLocale => true
  | _ => false
  end.

(** The store after [n] accesses in a row. *)
Definition after_accesses {A : Type} (access : M A) (n : nat) (s : Store) : Store :=
  Nat.iter n (fun s => snd (access s)) s.

(** A site in two languages that falls back to its default locale. *)
Definition Site_i18n_fallback : I18n :=
  {| defaultLocale := "en"; locales := ["en"; "fr"];
     strategy := "pathname-prefix-other-locales" |}.

(** The page of the [/404] route; it sets a reroute directive of its own. *)
Definition Site_notFoundPage : ComponentInstance :=
  {| partial := false;
     default := fun _ _ =>
       Return (new_Response (Some "not found") 404 "Not Found"
                 [(REROUTE_DIRECTIVE_HEADER, "yes")]);
     handler := fun _ => Return (Site.html "/404") |}.

Definition Site_start_404 : Store :=
  create Site.imports None "/missing" (Site.get "/missing") (Site.pageRoute "/404")
    (Some 404) None.

(** What [Response.redirect("/login")] returns: its headers are immutable.
    And a page that answers with it. *)
Definition Site_redirected : Response :=
  {| resp_body := None; resp_status := 302; resp_statusText := "";
     resp_headers := [("location", "http://localhost/login")];
     headers_immutable := true; astroCookies := None |}.

Definition Site_redirectingPage : ComponentInstance :=
  {| partial := false;
     default := fun _ _ => Return Site_redirected;
     handler := fun _ => Return Site_redirected |}.


(** A response as [fetch] gives it - its headers are immutable - from a
    server that put the route-type marker on it, and middleware that answers
    with it. *)
Definition Site_fetched : Response :=
  {| resp_body := Some "upstream"; resp_status := 200; resp_statusText := "OK";
     resp_headers := [("content-type", "text/html"); ("x-astro-route-type", "page")];
     headers_immutable := true; astroCookies := None |}.

Definition Site_proxy : MiddlewareHandler := fun ctx => Return Site_fetched.

(** A validator that is neither a boolean nor an array validator: the kind
    of field that [handleFormDataGet] serves. *)
Definition is_scalar (validator : Actions.ZodType) : Prop :=
  match validator with
  | Actions.ZodBoolean => False
  | Actions.ZodArray _ => False
  | _ => True
  end.

(** A sign-up form and the shape of its schema. *)
Definition signup_form : Actions.FormData :=
  [("name", Actions.EntryString "Ada"); ("age", Actions.EntryString "");
   ("newsletter", Actions.EntryString "false");
   ("tag", Actions.EntryString "a"); ("tag", Actions.EntryString "b");
   ("csrf", Actions.EntryString "token")].

Definition signup_shape : list (string * Actions.ZodType) :=
  [("name", Actions.ZodString);
   ("age", Actions.ZodOptional Actions.ZodNumber);
   ("nickname", Actions.ZodNullable (Actions.ZodOptional Actions.ZodString));
   ("newsletter", Actions.ZodOptional Actions.ZodBoolean);
   ("terms", Actions.ZodBoolean);
   ("tag", Actions.ZodArray Actions.ZodString);
   ("score", Actions.ZodOptional (Actions.ZodArray Actions.ZodNumber))].

(** In the examples a number is stood for by its numeral as written. *)
Definition numeral (e : Actions.FormDataEntryValue) : string :=
  match e with
  | Actions.EntryString s => s
  | Actions.EntryFile _ => "NaN"
  end.

(** In the examples a file inherits the accessors [name], [lastModified],
    [size] and [type]. *)
Definition file_accessors (key : string) : bool :=
  existsb (String.eqb key) ["name"; "lastModified"; "size"; "type"].

(** An action for the sign-up form: its schema is an object schema whose parse
    accepts an object that has a [name], and its handler answers with a
    greeting.  JSON values, issues, exceptions and outputs are strings. *)
Definition signup_schema : Actions.InputSchema string string string string :=
  {| Actions.zodObject := Some signup_shape;
     Actions.safeParseAsync := fun input =>
       match input with
       | Actions.AnObject _ _ obj =>
           match Actions.obj_get string "name" obj with
           | Some (Actions.EntryValue _ (Actions.EntryString _)) => inr (inr input)
           | _ => inr (inl "name: Required")
           end
       | _ => inr (inl "Expected object")
       end |}.

(** A schema that is not an object schema (an object schema with a
    refinement, say) and whose parse accepts nothing. *)
Definition refined_schema : Actions.InputSchema string string string string :=
  {| Actions.zodObject := None;
     Actions.safeParseAsync := fun _ => inr (inl "refinement failed") |}.

Definition signup_handler : Actions.ActionHandler string string string string unit :=
  fun _ _ => inr "welcome".

(** The action as defined while a request is served ([stored = inr tt]: an
    API context is stored) or outside of one. *)
Definition signup_action (stored : string + unit) (accept : option Actions.ActionAccept)
  (inputSchema : option (Actions.InputSchema string string string string))
  : Actions.ActionClient string string string string string
      (Actions.Failure string string + string) :=
  Actions.defineAction string numeral file_accessors string string string string unit
    stored (Actions.Failure string string + string) (fun r => r)
    accept inputSchema signup_handler.

(** A form that uploads a file under the name [__proto__], and the shape of
    a schema that has a field of that name. *)
Definition upload_form : Actions.FormData :=
  [("__proto__", Actions.EntryFile "avatar.png"); ("name", Actions.EntryString "Ada");
   ("title", Actions.EntryString "Dr")].

Definition upload_shape : list (string * Actions.ZodType) :=
  [("title", Actions.ZodString); ("__proto__", Actions.ZodOther "ZodAny");
   ("name", Actions.ZodString)].

(** The prototype of an object literal after the [__proto__] setter was
    given a value. *)
Definition prototype_after {Num : Type} (value : Actions.Value Num)
  : Actions.Prototype Num :=
  Actions.prototype Num (Actions.set_prototype Num value (Actions.empty_object Num)).

(** The validator a shape has for a key. *)
Fixpoint validator_of (key : string) (shape : list (string * Actions.ZodType))
  : option Actions.ZodType :=
  match shape with
  | [] => None
  | (k, baseValidator) :: rest =>
      if String.eqb k key then Some baseValidator else validator_of key rest
  end.

(** The prototype the object of a form ends with: what the setter makes of
    the value of the field [__proto__], when the schema has that field. *)
Definition final_prototype {Num : Type} (Number : Actions.FormDataEntryValue -> Num)
  (formData : Actions.FormData) (shape : list (string * Actions.ZodType))
  : Actions.Prototype Num :=
  match validator_of "__proto__" shape with
  | Some baseValidator =>
      prototype_after (Actions.fieldValue Num Number formData "__proto__" baseValidator)
  | None => Actions.ObjectPrototype Num
  end.

(** * Theorems *)

(** ** The [locals] setter *)

Lemma typeof_object_inv (v : JsValue) :
  typeof v = "object" <-> v = JNull \/ exists id, v = JObject id.
Proof.
  split.
  - destruct v; simpl; intros H; try discriminate; eauto.
  - intros [-> | [id ->]]; reflexivity.
Qed.

Lemma ctx_set_locals_rejected (context : APIContext) (val : JsValue) (s : Store) :
  typeof val <> "object" ->
  ctx_set_locals context val s = (Raise (AstroError LocalsNotAnObject), s).
Proof.
  intros H. unfold ctx_set_locals.
  destruct (String.eqb_spec (typeof val) "object") as [E | _]; [contradiction | reflexivity].
Qed.

Lemma ctx_set_locals_accepted (context : APIContext) (val : JsValue) (s : Store) :
  typeof val = "object" ->
  exists s',
    ctx_set_locals context val s = (Ok tt, s')
    /\ locals (this s') = val
    /\ clientLocalsSymbol (requests s' (ctx_request context)) = Some val.
Proof.
  intros H. unfold ctx_set_locals. rewrite H. simpl.
  eexists. split; [reflexivity |]. split; [reflexivity |].
  simpl. unfold upd. rewrite Nat.eqb_refl. reflexivity.
Qed.

(** C4 (as amended): assigning a value whose [typeof] is not ["object"] (a
    string, a number, ...) to the [locals] setter of an API context throws
    [LocalsNotAnObject] at once, and the store at the throw is the store
    before the assignment: [locals] of the render context keeps its value. *)
Theorem C4_locals_setter_rejects_non_object :
  forall (pipeline : Pipeline) (imports : Imports)
         (render_rec : option ComponentInstance -> M Response)
         (context : APIContext) (val : JsValue) (s : Store),
    typeof val <> "object" ->
    ctxHandler pipeline imports render_rec context (SetLocals val) s
      = (Raise (AstroError LocalsNotAnObject), s)
    /\ locals (this (snd (ctxHandler pipeline imports render_rec context (SetLocals val) s)))
       = locals (this s).
Proof.
  intros pipeline imports render_rec context val s H. simpl.
  rewrite (ctx_set_locals_rejected context val s H). split; reflexivity.
Qed.

Lemma C4_witness :
  typeof (JString "user") <> "object"
  /\ ctxHandler Site.plain Site.imports (fun _ => ret loopDetected) Site_ctx
       (SetLocals (JString "user")) Site_start
     = (Raise (AstroError LocalsNotAnObject), Site_start)
  /\ typeof (JNumber 42) <> "object"
  /\ ctxHandler Site.plain Site.imports (fun _ => ret loopDetected) Site_ctx
       (SetLocals (JNumber 42)) Site_start
     = (Raise (AstroError LocalsNotAnObject), Site_start).
Proof.
  split; [discriminate |]. split.
  - apply (C4_locals_setter_rejects_non_object Site.plain Site.imports
             (fun _ => ret loopDetected) Site_ctx (JString "user") Site_start).
    discriminate.
  - split; [discriminate |].
    apply (C4_locals_setter_rejects_non_object Site.plain Site.imports
             (fun _ => ret loopDetected) Site_ctx (JNumber 42) Site_start).
    discriminate.
Defined.

(** C4 as stated fails: [null] is a value that is not an object, and
    assigning it to the [locals] setter does not throw; [locals] of the
    render context, an object before, is [null] afterwards, and so is the
    locals property of the request. *)
Lemma C4_counterexample :
  let run := ctxHandler Site.plain Site.imports (fun _ => ret loopDetected) Site_ctx
               (SetLocals JNull) Site_start in
  (forall id, JNull <> JObject id)
  /\ fst run = Ok tt
  /\ fst run <> Raise (AstroError LocalsNotAnObject)
  /\ locals (this Site_start) = JObject 0
  /\ locals (this (snd run)) = JNull
  /\ locals (this (snd run)) <> locals (this Site_start)
  /\ clientLocalsSymbol (requests (snd run) 0%nat) = Some JNull.
Proof.
  vm_compute. repeat split; discriminate.
Qed.

(** C10: assigning [null] to the [locals] setter does not throw: [typeof null]
    is ["object"], so the assignment goes through and [locals] of the render
    context is [null] afterwards.  The setter throws exactly for the values
    whose [typeof] is not ["object"]: [undefined], booleans, numbers, bigints,
    strings, symbols and functions. *)
Theorem C10_locals_setter_accepts_null :
  forall (pipeline : Pipeline) (imports : Imports)
         (render_rec : option ComponentInstance -> M Response)
         (context : APIContext) (s : Store),
    (exists s',
        ctxHandler pipeline imports render_rec context (SetLocals JNull) s = (Ok tt, s')
        /\ locals (this s') = JNull)
    /\ (forall val,
          (exists s', ctxHandler pipeline imports render_rec context (SetLocals val) s
                      = (Raise (AstroError LocalsNotAnObject), s'))
          <-> typeof val <> "object")
    /\ (forall val,
          typeof val <> "object"
          <-> match val with
              | JNull | JObject _ => False
              | _ => True
              end).
Proof.
  intros pipeline imports render_rec context s. simpl. split; [| split].
  - destruct (ctx_set_locals_accepted context JNull s eq_refl) as (s' & E & L & _).
    exists s'. split; assumption.
  - intros val. split.
    + intros [s' E] T.
      destruct (ctx_set_locals_accepted context val s T) as (s'' & E' & _).
      rewrite E' in E. discriminate.
    + intros T. exists s. apply ctx_set_locals_rejected. exact T.
  - intros val. destruct val; simpl; split; intros H; try exact I; try discriminate;
      try (exfalso; apply H; reflexivity); try contradiction.
Qed.

(** ** Client address *)

(** C8 (as amended): on a server-like pipeline, for a request without the
    adapter's client-address symbol, [clientAddress()] throws
    [PrerenderClientAddressNotAvailable] when the request body is [null],
    whether or not an adapter name is configured; when the body is not [null]
    it throws [ClientAddressNotAvailable] naming the adapter if a (non-empty)
    adapter name is configured, and [StaticClientAddressNotAvailable]
    otherwise.  The store is left as it was. *)
Theorem C8_clientAddress_unavailable :
  forall (pipeline : Pipeline) (s : Store),
    serverLike pipeline = true ->
    clientAddressSymbol (requests s (request (this s))) = None ->
    clientAddress pipeline s =
      (Raise (AstroError
                match body (requests s (request (this s))), adapterName pipeline with
                | None, _ => PrerenderClientAddressNotAvailable
                | Some _, Some name =>
                    if String.eqb name "" then StaticClientAddressNotAvailable
                    else ClientAddressNotAvailable name
                | Some _, None => StaticClientAddressNotAvailable
                end), s).
Proof.
  intros pipeline s Hserver Hsym. unfold clientAddress.
  rewrite Hsym, Hserver.
  destruct (body (requests s (request (this s)))); [| reflexivity].
  destruct (adapterName pipeline) as [name |]; simpl; [| reflexivity].
  destruct (String.eqb name ""); reflexivity.
Qed.

Lemma C8_witness :
  serverLike (Site.pipeline true (Some "node") None) = true
  /\ clientAddressSymbol (requests Site_start (request (this Site_start))) = None
  /\ clientAddress (Site.pipeline true (Some "node") None) Site_start
     = (Raise (AstroError PrerenderClientAddressNotAvailable), Site_start).
Proof.
  split; [reflexivity |]. split; [reflexivity |].
  apply (C8_clientAddress_unavailable (Site.pipeline true (Some "node") None) Site_start);
    reflexivity.
Defined.

(** C8 as stated fails: with a [null] body the error is the prerender one,
    not the one that names the site as static (no adapter name), and not the
    one that names the adapter (adapter name present). *)
Lemma C8_counterexample :
  let no_adapter := Site.pipeline true None None in
  let with_adapter := Site.pipeline true (Some "node") None in
  let req := requests Site_start (request (this Site_start)) in
  serverLike no_adapter = true /\ serverLike with_adapter = true
  /\ clientAddressSymbol req = None /\ body req = None
  /\ adapterName no_adapter = None
  /\ fst (clientAddress no_adapter Site_start)
     = Raise (AstroError PrerenderClientAddressNotAvailable)
  /\ fst (clientAddress no_adapter Site_start)
     <> Raise (AstroError StaticClientAddressNotAvailable)
  /\ adapterName with_adapter = Some "node"
  /\ fst (clientAddress with_adapter Site_start)
     = Raise (AstroError PrerenderClientAddressNotAvailable)
  /\ fst (clientAddress with_adapter Site_start)
     <> Raise (AstroError (ClientAddressNotAvailable "node")).
Proof.
  simpl. repeat split; discriminate.
Qed.

(** ** Rewrites *)





(** ** Page dispatch *)

(** C5: in a page dispatch the result is created with [cancelled = false];
    when the template renderer then throws, the dispatch throws the same
    exception, and in the store at that throw the result has
    [cancelled = true]. *)
Theorem C5_page_throw_marks_cancelled :
  forall (pipeline : Pipeline) (imports : Imports)
         (render_rec : option ComponentInstance -> M Response)
         (cell cookies0 : nat) (props : Props) (ctx : APIContext)
         (s s1 s2 : Store) (m : ComponentInstance) (result : nat) (e : Exn),
    type (routeData (this s)) = page ->
    cells s cell = Some m ->
    createResult pipeline imports (Some m) s = (Ok result, s1) ->
    renderPage pipeline imports render_rec result m props s1 = (Raise e, s2) ->
    cancelled (results s1 result) = false
    /\ exists s3,
         lastNext_dispatch pipeline imports render_rec cell cookies0 props ctx s
           = (Raise e, s3)
         /\ cancelled (results s3 result) = true.
Proof.
  intros pipeline imports render_rec cell cookies0 props ctx s s1 s2 m result e
         Hpage Hcell Hcreate Hrender.
  split.
  - revert Hcreate. unfold createResult, bind, gets, lift.
    destruct (headElements pipeline (routeData (this s))) as [e1 | head]; simpl;
      [discriminate |].
    destruct (componentMetadata pipeline (routeData (this s))) as [e2 | []]; simpl;
      [discriminate |].
    intros H. injection H as <- <-. simpl. unfold upd. rewrite Nat.eqb_refl. reflexivity.
  - unfold lastNext_dispatch.
    unfold bind at 1. unfold gets at 1.
    unfold bind at 1. unfold gets at 1. rewrite Hcell, Hpage.
    unfold bind at 1. rewrite Hcreate.
    unfold bind at 1. unfold try_catch. rewrite Hrender.
    unfold bind, modify, throw. simpl.
    eexists. split; [reflexivity |]. simpl. unfold upd. rewrite Nat.eqb_refl. reflexivity.
Qed.

Lemma C5_witness :
  let s := snd (alloc_cell (Some Site_throwingPage) Site_start) in
  let s1 := snd (createResult Site.plain Site.imports (Some Site_throwingPage) s) in
  let s2 := snd (renderPage Site.plain Site.imports (fun _ => ret loopDetected)
                   0 Site_throwingPage [] s1) in
  type (routeData (this s)) = page
  /\ cells s 0%nat = Some Site_throwingPage
  /\ createResult Site.plain Site.imports (Some Site_throwingPage) s = (Ok 0%nat, s1)
  /\ renderPage Site.plain Site.imports (fun _ => ret loopDetected)
       0 Site_throwingPage [] s1 = (Raise (OtherError "boom"), s2)
  /\ cancelled (results s1 0%nat) = false
  /\ exists s3,
       lastNext_dispatch Site.plain Site.imports (fun _ => ret loopDetected)
         0 0 [] Site_ctx s = (Raise (OtherError "boom"), s3)
       /\ cancelled (results s3 0%nat) = true.
Proof.
  intros s s1 s2.
  split; [reflexivity |]. split; [reflexivity |].
  split; [reflexivity |]. split; [reflexivity |].
  apply (C5_page_throw_marks_cancelled Site.plain Site.imports
           (fun _ => ret loopDetected) 0 0 [] Site_ctx s s1 s2 Site_throwingPage
           0 (OtherError "boom")); reflexivity.
Defined.

(** The same through [render]: middleware that goes on to the page. *)
Example page_throw_through_render :
  let run := render Site.plain Site.imports (fun _ => await (Next None) Return) 1
               (Some Site_throwingPage) Site_start in
  fst run = Raise (OtherError "boom")
  /\ cancelled (results (snd run) 0%nat) = true
  /\ next_result (snd run) = 1%nat.
Proof. vm_compute. repeat split. Qed.

(** ** What every step keeps *)

Lemma evolves_refl (s : Store) : evolves s s.
Proof.
  constructor; auto; try lia.
  exists []. split; [reflexivity | constructor].
Qed.

Lemma evolves_trans (s1 s2 s3 : Store) :
  evolves s1 s2 -> evolves s2 s3 -> evolves s1 s3.
Proof.
  intros [O1 [n1 [C1 F1]] K1 R1 L1 P1 Q1] [O2 [n2 [C2 F2]] K2 R2 L2 P2 Q2].
  constructor; auto; try congruence; try lia.
  exists (n2 ++ n1)%list. split.
  - rewrite C2, C1. apply List.app_assoc.
  - apply Forall_app. split; [| exact F1]. rewrite <- O1. exact F2.
Qed.

(** A step that changes neither [this] nor the calls. *)
Lemma evolves_heap (s s' : Store) :
  this s' = this s -> calls s' = calls s -> evolves s s'.
Proof.
  intros Ht Hc. constructor; rewrite ?Ht; auto; try lia.
  exists []. split; [exact Hc | constructor].
Qed.

(** A step that records an anchored call. *)
Lemma evolves_record_call (c : Call) (s : Store) :
  anchored (originalRoute (this s)) c -> evolves s (record_call c s).
Proof.
  intros H. constructor; simpl; auto; try lia.
  exists [c]. split; [reflexivity | constructor; [exact H | constructor]].
Qed.

(** An assignment to a field of [this] other than the guarded ones. *)
Lemma evolves_assign (f : RenderContext -> RenderContext) (s : Store) :
  originalRoute (f (this s)) = originalRoute (this s) ->
  counter (this s) <= counter (f (this s)) ->
  (isRewriting (this s) = true -> isRewriting (f (this s)) = true) ->
  (forall v, priv_currentLocale (this s) = Some v ->
             priv_currentLocale (f (this s)) = Some v) ->
  (forall v, priv_preferredLocale (this s) = Some v ->
             priv_preferredLocale (f (this s)) = Some v) ->
  (forall v, priv_preferredLocaleList (this s) = Some v ->
             priv_preferredLocaleList (f (this s)) = Some v) ->
  evolves s (with_this f s).
Proof.
  intros. constructor; simpl; auto.
  exists []. split; [reflexivity | constructor].
Qed.

Lemma preserves_ret {A : Type} (a : A) : preserves (ret a).
Proof. intros s. apply evolves_refl. Qed.

Lemma preserves_throw {A : Type} (e : Exn) : preserves (@throw A e).
Proof. intros s. apply evolves_refl. Qed.

Lemma preserves_gets {A : Type} (f : Store -> A) : preserves (gets f).
Proof. intros s. apply evolves_refl. Qed.

Lemma preserves_lift {A : Type} (r : Exn + A) : preserves (lift r).
Proof. destruct r; [apply preserves_throw | apply preserves_ret]. Qed.

Lemma preserves_modify (f : Store -> Store) :
  (forall s, evolves s (f s)) -> preserves (modify f).
Proof. intros H s. apply H. Qed.

Lemma preserves_bind {A B : Type} (m : M A) (k : A -> M B) :
  preserves m -> (forall a, preserves (k a)) -> preserves (bind m k).
Proof.
  intros Hm Hk s. unfold bind. specialize (Hm s).
  destruct (m s) as [[a | e |] s']; simpl in *; [| exact Hm | exact Hm].
  eapply evolves_trans; [exact Hm | apply Hk].
Qed.

Lemma preserves_try_catch {A : Type} (m : M A) (h : Exn -> M A) :
  preserves m -> (forall e, preserves (h e)) -> preserves (try_catch m h).
Proof.
  intros Hm Hh s. unfold try_catch. specialize (Hm s).
  destruct (m s) as [[a | e |] s']; simpl in *; [exact Hm | | exact Hm].
  eapply evolves_trans; [exact Hm | apply Hh].
Qed.

Lemma preserves_runProg {O : Type} {ar : O -> Type} {R : Type}
  (h : forall o : O, M (ar o)) (p : Prog O ar R) :
  (forall o, preserves (h o)) -> preserves (runProg h p).
Proof.
  intros Hh. induction p as [r | e | o k IH]; intros s; simpl.
  - apply evolves_refl.
  - apply evolves_refl.
  - specialize (Hh o s). destruct (h o s) as [[a | e |] s']; simpl in *.
    + eapply evolves_trans; [exact Hh | apply IH].
    + eapply evolves_trans; [exact Hh | apply IH].
    + exact Hh.
Qed.

Ltac evolves_chain :=
  lazymatch goal with
  | |- evolves ?s ?s => apply evolves_refl
  | |- evolves ?s (with_this ?f ?s1) =>
      apply (evolves_trans s s1);
      [evolves_chain | apply evolves_assign; simpl; auto; try lia]
  | |- evolves ?s (record_call ?c ?s1) =>
      apply (evolves_trans s s1);
      [evolves_chain | apply evolves_record_call; simpl; auto]
  end.

Ltac preserves_step :=
  match goal with
  | |- preserves (ret _) => apply preserves_ret
  | |- preserves (throw _) => apply preserves_throw
  | |- preserves (gets _) => apply preserves_gets
  | |- preserves (lift _) => apply preserves_lift
  | |- preserves (bind _ _) => apply preserves_bind; [| intros ?]
  | |- preserves (try_catch _ _) => apply preserves_try_catch; [| intros ?]
  | |- preserves (runProg _ _) => apply preserves_runProg; intros ?
  | |- preserves (assign _) =>
      apply preserves_modify; intros ?; apply evolves_assign; simpl; auto; try lia
  | |- preserves (modify (record_call _)) =>
      apply preserves_modify; intros ?; apply evolves_record_call; simpl; auto
  | |- preserves (modify _) =>
      apply preserves_modify; intros ?; apply evolves_heap; reflexivity
  | |- preserves (match ?x with _ => _ end) => destruct x
  end.

Ltac preserves_auto := repeat preserves_step.

Section Preservation.

Variable pipeline : Pipeline.
Variable imports : Imports.
Variable middleware : MiddlewareHandler.

Lemma preserves_clientAddress : preserves (clientAddress pipeline).
Proof.
  intros s. unfold clientAddress.
  destruct (clientAddressSymbol _); [apply evolves_refl |].
  destruct (serverLike pipeline); [| apply evolves_refl].
  destruct (body _); [| apply evolves_refl].
  destruct (truthy_string _); apply evolves_refl.
Qed.

Lemma preserves_call_computeCurrentLocale (path : string) (locs : list string) :
  preserves (call_computeCurrentLocale imports path locs).
Proof. unfold call_computeCurrentLocale. preserves_auto. Qed.

Lemma preserves_computeCurrentLocale : preserves (computeCurrentLocale pipeline imports).
Proof.
  intros s. unfold computeCurrentLocale, call_computeCurrentLocale.
  unfold bind, gets, modify, assign, ret. simpl.
  destruct (i18n pipeline) as [cfg |]; [| apply evolves_refl].
  destruct (priv_currentLocale (this s)) as [v |] eqn:E; [apply evolves_refl |].
  destruct (i18n_computeCurrentLocale imports (route (routeData (this s))) (locales cfg));
    simpl.
  - evolves_chain. rewrite E. discriminate.
  - destruct (i18n_computeCurrentLocale imports (url_pathname (url (this s))) (locales cfg));
      simpl; evolves_chain; rewrite E; discriminate.
Qed.

Lemma preserves_computePreferredLocale :
  preserves (computePreferredLocale pipeline imports).
Proof.
  intros s. unfold computePreferredLocale.
  unfold bind, gets, modify, assign, ret. simpl.
  destruct (i18n pipeline) as [cfg |]; [| apply evolves_refl].
  destruct (priv_preferredLocale (this s)) as [v |] eqn:E; [apply evolves_refl |]. simpl.
  evolves_chain. rewrite E. discriminate.
Qed.

Lemma preserves_computePreferredLocaleList :
  preserves (computePreferredLocaleList pipeline imports).
Proof.
  intros s. unfold computePreferredLocaleList.
  unfold bind, gets, modify, assign, ret. simpl.
  destruct (i18n pipeline) as [cfg |]; [| apply evolves_refl].
  destruct (priv_preferredLocaleList (this s)) as [v |] eqn:E; [apply evolves_refl |].
  simpl.
  evolves_chain. rewrite E. discriminate.
Qed.

Lemma preserves_copyRequest (newUrl : URL) (oldRequest : nat) :
  preserves (copyRequest newUrl oldRequest).
Proof.
  intros s. unfold copyRequest.
  destruct (bodyUsed _); [apply evolves_refl |]. simpl.
  apply evolves_heap; reflexivity.
Qed.

Lemma preserves_new_AstroCookies (req : nat) : preserves (new_AstroCookies req).
Proof. intros s. apply evolves_heap; reflexivity. Qed.

Lemma preserves_new_Request (init : RequestInit) : preserves (new_Request init).
Proof.
  intros s. unfold new_Request.
  destruct (init_body init); apply evolves_heap; reflexivity.
Qed.

Lemma preserves_read_body (req : nat) : preserves (read_body req).
Proof.
  intros s. unfold read_body.
  destruct (body _); [| apply evolves_refl].
  destruct (disturbed _); [apply evolves_refl |].
  apply evolves_heap; reflexivity.
Qed.

Lemma preserves_ctx_set_locals (context : APIContext) (val : JsValue) :
  preserves (ctx_set_locals context val).
Proof. unfold ctx_set_locals. preserves_auto. Qed.

Lemma preserves_createAPIContext (props : Props) :
  preserves (createAPIContext pipeline props).
Proof. unfold createAPIContext, createActionAPIContext. preserves_auto. Qed.

Lemma preserves_createResult (mdl : option ComponentInstance) :
  preserves (createResult pipeline imports mdl).
Proof.
  unfold createResult. preserves_auto.
  intros s. apply evolves_heap; reflexivity.
Qed.

Lemma preserves_createAstro (result : nat) : preserves (createAstro pipeline result).
Proof. unfold createAstro, createAstroPagePartial. preserves_auto. Qed.

Lemma preserves_astro_redirect (path : string) (status : option Z) :
  preserves (astro_redirect path status).
Proof. unfold astro_redirect. preserves_auto. Qed.

Lemma preserves_call_tryRewrite (payload : RewritePayload) :
  preserves (call_tryRewrite pipeline payload).
Proof.
  intros s. unfold call_tryRewrite, pipeline_tryRewrite, bind, gets, modify, lift. simpl.
  destruct (tryRewrite pipeline _ _ _ _); simpl; evolves_chain.
Qed.

Lemma preserves_executeRewrite_reset (reroutePayload : RewritePayload) :
  preserves (executeRewrite_reset pipeline imports reroutePayload).
Proof.
  unfold executeRewrite_reset.
  apply preserves_bind; [apply preserves_call_tryRewrite | intros [[routeData component] newURL]].
  preserves_auto;
    first [apply preserves_copyRequest | apply preserves_new_AstroCookies].
Qed.

Lemma preserves_lastNext_rewrite (cell : nat) (payload : option RewritePayload) :
  preserves (lastNext_rewrite pipeline cell payload).
Proof.
  unfold lastNext_rewrite.
  destruct payload as [p |]; [| apply preserves_ret].
  destruct (payload_truthy (Some p)); [| apply preserves_ret].
  apply preserves_bind; [apply preserves_call_tryRewrite | intros [[routeData component] newURL]].
  preserves_auto.
Qed.

Section Body.

Variable render_rec : option ComponentInstance -> M Response.
Hypothesis preserves_render_rec : forall c, preserves (render_rec c).

Lemma preserves_executeRewrite (reroutePayload : RewritePayload) :
  preserves (executeRewrite pipeline imports render_rec reroutePayload).
Proof.
  unfold executeRewrite.
  apply preserves_bind; [apply preserves_executeRewrite_reset | intros c].
  apply preserves_render_rec.
Qed.

Lemma preserves_ctxHandler (context : APIContext) (o : CtxOp) :
  preserves (ctxHandler pipeline imports render_rec context o).
Proof.
  destruct o; simpl.
  - preserves_auto.
  - apply preserves_clientAddress.
  - apply preserves_computeCurrentLocale.
  - apply preserves_gets.
  - apply preserves_ctx_set_locals.
  - apply preserves_computePreferredLocale.
  - apply preserves_computePreferredLocaleList.
  - apply preserves_ret.
  - apply preserves_executeRewrite.
  - apply preserves_read_body.
  - apply preserves_new_Request.
Qed.

Lemma preserves_astroHandler (Astro : AstroPagePartial) (o : AstroOp) :
  preserves (astroHandler pipeline imports render_rec Astro o).
Proof.
  destruct o; simpl.
  - preserves_auto.
  - apply preserves_clientAddress.
  - apply preserves_computeCurrentLocale.
  - apply preserves_computePreferredLocale.
  - apply preserves_computePreferredLocaleList.
  - apply preserves_astro_redirect.
  - apply preserves_executeRewrite.
  - apply preserves_read_body.
  - apply preserves_new_Request.
Qed.

Lemma preserves_renderEndpoint (mdl : option ComponentInstance) (ctx : APIContext) :
  preserves (renderEndpoint pipeline imports render_rec mdl ctx).
Proof.
  unfold renderEndpoint. preserves_auto. apply preserves_ctxHandler.
Qed.

Lemma preserves_renderPage (result : nat) (mdl : ComponentInstance) (props : Props) :
  preserves (renderPage pipeline imports render_rec result mdl props).
Proof.
  unfold renderPage.
  apply preserves_bind; [preserves_auto | intros _].
  apply preserves_bind; [apply preserves_createAstro | intros Astro].
  apply preserves_runProg. apply preserves_astroHandler.
Qed.

Lemma preserves_lastNext_dispatch (cell cookies0 : nat) (props : Props)
  (ctx : APIContext) :
  preserves (lastNext_dispatch pipeline imports render_rec cell cookies0 props ctx).
Proof.
  unfold lastNext_dispatch.
  apply preserves_bind; [apply preserves_gets | intros c].
  apply preserves_bind; [apply preserves_gets | intros componentInstance].
  destruct (type (routeData c)).
  - apply preserves_bind; [apply preserves_createResult | intros result].
    apply preserves_bind.
    + apply preserves_try_catch.
      * destruct componentInstance; [apply preserves_renderPage | apply preserves_throw].
      * intros e. preserves_auto.
    + intros response. preserves_auto.
  - apply preserves_bind; [apply preserves_renderEndpoint | intros response].
    preserves_auto.
  - preserves_auto.
  - apply preserves_ret.
Qed.

Lemma preserves_lastNext (cell cookies0 : nat) (props : Props) (ctx : APIContext)
  (payload : option RewritePayload) :
  preserves (lastNext pipeline imports render_rec cell cookies0 props ctx payload).
Proof.
  unfold lastNext.
  apply preserves_bind; [apply preserves_lastNext_rewrite | intros _].
  apply preserves_lastNext_dispatch.
Qed.

Lemma preserves_callMiddleware (apiContext : APIContext)
  (responseFunction : APIContext -> option RewritePayload -> M Response) :
  (forall ctx payload, preserves (responseFunction ctx payload)) ->
  preserves (callMiddleware pipeline imports render_rec middleware apiContext
               responseFunction).
Proof.
  intros H. unfold callMiddleware.
  apply preserves_bind; [preserves_auto | intros _].
  apply preserves_runProg. intros [o | payload]; simpl.
  - apply preserves_ctxHandler.
  - apply H.
Qed.

Lemma preserves_render_body (componentInstance : option ComponentInstance) :
  preserves (render_body pipeline imports middleware render_rec componentInstance).
Proof.
  unfold render_body.
  apply preserves_bind; [apply preserves_gets | intros c].
  apply preserves_bind.
  { unfold render_props. preserves_auto. }
  intros props.
  apply preserves_bind; [apply preserves_createAPIContext | intros apiContext].
  apply preserves_bind; [preserves_auto | intros _].
  apply preserves_bind; [apply preserves_gets | intros now].
  destruct (counter now =? 4); [apply preserves_ret |].
  unfold render_dispatch.
  apply preserves_bind.
  { intros s. apply evolves_heap; reflexivity. }
  intros cell.
  apply preserves_bind.
  { apply preserves_callMiddleware. intros. apply preserves_lastNext. }
  intros response. preserves_auto.
Qed.

End Body.

Lemma preserves_render (fuel : nat) (componentInstance : option ComponentInstance) :
  preserves (render pipeline imports middleware fuel componentInstance).
Proof.
  revert componentInstance. induction fuel as [| fuel IH]; intros componentInstance.
  - intros s. apply evolves_refl.
  - simpl. apply preserves_render_body. exact IH.
Qed.

End Preservation.

(** ** The anchor of rewrites *)



(** X4: across a run of [render] the counter does not go down and
    [isRewriting], once set, stays set. *)
Corollary render_counter_isRewriting (pipeline : Pipeline) (imports : Imports)
  (middleware : MiddlewareHandler) (fuel : nat)
  (componentInstance : option ComponentInstance) (s : Store) :
  let s' := snd (render pipeline imports middleware fuel componentInstance s) in
  counter (this s) <= counter (this s')
  /\ (isRewriting (this s) = true -> isRewriting (this s') = true).
Proof.
  destruct (preserves_render pipeline imports middleware fuel componentInstance s)
    as [_ _ Hc Hr _ _ _].
  split; assumption.
Qed.

(** ** Locale caches *)

Lemma computeCurrentLocale_cached (pipeline : Pipeline) (imports : Imports)
  (s : Store) (v : string) :
  i18n pipeline <> None ->
  priv_currentLocale (this s) = Some v ->
  computeCurrentLocale pipeline imports s = (Ok (Some v), s).
Proof.
  intros Hi Hc. unfold computeCurrentLocale, bind, gets. simpl.
  destruct (i18n pipeline); [| contradiction]. rewrite Hc. reflexivity.
Qed.

Lemma computeCurrentLocale_caches (pipeline : Pipeline) (imports : Imports)
  (s s' : Store) (v : string) :
  computeCurrentLocale pipeline imports s = (Ok (Some v), s') ->
  i18n pipeline <> None /\ priv_currentLocale (this s') = Some v.
Proof.
  unfold computeCurrentLocale, call_computeCurrentLocale, bind, gets, modify, assign, ret.
  simpl. destruct (i18n pipeline) as [cfg |]; [| discriminate].
  destruct (priv_currentLocale (this s)) as [w |] eqn:E.
  - intros H. injection H as <- <-. split; [discriminate | exact E].
  - destruct (i18n_computeCurrentLocale imports (route (routeData (this s))) (locales cfg));
      simpl.
    + intros H. injection H as <- <-. split; [discriminate | reflexivity].
    + destruct (i18n_computeCurrentLocale imports (url_pathname (url (this s)))
                  (locales cfg)); simpl;
        intros H; injection H as H <-; split; try discriminate; simpl; congruence.
Qed.

Lemma computePreferredLocale_cached (pipeline : Pipeline) (imports : Imports)
  (s : Store) (v : string) :
  i18n pipeline <> None ->
  priv_preferredLocale (this s) = Some v ->
  computePreferredLocale pipeline imports s = (Ok (Some v), s).
Proof.
  intros Hi Hc. unfold computePreferredLocale, bind, gets. simpl.
  destruct (i18n pipeline); [| contradiction]. rewrite Hc. reflexivity.
Qed.

Lemma computePreferredLocale_caches (pipeline : Pipeline) (imports : Imports)
  (s s' : Store) (v : string) :
  computePreferredLocale pipeline imports s = (Ok (Some v), s') ->
  i18n pipeline <> None /\ priv_preferredLocale (this s') = Some v.
Proof.
  unfold computePreferredLocale, bind, gets, modify, assign, ret.
  simpl. destruct (i18n pipeline) as [cfg |]; [| discriminate].
  destruct (priv_preferredLocale (this s)) as [w |] eqn:E.
  - intros H. injection H as <- <-. split; [discriminate | exact E].
  - simpl. intros H. injection H as H <-. split; [discriminate | exact H].
Qed.

Lemma computePreferredLocaleList_cached (pipeline : Pipeline) (imports : Imports)
  (s : Store) (v : list string) :
  i18n pipeline <> None ->
  priv_preferredLocaleList (this s) = Some v ->
  computePreferredLocaleList pipeline imports s = (Ok (Some v), s).
Proof.
  intros Hi Hc. unfold computePreferredLocaleList, bind, gets. simpl.
  destruct (i18n pipeline); [| contradiction]. rewrite Hc. reflexivity.
Qed.

Lemma computePreferredLocaleList_caches (pipeline : Pipeline) (imports : Imports)
  (s s' : Store) (v : list string) :
  computePreferredLocaleList pipeline imports s = (Ok (Some v), s') ->
  i18n pipeline <> None /\ priv_preferredLocaleList (this s') = Some v.
Proof.
  unfold computePreferredLocaleList, bind, gets, modify, assign, ret.
  simpl. destruct (i18n pipeline) as [cfg |]; [| discriminate].
  destruct (priv_preferredLocaleList (this s)) as [w |] eqn:E.
  - intros H. injection H as <- <-. split; [discriminate | exact E].
  - simpl. intros H. injection H as H <-. split; [discriminate | exact H].
Qed.

(** One computation of the current locale asks the resolver once or twice:
    for the route pattern, and for the pathname if that gave nothing. *)
Lemma computeCurrentLocale_resolver_calls (pipeline : Pipeline) (imports : Imports)
  (s : Store) :
  let s' := snd (computeCurrentLocale pipeline imports s) in
  (count_calls is_currentLocale_call (calls s')
   <= count_calls is_currentLocale_call (calls s) + 2)%nat
  /\ (forall cfg v,
        i18n pipeline = Some cfg ->
        priv_currentLocale (this s) = None ->
        i18n_computeCurrentLocale imports (route (routeData (this s))) (locales cfg)
          = Some v ->
        count_calls is_currentLocale_call (calls s')
        = S (count_calls is_currentLocale_call (calls s))).
Proof.
  unfold computeCurrentLocale, call_computeCurrentLocale, bind, gets, modify, assign, ret.
  simpl. split.
  - destruct (i18n pipeline) as [cfg |]; simpl; [| lia].
    destruct (priv_currentLocale (this s)); simpl; [lia |].
    destruct (i18n_computeCurrentLocale imports (route (routeData (this s))) (locales cfg));
      simpl; [unfold count_calls; simpl; lia |].
    destruct (i18n_computeCurrentLocale imports (url_pathname (url (this s)))
                (locales cfg)); simpl; unfold count_calls; simpl; lia.
  - intros cfg v Hi Hc Hr. rewrite Hi, Hc. simpl. rewrite Hr. reflexivity.
Qed.

(** C9 (as amended): once an access to the current locale, the preferred
    locale or the preferred locale list has returned a value (not
    [undefined]), every later access on the same context - after any steps of
    the class, rewrites included - returns that value and leaves the store,
    and with it the record of resolver calls, as it is.  Runs of [render] and
    rewrites through the API context are such steps.  One computation of the
    current locale asks the resolver for the route pattern and, only when that
    gives nothing, once more for the URL pathname. *)
Theorem C9_locale_caches :
  forall (pipeline : Pipeline) (imports : Imports) (middleware : MiddlewareHandler),
    (forall s s1 s2 v,
        computeCurrentLocale pipeline imports s = (Ok (Some v), s1) ->
        evolves s1 s2 ->
        computeCurrentLocale pipeline imports s2 = (Ok (Some v), s2))
    /\ (forall s s1 s2 v,
          computePreferredLocale pipeline imports s = (Ok (Some v), s1) ->
          evolves s1 s2 ->
          computePreferredLocale pipeline imports s2 = (Ok (Some v), s2))
    /\ (forall s s1 s2 v,
          computePreferredLocaleList pipeline imports s = (Ok (Some v), s1) ->
          evolves s1 s2 ->
          computePreferredLocaleList pipeline imports s2 = (Ok (Some v), s2))
    /\ (forall fuel componentInstance s,
          evolves s (snd (render pipeline imports middleware fuel componentInstance s)))
    /\ (forall fuel reroutePayload s,
          evolves s (snd (executeRewrite pipeline imports
                            (render pipeline imports middleware fuel) reroutePayload s)))
    /\ (forall s,
          let s' := snd (computeCurrentLocale pipeline imports s) in
          (count_calls is_currentLocale_call (calls s')
           <= count_calls is_currentLocale_call (calls s) + 2)%nat
          /\ (forall cfg v,
                i18n pipeline = Some cfg ->
                priv_currentLocale (this s) = None ->
                i18n_computeCurrentLocale imports (route (routeData (this s)))
                  (locales cfg) = Some v ->
                count_calls is_currentLocale_call (calls s')
                = S (count_calls is_currentLocale_call (calls s)))).
Proof.
  intros pipeline imports middleware. repeat apply conj.
  - intros s s1 s2 v H E.
    destruct (computeCurrentLocale_caches _ _ _ _ _ H) as [Hi Hc].
    apply computeCurrentLocale_cached; [exact Hi |].
    apply (ev_currentLocale _ _ E). exact Hc.
  - intros s s1 s2 v H E.
    destruct (computePreferredLocale_caches _ _ _ _ _ H) as [Hi Hc].
    apply computePreferredLocale_cached; [exact Hi |].
    apply (ev_preferredLocale _ _ E). exact Hc.
  - intros s s1 s2 v H E.
    destruct (computePreferredLocaleList_caches _ _ _ _ _ H) as [Hi Hc].
    apply computePreferredLocaleList_cached; [exact Hi |].
    apply (ev_preferredLocaleList _ _ E). exact Hc.
  - intros fuel componentInstance s. apply preserves_render.
  - intros fuel reroutePayload s. apply preserves_executeRewrite.
    intros c. apply preserves_render.
  - intros s. apply computeCurrentLocale_resolver_calls.
Qed.

Lemma C9_witness :
  let first := computeCurrentLocale Site_localized Site.imports Site_start_en in
  let s1 := snd first in
  let s2 := snd (executeRewrite Site_localized Site.imports
                   (render Site_localized Site.imports (fun _ => await (Next None) Return) 1)
                   (PString "/fr/about") s1) in
  computeCurrentLocale Site_localized Site.imports Site_start_en = (Ok (Some "en"), s1)
  /\ evolves s1 s2
  /\ isRewriting (this s2) = true
  /\ url_pathname (url (this s2)) = "/fr/about"
  /\ computeCurrentLocale Site_localized Site.imports s2 = (Ok (Some "en"), s2).
Proof.
  intros first s1 s2.
  destruct (C9_locale_caches Site_localized Site.imports
              (fun _ => await (Next None) Return)) as (Hcur & _ & _ & _ & Hrew & _).
  assert (E : evolves s1 s2) by apply (Hrew 1%nat (PString "/fr/about") s1).
  split; [reflexivity |]. split; [exact E |].
  split; [reflexivity |]. split; [reflexivity |].
  apply (Hcur Site_start_en s1 s2 "en"); [reflexivity | exact E].
Defined.

(** C9 as stated fails: on a context that is not rewritten and whose URL does
    not change, two accesses to the current locale return the same value, but
    the resolver has been invoked twice (the route pattern names no locale,
    the pathname does); and when no locale is found, nothing is cached and
    the second access invokes the resolver again. *)
Lemma C9_counterexample :
  let first := computeCurrentLocale Site_localized Site.imports Site_start_en in
  let second := computeCurrentLocale Site_localized Site.imports (snd first) in
  let none1 := computeCurrentLocale Site_localized Site.imports Site_start in
  let none2 := computeCurrentLocale Site_localized Site.imports (snd none1) in
  (fst first = Ok (Some "en") /\ fst second = Ok (Some "en")
   /\ isRewriting (this (snd second)) = false
   /\ url (this (snd second)) = url (this Site_start_en)
   /\ count_calls is_currentLocale_call (calls Site_start_en) = 0%nat
   /\ count_calls is_currentLocale_call (calls (snd second)) = 2%nat)
  /\ (fst none1 = Ok None /\ fst none2 = Ok None
      /\ isRewriting (this (snd none2)) = false
      /\ url (this (snd none2)) = url (this Site_start)
      /\ count_calls is_currentLocale_call (calls (snd none1)) = 2%nat
      /\ count_calls is_currentLocale_call (calls (snd none2)) = 4%nat).
Proof.
  vm_compute. repeat split.
Qed.

(** ** The loop guard *)

Lemma render_props_frame (imports : Imports) (componentInstance : option ComponentInstance)
  (s : Store) :
  let r := render_props imports componentInstance s in
  this (snd r) = this s /\ requests (snd r) = requests s /\ jars (snd r) = jars s
  /\ next_request (snd r) = next_request s
  /\ (calls (snd r) = calls s \/ calls (snd r) = CallGetProps :: calls s).
Proof.
  unfold render_props, bind, gets, modify, ret, lift. simpl.
  destruct (0 <? length (props (this s)))%nat; simpl; [auto 6 |].
  destruct (getProps imports componentInstance (routeData (this s)) (pathname (this s)));
    simpl; auto 6.
Qed.

Lemma createAPIContext_total (pipeline : Pipeline) (props : Props) (s : Store) :
  exists apiContext,
    createAPIContext pipeline props s = (Ok apiContext, s)
    /\ ctx_cookies apiContext = cookies (this s)
    /\ ctx_request apiContext = request (this s)
    /\ ctx_url apiContext = url (this s).
Proof. eexists. split; [reflexivity |]. simpl. auto. Qed.


(** Any other call: the middleware chain starts with the counter incremented. *)
Lemma render_incr (pipeline : Pipeline) (imports : Imports)
  (middleware : MiddlewareHandler) (fuel : nat)
  (componentInstance : option ComponentInstance) (s s0 : Store) (props : Props) :
  render_props imports componentInstance s = (Ok props, s0) ->
  counter (this s) <> 3 ->
  exists apiContext,
    createAPIContext pipeline props s0 = (Ok apiContext, s0)
    /\ render pipeline imports middleware (S fuel) componentInstance s
       = render_dispatch pipeline imports middleware
           (render pipeline imports middleware fuel)
           componentInstance (cookies (this s)) props apiContext
           (with_this (fun c => set_counter (counter c + 1) c) s0).
Proof.
  intros Hprops Hc.
  pose proof (render_props_frame imports componentInstance s) as F.
  rewrite Hprops in F. simpl in F. destruct F as (Ht & _).
  eexists. split; [reflexivity |].
  simpl. unfold render_body.
  unfold bind at 1. unfold gets at 1.
  unfold bind at 1. rewrite Hprops.
  unfold createAPIContext, createActionAPIContext.
  unfold bind at 1. unfold bind at 1. unfold gets at 1. unfold ret at 1.
  unfold bind at 1. unfold gets at 1.
  unfold bind at 1. unfold ret at 1.
  unfold bind at 1. unfold assign at 1. unfold modify at 1.
  unfold bind at 1. unfold gets at 1.
  cbn [counter this with_this set_counter]. rewrite Ht.
  destruct (Z.eqb_spec (counter (this s) + 1) 4) as [E | _]; [lia |].
  reflexivity.
Qed.

Lemma bind_Ok {A B : Type} (m : M A) (k : A -> M B) (s s' : Store) (a : A) :
  m s = (Ok a, s') -> bind m k s = k a s'.
Proof. intros H. unfold bind. rewrite H. reflexivity. Qed.




Section Chain.

Variable pipeline : Pipeline.
Variable imports : Imports.
Variable middleware : MiddlewareHandler.
Variable target : APIContext -> RewritePayload.

Hypothesis middleware_rewrites :
  forall ctx, middleware ctx = await (OnCtx (CtxRewrite (target ctx))) Return.
Hypothesis target_not_Request : forall ctx, instanceof_Request (target ctx) = None.
Hypothesis resolver_resolves :
  forall heap payload req anchor,
    exists resolved, tryRewrite pipeline heap payload req anchor = inr resolved.
Hypothesis props_resolve :
  forall componentInstance routeData0 pathname0,
    exists props, getProps imports componentInstance routeData0 pathname0 = inr props.

Lemma render_props_ok (componentInstance : option ComponentInstance) (s : Store) :
  exists props s0,
    render_props imports componentInstance s = (Ok props, s0)
    /\ this s0 = this s /\ (requests s0 = requests s /\ streams s0 = streams s)
    /\ count_calls is_tryRewrite_call (calls s0)
       = count_calls is_tryRewrite_call (calls s).
Proof.
  unfold render_props, bind, gets, modify, ret, lift. simpl.
  destruct (0 <? length (props (this s)))%nat.
  - do 2 eexists. split; [reflexivity |]. auto.
  - destruct (props_resolve componentInstance (routeData (this s)) (pathname (this s)))
      as [props ->]. simpl.
    do 2 eexists. split; [reflexivity |]. auto.
Qed.

Lemma executeRewrite_reset_ok (reroutePayload : RewritePayload) (s : Store) :
  instanceof_Request reroutePayload = None ->
  bodyUsed s (requests s (request (this s))) = false ->
  exists component s2,
    executeRewrite_reset pipeline imports reroutePayload s = (Ok component, s2)
    /\ counter (this s2) = counter (this s)
    /\ bodyUsed s2 (requests s2 (request (this s2))) = false
    /\ count_calls is_tryRewrite_call (calls s2)
       = S (count_calls is_tryRewrite_call (calls s)).
Proof.
  intros Hinst Hbody.
  unfold executeRewrite_reset, call_tryRewrite, pipeline_tryRewrite, bind, gets, modify,
    assign, lift.
  simpl.
  destruct (resolver_resolves (requests s) reroutePayload (request (this s))
              (originalRoute (this s))) as [[[routeData' component] newURL] ->].
  simpl. rewrite Hinst. simpl. unfold copyRequest, bodyUsed in *. simpl.
  rewrite Hbody. simpl.
  do 2 eexists. split; [reflexivity |]. simpl.
  unfold upd. rewrite Nat.eqb_refl. simpl. auto.
Qed.


End Chain.





(** ** Cookies across a rewrite *)

Lemma outgoing_get_set (name value k : string) (l : list (string * string)) :
  outgoing_get k (outgoing_set name value l)
  = if String.eqb name k then Some value else outgoing_get k l.
Proof.
  induction l as [| [k0 v0] l IH]; simpl.
  - rewrite String.eqb_sym. destruct (String.eqb_spec k name); reflexivity.
  - destruct (String.eqb_spec k0 name) as [-> | Hne]; simpl.
    + destruct (String.eqb_spec name k); reflexivity.
    + rewrite IH. destruct (String.eqb_spec k0 k) as [-> | Hk].
      * destruct (String.eqb_spec name k); [congruence | reflexivity].
      * reflexivity.
Qed.

Lemma outgoing_set_keys (name value : string) (l : list (string * string)) :
  map fst (outgoing_set name value l)
  = if existsb (String.eqb name) (map fst l) then map fst l
    else (map fst l ++ [name])%list.
Proof.
  induction l as [| [k0 v0] l IH]; simpl; [reflexivity |].
  rewrite (String.eqb_sym name k0).
  destruct (String.eqb_spec k0 name) as [-> | Hne]; simpl; [reflexivity |].
  rewrite IH. destruct (existsb _ _); reflexivity.
Qed.

Lemma outgoing_set_NoDup (name value : string) (l : list (string * string)) :
  List.NoDup (map fst l) -> List.NoDup (map fst (outgoing_set name value l)).
Proof.
  intros H. rewrite outgoing_set_keys.
  destruct (existsb (String.eqb name) (map fst l)) eqn:E; [exact H |].
  apply List.NoDup_app; [exact H | constructor; [intros [] | constructor] |].
  intros x Hx [<- | []].
  assert (existsb (String.eqb name) (map fst l) = true).
  { apply List.existsb_exists. exists name. split; [exact Hx | apply String.eqb_refl]. }
  congruence.
Qed.

Lemma outgoing_get_None (k : string) (l : list (string * string)) :
  ~ In k (map fst l) -> outgoing_get k l = None.
Proof.
  induction l as [| [k0 v0] l IH]; simpl; intros H; [reflexivity |].
  destruct (String.eqb_spec k0 k) as [-> | _]; [exfalso; auto |].
  apply IH. auto.
Qed.

(** Merging a jar into another: per name the merged-in value wins, a name
    only the receiving jar has keeps its value, and no name appears twice. *)
Lemma cookies_merge_get (into from : AstroCookies) (k : string) :
  List.NoDup (map fst (outgoing from)) ->
  outgoing_get k (outgoing (cookies_merge into from))
  = match outgoing_get k (outgoing from) with
    | Some v => Some v
    | None => outgoing_get k (outgoing into)
    end.
Proof.
  unfold cookies_merge. simpl.
  generalize (outgoing into) as acc.
  induction (outgoing from) as [| [k0 v0] l IH]; intros acc Hnd; simpl; [reflexivity |].
  inversion Hnd as [| k1 l1 Hnotin Hnd']; subst.
  rewrite (IH _ Hnd'), outgoing_get_set.
  destruct (String.eqb_spec k0 k) as [-> | _]; [| reflexivity].
  rewrite (outgoing_get_None _ _ Hnotin). reflexivity.
Qed.

Lemma cookies_merge_NoDup (into from : AstroCookies) :
  List.NoDup (map fst (outgoing into)) ->
  List.NoDup (map fst (outgoing (cookies_merge into from))).
Proof.
  unfold cookies_merge. simpl.
  generalize (outgoing into) as acc.
  induction (outgoing from) as [| [k0 v0] l IH]; intros acc H; simpl; [exact H |].
  apply IH. apply outgoing_set_NoDup. exact H.
Qed.

(** When a route's handler answers with a rewrite, [lastNext] merges the jar
    of the rewritten request into the jar [render] started with: both cookies
    of the inner scope go out, [theme] once, with the inner value. *)
Example cookies_merged_after_handler_rewrite :
  let run := render Site.plain Site.imports Site_cookieThenNext 2
               (Some Site_rewritingEndpoint) Site_start_endpoint in
  exists r, fst run = Ok r
            /\ setCookieEntries (snd run) r = [("theme", "inner"); ("session", "abc")].
Proof. vm_compute. eexists. split; reflexivity. Qed.

(** C2, on the code: middleware answers [/] with [ctx.rewrite("/inner")]; the
    middleware run for [/inner] sets [session] and [theme] in the jar of its
    API context.  The jar of the rewritten request holds them, but the final
    response carries the jar the outer [render] call started with: [session]
    is not among its entries, and [theme] has the value written first. *)
Theorem C2_cookie_set_in_rewrite_is_lost :
  let run := render Site.plain Site.imports Site_cookieOnRewrite 2
               (Some (Site.pageOf "/")) Site_start in
  exists r,
    fst run = Ok r
    /\ resp_body r = Some "/inner"
    /\ outgoing (jars (snd run) 1) = [("theme", "inner"); ("session", "abc")]
    /\ getCookiesFromResponse r = Some 0%nat
    /\ setCookieEntries (snd run) r = [("theme", "outer")]
    /\ outgoing_get "session" (setCookieEntries (snd run) r) = None.
Proof. vm_compute. eexists. repeat split. Qed.

(** Also on the merge path the last write can lose: a handler that sets
    [theme] after its rewrite has returned has that value overwritten by the
    merge that follows. *)
Example cookie_written_after_rewrite_is_overwritten :
  let run := render Site.plain Site.imports Site_cookieThenNext 2
               (Some Site_rewritingEndpoint_late) Site_start_endpoint in
  exists r, fst run = Ok r
            /\ setCookieEntries (snd run) r = [("theme", "inner"); ("session", "abc")].
Proof. vm_compute. eexists. split; reflexivity. Qed.

(** * Further properties of the render context *)

(** ** Headers *)

Lemma header_name_eqb_refl (a : string) : header_name_eqb a a = true.
Proof. apply String.eqb_refl. Qed.

Lemma header_name_eqb_sym (a b : string) : header_name_eqb a b = header_name_eqb b a.
Proof. apply String.eqb_sym. Qed.

(** Names that are the same for the headers are the same against any other. *)
Lemma header_name_eqb_compat (a b k : string) :
  header_name_eqb a b = true -> header_name_eqb a k = header_name_eqb b k.
Proof.
  unfold header_name_eqb. intros H. apply String.eqb_eq in H. rewrite H. reflexivity.
Qed.

Lemma headers_values_delete (name k : string) (h : Headers) :
  headers_values k (headers_delete name h)
  = if header_name_eqb name k then [] else headers_values k h.
Proof.
  unfold headers_values, headers_delete.
  induction h as [| [k0 v0] h IH]; simpl.
  - destruct (header_name_eqb name k); reflexivity.
  - destruct (header_name_eqb k0 name) eqn:E0; simpl.
    + rewrite IH. rewrite (header_name_eqb_compat _ _ k E0).
      destruct (header_name_eqb name k); reflexivity.
    + destruct (header_name_eqb k0 k) eqn:Ek; simpl; rewrite IH.
      * rewrite (header_name_eqb_compat _ _ name Ek) in E0.
        rewrite header_name_eqb_sym in E0. rewrite E0. reflexivity.
      * reflexivity.
Qed.

Lemma headers_values_set (name value k : string) (h : Headers) :
  headers_values k (headers_set name value h)
  = if header_name_eqb name k then [value] else headers_values k h.
Proof.
  induction h as [| [k0 v0] h IH]; simpl.
  - unfold headers_values. simpl. destruct (header_name_eqb name k); reflexivity.
  - destruct (header_name_eqb k0 name) eqn:E0.
    + pose proof (headers_values_delete name k h) as Hd.
      unfold headers_values in *. simpl.
      rewrite (header_name_eqb_compat _ _ k E0).
      destruct (header_name_eqb name k); simpl; rewrite Hd; reflexivity.
    + unfold headers_values in *. simpl.
      destruct (header_name_eqb k0 k) eqn:Ek; simpl; rewrite IH.
      * rewrite (header_name_eqb_compat _ _ name Ek) in E0.
        rewrite header_name_eqb_sym in E0. rewrite E0. reflexivity.
      * reflexivity.
Qed.

Lemma headers_get_delete (name k : string) (h : Headers) :
  headers_get k (headers_delete name h)
  = if header_name_eqb name k then None else headers_get k h.
Proof.
  unfold headers_get. rewrite headers_values_delete.
  destruct (header_name_eqb name k); reflexivity.
Qed.

Lemma headers_get_set (name value k : string) (h : Headers) :
  headers_get k (headers_set name value h)
  = if header_name_eqb name k then Some value else headers_get k h.
Proof.
  unfold headers_get. rewrite headers_values_set.
  destruct (header_name_eqb name k); reflexivity.
Qed.

(** What [get] returns is empty only when the name has one entry, and that
    entry is empty. *)
Lemma combine_values_empty (first : string) (others : list string) :
  combine_values first others = "" -> first = "" /\ others = [].
Proof.
  destruct others as [| v rest]; simpl.
  - auto.
  - destruct first; simpl; discriminate.
Qed.

Lemma headers_get_falsy (name : string) (h : Headers) :
  truthy_string (headers_get name h) = false <->
  headers_values name h = [] \/ headers_values name h = [""].
Proof.
  unfold headers_get. destruct (headers_values name h) as [| v rest]; simpl.
  - split; auto.
  - split.
    + intros H. right. apply negb_false_iff, String.eqb_eq in H.
      destruct (combine_values_empty _ _ H) as [-> ->]. reflexivity.
    + intros [H | H]; [discriminate |]. injection H as -> ->. reflexivity.
Qed.

(** ** What [render] returns *)

Lemma bind_Ok_inv {A B : Type} (m : M A) (k : A -> M B) (s s' : Store) (b : B) :
  bind m k s = (Ok b, s') ->
  exists a s1, m s = (Ok a, s1) /\ k a s1 = (Ok b, s').
Proof.
  unfold bind. destruct (m s) as [[a | e |] s1]; intros H; try discriminate.
  exists a, s1. split; [reflexivity | exact H].
Qed.

(** A response that [render] returns is the response of the loop guard, or
    a response that came out of the middleware chain, with the marker header
    stripped if it had a value (the headers then are not immutable) and the
    jar of the call's start put on it. *)
Lemma render_Ok_inv (pipeline : Pipeline) (imports : Imports)
  (middleware : MiddlewareHandler) (fuel : nat)
  (componentInstance : option ComponentInstance) (s s' : Store) (r : Response) :
  render pipeline imports middleware fuel componentInstance s = (Ok r, s') ->
  r = loopDetected
  \/ exists response,
       (truthy_string (headers_get ROUTE_TYPE_HEADER (resp_headers response)) = false
        /\ r = attachCookiesToResponse response (cookies (this s)))
       \/ (truthy_string (headers_get ROUTE_TYPE_HEADER (resp_headers response)) = true
           /\ headers_immutable response = false
           /\ r = attachCookiesToResponse (without_header ROUTE_TYPE_HEADER response)
                    (cookies (this s))).
Proof.
  destruct fuel as [| fuel]; [discriminate |].
  simpl. unfold render_body. intros H.
  apply bind_Ok_inv in H. destruct H as (c & s1 & Hc & H).
  unfold gets in Hc. injection Hc as <- <-.
  apply bind_Ok_inv in H. destruct H as (props & s2 & _ & H).
  apply bind_Ok_inv in H. destruct H as (apiContext & s3 & _ & H).
  apply bind_Ok_inv in H. destruct H as (u & s4 & _ & H).
  apply bind_Ok_inv in H. destruct H as (now & s5 & _ & H).
  destruct (counter now =? 4).
  - left. unfold ret in H. congruence.
  - right. unfold render_dispatch in H.
    apply bind_Ok_inv in H. destruct H as (cell & s6 & _ & H).
    apply bind_Ok_inv in H. destruct H as (response & s7 & _ & H).
    apply bind_Ok_inv in H. destruct H as (stripped & s8 & Hstrip & H).
    unfold ret in H. injection H as <- _.
    exists response.
    destruct (truthy_string (headers_get ROUTE_TYPE_HEADER (resp_headers response))).
    + right. unfold resp_delete_header in Hstrip.
      destruct (headers_immutable response); [discriminate |].
      simpl in Hstrip. unfold ret in Hstrip. injection Hstrip as <- _. auto.
    + left. unfold ret in Hstrip. injection Hstrip as <- _. auto.
Qed.

Lemma headers_values_In (name k value : string) (h : Headers) :
  In (name, value) h -> header_name_eqb name k = true -> In value (headers_values k h).
Proof.
  intros Hin Heq. unfold headers_values.
  apply (List.in_map snd _ (name, value)). apply List.filter_In. auto.
Qed.

(** X1: the response that [render] returns does not have the route-type
    marker with a value: [get] of the marker gives nothing or the empty
    string, so every entry of the headers under that name, however it is
    spelled, is empty (an empty marker is left in place).  A response from
    the middleware chain whose marker has a value is stripped of it; when its
    headers are immutable the [delete] throws and [render] throws that
    [TypeError] instead of returning. *)
Theorem render_strips_route_type_marker :
  forall (pipeline : Pipeline) (imports : Imports) (middleware : MiddlewareHandler),
    (forall fuel componentInstance s s' r,
        render pipeline imports middleware fuel componentInstance s = (Ok r, s') ->
        truthy_string (headers_get ROUTE_TYPE_HEADER (resp_headers r)) = false
        /\ forall name value,
             In (name, value) (resp_headers r) ->
             header_name_eqb name ROUTE_TYPE_HEADER = true ->
             value = "")
    /\ (forall render_rec componentInstance cookies0 props apiContext s response s1,
          callMiddleware pipeline imports render_rec middleware apiContext
            (lastNext pipeline imports render_rec (next_cell s) cookies0 props)
            (snd (alloc_cell componentInstance s)) = (Ok response, s1) ->
          truthy_string (headers_get ROUTE_TYPE_HEADER (resp_headers response)) = true ->
          (headers_immutable response = true ->
           render_dispatch pipeline imports middleware render_rec componentInstance
             cookies0 props apiContext s
           = (Raise (TypeError "immutable"), s1))
          /\ (headers_immutable response = false ->
              render_dispatch pipeline imports middleware render_rec componentInstance
                cookies0 props apiContext s
              = (Ok (attachCookiesToResponse
                       (without_header ROUTE_TYPE_HEADER response) cookies0), s1)
              /\ headers_get ROUTE_TYPE_HEADER
                   (headers_delete ROUTE_TYPE_HEADER (resp_headers response)) = None)).
Proof.
  intros pipeline imports middleware. split.
  - intros fuel componentInstance s s' r H.
    assert (Hget : truthy_string (headers_get ROUTE_TYPE_HEADER (resp_headers r)) = false).
    { destruct (render_Ok_inv _ _ _ _ _ _ _ _ H)
        as [-> | [response [[Hf ->] | (_ & _ & ->)]]].
      - reflexivity.
      - exact Hf.
      - simpl. rewrite headers_get_delete, header_name_eqb_refl. reflexivity. }
    split; [exact Hget |].
    intros name value Hin Hname.
    pose proof (headers_values_In name ROUTE_TYPE_HEADER value _ Hin Hname) as Hv.
    apply headers_get_falsy in Hget. destruct Hget as [E | E]; rewrite E in Hv.
    + destruct Hv.
    + destruct Hv as [<- | []]. reflexivity.
  - intros render_rec componentInstance cookies0 props apiContext s response s1
           Hmw Hmarker.
    assert (E : render_dispatch pipeline imports middleware render_rec componentInstance
                  cookies0 props apiContext s
                = match resp_delete_header ROUTE_TYPE_HEADER response with
                  | inl e => (Raise e, s1)
                  | inr stripped => (Ok (attachCookiesToResponse stripped cookies0), s1)
                  end).
    { unfold render_dispatch.
      unfold bind at 1. cbn [alloc_cell]. cbn [alloc_cell snd] in Hmw.
      unfold bind at 1. rewrite Hmw.
      unfold bind at 1. rewrite Hmarker.
      destruct (resp_delete_header ROUTE_TYPE_HEADER response); reflexivity. }
    rewrite E. unfold resp_delete_header. split.
    + intros ->. reflexivity.
    + intros ->. split; [reflexivity |].
      rewrite headers_get_delete, header_name_eqb_refl. reflexivity.
Qed.

(** X2: a response that [render] returns, unless it is the response of the
    loop guard made by this very call, carries the jar the context had when
    the call started - also when a rewrite has given the context another jar
    in the meantime. *)
Theorem render_attaches_the_jar_of_its_start :
  forall (pipeline : Pipeline) (imports : Imports) (middleware : MiddlewareHandler)
         (fuel : nat) (componentInstance : option ComponentInstance)
         (s s' : Store) (r : Response),
    render pipeline imports middleware fuel componentInstance s = (Ok r, s') ->
    (r = loopDetected /\ getCookiesFromResponse r = None)
    \/ getCookiesFromResponse r = Some (cookies (this s)).
Proof.
  intros pipeline imports middleware fuel componentInstance s s' r H.
  destruct (render_Ok_inv _ _ _ _ _ _ _ _ H)
    as [-> | [response [[_ ->] | (_ & _ & ->)]]].
  - left. split; reflexivity.
  - right. reflexivity.
  - right. reflexivity.
Qed.

Lemma render_strips_route_type_marker_witness :
  let run := render Site.plain Site.imports Site_passThrough 1
               (Some (Site.pageOf "/")) Site_start in
  let proxied := callMiddleware Site.plain Site.imports (fun _ => ret loopDetected)
                   Site_proxy Site_ctx
                   (lastNext Site.plain Site.imports (fun _ => ret loopDetected)
                      (next_cell Site_start) 0 [])
                   (snd (alloc_cell None Site_start)) in
  (run = (Ok (attachCookiesToResponse (Site.html "/") 0), snd run)
   /\ truthy_string
        (headers_get ROUTE_TYPE_HEADER
           (resp_headers (attachCookiesToResponse (Site.html "/") 0))) = false)
  /\ (proxied = (Ok Site_fetched, snd proxied)
      /\ truthy_string (headers_get ROUTE_TYPE_HEADER (resp_headers Site_fetched)) = true
      /\ headers_immutable Site_fetched = true
      /\ render_dispatch Site.plain Site.imports Site_proxy (fun _ => ret loopDetected)
           None 0 [] Site_ctx Site_start
         = (Raise (TypeError "immutable"), snd proxied)).
Proof.
  intros run proxied.
  destruct (render_strips_route_type_marker Site.plain Site.imports Site_passThrough)
    as [Hstrip _].
  destruct (render_strips_route_type_marker Site.plain Site.imports Site_proxy)
    as [_ Hthrow].
  assert (H : run = (Ok (attachCookiesToResponse (Site.html "/") 0), snd run))
    by (vm_compute; reflexivity).
  assert (Hp : proxied = (Ok Site_fetched, snd proxied)) by (vm_compute; reflexivity).
  assert (Hm : truthy_string (headers_get ROUTE_TYPE_HEADER (resp_headers Site_fetched))
               = true) by reflexivity.
  split.
  - split; [exact H |].
    exact (proj1 (Hstrip 1%nat (Some (Site.pageOf "/")) Site_start (snd run) _ H)).
  - split; [exact Hp |]. split; [exact Hm |]. split; [reflexivity |].
    exact (proj1 (Hthrow (fun _ => ret loopDetected) None 0%nat [] Site_ctx Site_start
                    Site_fetched (snd proxied) Hp Hm) eq_refl).
Defined.

Lemma render_attaches_the_jar_of_its_start_witness :
  let run := render Site.plain Site.imports Site_cookieOnRewrite 2
               (Some (Site.pageOf "/")) Site_start in
  let r := attachCookiesToResponse
             (with_header REWRITE_DIRECTIVE_HEADER_KEY REWRITE_DIRECTIVE_HEADER_VALUE
                (Site.html "/inner")) 0 in
  run = (Ok r, snd run)
  /\ cookies (this (snd run)) = 1%nat
  /\ ((r = loopDetected /\ getCookiesFromResponse r = None)
      \/ getCookiesFromResponse r = Some (cookies (this Site_start))).
Proof.
  intros run r.
  assert (H : run = (Ok r, snd run)) by (vm_compute; reflexivity).
  split; [exact H |]. split; [vm_compute; reflexivity |].
  exact (render_attaches_the_jar_of_its_start Site.plain Site.imports
           Site_cookieOnRewrite 2 (Some (Site.pageOf "/")) Site_start (snd run) r H).
Defined.

(** ** Beyond the loop guard *)

Lemma runProg_await_OutOfFuel {O : Type} {ar : O -> Type} {R : Type}
  (h : forall o : O, M (ar o)) (o : O) (k : ar o -> Prog O ar R) (s s' : Store) :
  h o s = (OutOfFuel, s') -> runProg h (await o k) s = (OutOfFuel, s').
Proof. intros H. simpl. rewrite H. reflexivity. Qed.

(** X3: the guard fires on the call that makes the counter 4 and on no other:
    from a counter of 4 or more, middleware that on every call returns what
    [ctx.rewrite] returns re-enters [render] without bound - no bound on the
    depth of re-entry is enough for the call to return. *)
Theorem render_unbounded_beyond_the_guard :
  forall (pipeline : Pipeline) (imports : Imports) (middleware : MiddlewareHandler)
         (target : APIContext -> RewritePayload),
    (forall ctx, middleware ctx = await (OnCtx (CtxRewrite (target ctx))) Return) ->
    (forall ctx, instanceof_Request (target ctx) = None) ->
    (forall heap payload req anchor,
        exists resolved, tryRewrite pipeline heap payload req anchor = inr resolved) ->
    (forall c routeData0 pathname0,
        exists props, getProps imports c routeData0 pathname0 = inr props) ->
    forall (fuel : nat) (componentInstance : option ComponentInstance) (s : Store),
      4 <= counter (this s) ->
      bodyUsed s (requests s (request (this s))) = false ->
      fst (render pipeline imports middleware fuel componentInstance s) = OutOfFuel.
Proof.
  intros pipeline imports middleware target Hmw Htarget Hres Hprops.
  induction fuel as [| fuel IH]; intros componentInstance s Hc Hbody; [reflexivity |].
  destruct (render_props_ok imports Hprops componentInstance s)
    as (props & s0 & Hp & Ht & [Hr Hst] & _).
  destruct (render_incr pipeline imports middleware fuel componentInstance s s0 props Hp)
    as (apiContext & _ & ->); [lia |].
  unfold render_dispatch.
  unfold bind at 1. cbn [alloc_cell].
  unfold callMiddleware.
  unfold bind at 1. unfold bind at 1. unfold modify at 1.
  rewrite Hmw.
  set (s1 := record_call (CallMiddleware apiContext) _).
  destruct (executeRewrite_reset_ok pipeline imports Hres (target apiContext) s1
              (Htarget _))
    as (component & s2 & Hreset & Hc2 & Hb2 & _).
  { subst s1. unfold bodyUsed in *. simpl. rewrite Hr, Hst, Ht. exact Hbody. }
  specialize (IH (Some component) s2).
  assert (Hc' : 4 <= counter (this s2)).
  { rewrite Hc2. subst s1. simpl. rewrite Ht. lia. }
  specialize (IH Hc' Hb2).
  destruct (render pipeline imports middleware fuel (Some component) s2)
    as [out s3] eqn:Hrun.
  simpl in IH. subst out.
  assert (Hexec : mwHandler pipeline imports (render pipeline imports middleware fuel)
                    apiContext
                    (lastNext pipeline imports (render pipeline imports middleware fuel)
                       (next_cell s0) (cookies (this s)) props)
                    (OnCtx (CtxRewrite (target apiContext))) s1 = (OutOfFuel, s3)).
  { simpl. unfold executeRewrite. rewrite (bind_Ok _ _ _ _ _ Hreset). exact Hrun. }
  rewrite (runProg_await_OutOfFuel _ _ _ _ _ Hexec). reflexivity.
Qed.

Lemma render_unbounded_beyond_the_guard_witness :
  let s := with_this (set_counter 4) Site_start in
  (forall ctx, Site_alwaysRewrite ctx
               = await (OnCtx (CtxRewrite ((fun _ => PString "/loop") ctx))) Return)
  /\ (forall ctx : APIContext,
        instanceof_Request ((fun _ => PString "/loop") ctx) = None)
  /\ (forall heap payload req anchor,
        exists resolved, tryRewrite Site.plain heap payload req anchor = inr resolved)
  /\ (forall c routeData0 pathname0,
        exists props, getProps Site.imports c routeData0 pathname0 = inr props)
  /\ 4 <= counter (this s)
  /\ bodyUsed s (requests s (request (this s))) = false
  /\ fst (render Site.plain Site.imports Site_alwaysRewrite 7 (Some (Site.pageOf "/")) s)
     = OutOfFuel.
Proof.
  intros s.
  assert (H1 : forall ctx, Site_alwaysRewrite ctx
                 = await (OnCtx (CtxRewrite ((fun _ => PString "/loop") ctx))) Return)
    by reflexivity.
  assert (H2 : forall ctx : APIContext,
             instanceof_Request ((fun _ => PString "/loop") ctx) = None)
    by reflexivity.
  assert (H3 : forall heap payload req anchor,
             exists resolved, tryRewrite Site.plain heap payload req anchor = inr resolved)
    by (intros; eexists; reflexivity).
  assert (H4 : forall c routeData0 pathname0,
             exists props, getProps Site.imports c routeData0 pathname0 = inr props)
    by (intros; eexists; reflexivity).
  assert (H5 : 4 <= counter (this s)) by (simpl; lia).
  assert (H6 : bodyUsed s (requests s (request (this s))) = false) by reflexivity.
  repeat (split; [assumption |]).
  exact (render_unbounded_beyond_the_guard Site.plain Site.imports Site_alwaysRewrite
           (fun _ => PString "/loop") H1 H2 H3 H4 7%nat (Some (Site.pageOf "/")) s H5 H6).
Defined.

(** ** Rewrites that fail, rewrites that succeed *)

(** X5: a rewrite through the API context that fails on a used body has
    already assigned [routeData]: the context is left with the resolved route
    as its [routeData], and with the request, URL, params, pathname, jar,
    status, rewriting flag and every other field it had before; no request
    object and no jar is made or changed. *)
Theorem executeRewrite_failure_keeps_new_routeData :
  forall (pipeline : Pipeline) (imports : Imports) (reroutePayload : RewritePayload)
         (s : Store) (routeData' : RouteData) (component : ComponentInstance)
         (newURL : URL),
    tryRewrite pipeline (requests s) reroutePayload (request (this s))
               (originalRoute (this s))
      = inr (routeData', component, newURL) ->
    instanceof_Request reroutePayload = None ->
    bodyUsed s (requests s (request (this s))) = true ->
    exists s',
      executeRewrite_reset pipeline imports reroutePayload s
        = (Raise (AstroError RewriteWithBodyUsed), s')
      /\ routeData (this s') = routeData'
      /\ (request (this s') = request (this s)
          /\ url (this s') = url (this s)
          /\ params (this s') = params (this s)
          /\ pathname (this s') = pathname (this s)
          /\ cookies (this s') = cookies (this s)
          /\ status (this s') = status (this s)
          /\ isRewriting (this s') = isRewriting (this s))
      /\ (locals (this s') = locals (this s)
          /\ props (this s') = props (this s)
          /\ originalRoute (this s') = originalRoute (this s)
          /\ counter (this s') = counter (this s))
      /\ (requests s' = requests s /\ next_request s' = next_request s
          /\ streams s' = streams s
          /\ jars s' = jars s /\ next_jar s' = next_jar s).
Proof.
  intros pipeline imports reroutePayload s routeData' component newURL Hres Hinst Hused.
  unfold executeRewrite_reset, call_tryRewrite, pipeline_tryRewrite, bind, gets, modify,
    assign, lift.
  simpl. rewrite Hres. simpl. rewrite Hinst. simpl.
  unfold copyRequest, bodyUsed in *. simpl. rewrite Hused.
  eexists. split; [reflexivity |]. simpl. auto 20.
Qed.

Lemma executeRewrite_failure_keeps_new_routeData_witness :
  let s := snd (read_body 0 (create Site.imports None "/submit"
                               (Site.post "/submit" "a=1") (Site.pageRoute "/submit")
                               None None)) in
  tryRewrite Site.plain (requests s) (PString "/thanks") (request (this s))
             (originalRoute (this s))
    = inr (Site.pageRoute "/thanks", Site.pageOf "/thanks", Site.localhost "/thanks")
  /\ instanceof_Request (PString "/thanks") = None
  /\ bodyUsed s (requests s (request (this s))) = true
  /\ routeData (this s) = Site.pageRoute "/submit"
  /\ exists s',
       executeRewrite_reset Site.plain Site.imports (PString "/thanks") s
         = (Raise (AstroError RewriteWithBodyUsed), s')
       /\ routeData (this s') = Site.pageRoute "/thanks"
       /\ url (this s') = Site.localhost "/submit"
       /\ pathname (this s') = "/submit"
       /\ isRewriting (this s') = false.
Proof.
  intros s. split; [reflexivity |]. split; [reflexivity |]. split; [reflexivity |].
  split; [reflexivity |].
  destruct (executeRewrite_failure_keeps_new_routeData Site.plain Site.imports
              (PString "/thanks") s (Site.pageRoute "/thanks") (Site.pageOf "/thanks")
              (Site.localhost "/thanks") eq_refl eq_refl eq_refl)
    as (s' & Hrun & Hroute & (_ & Hurl & _ & Hpath & _ & _ & Hrw) & _).
  exists s'. split; [exact Hrun |]. split; [exact Hroute |].
  split; [rewrite Hurl; reflexivity |].
  split; [rewrite Hpath; reflexivity |].
  rewrite Hrw. reflexivity.
Defined.

(** The copy that a rewrite makes has the body of the request it is made
    from: reading the body through the copy uses it up for both, and a
    further rewrite then fails. *)
Example body_is_shared_with_the_copy :
  let s0 := create Site.imports None "/submit" (Site.post "/submit" "a=1")
              (Site.pageRoute "/submit") None None in
  let s1 := snd (executeRewrite_reset Site.plain Site.imports (PString "/thanks") s0) in
  let s2 := snd (read_body 1 s1) in
  request (this s1) = 1%nat
  /\ body (requests s1 1) = body (requests s1 0)
  /\ bodyUsed s1 (requests s1 0) = false
  /\ fst (read_body 1 s1) = Ok "a=1"
  /\ bodyUsed s2 (requests s2 0) = true
  /\ bodyUsed s2 (requests s2 1) = true
  /\ fst (read_body 0 s2) = Raise (TypeError "Body is unusable")
  /\ fst (executeRewrite_reset Site.plain Site.imports (PString "/again") s2)
     = Raise (AstroError RewriteWithBodyUsed).
Proof. vm_compute. repeat split. Qed.

(** X6: when the rewrite resolver throws, both rewrite entry points throw the
    same exception and leave the render context and the heap objects as
    they were; [lastNext] does not go on to the dispatch and
    [#executeRewrite] does not re-enter [render]. *)
Theorem resolver_failure_changes_nothing :
  forall (pipeline : Pipeline) (imports : Imports)
         (render_rec : option ComponentInstance -> M Response)
         (cell cookies0 : nat) (props : Props) (ctx : APIContext)
         (payload : RewritePayload) (s : Store) (e : Exn),
    tryRewrite pipeline (requests s) payload (request (this s)) (originalRoute (this s))
      = inl e ->
    (exists s',
        executeRewrite pipeline imports render_rec payload s = (Raise e, s')
        /\ this s' = this s /\ requests s' = requests s /\ jars s' = jars s
        /\ cells s' = cells s)
    /\ (payload_truthy (Some payload) = true ->
        exists s',
          lastNext pipeline imports render_rec cell cookies0 props ctx (Some payload) s
            = (Raise e, s')
          /\ this s' = this s /\ requests s' = requests s /\ jars s' = jars s
          /\ cells s' = cells s
          /\ calls s' = CallTryRewrite payload (request (this s)) (originalRoute (this s))
                          :: calls s).
Proof.
  intros pipeline imports render_rec cell cookies0 props ctx payload s e Hres. split.
  - unfold executeRewrite, executeRewrite_reset, call_tryRewrite, pipeline_tryRewrite,
      bind, gets, modify, assign, lift.
    simpl. rewrite Hres. simpl. eexists. split; [reflexivity |]. simpl. auto.
  - intros Htruthy. unfold lastNext, lastNext_rewrite. rewrite Htruthy.
    unfold call_tryRewrite, pipeline_tryRewrite. unfold bind, gets, modify, assign, lift.
    simpl. rewrite Hres. simpl. eexists. split; [reflexivity |]. simpl. auto 6.
Qed.

Lemma resolver_failure_changes_nothing_witness :
  tryRewrite Site_unresolving (requests Site_start) (PString "/nowhere")
             (request (this Site_start)) (originalRoute (this Site_start))
    = inl (OtherError "no route")
  /\ payload_truthy (Some (PString "/nowhere")) = true
  /\ exists s',
       lastNext Site_unresolving Site.imports (fun _ => ret loopDetected) 0 0 []
         Site_ctx (Some (PString "/nowhere")) Site_start
         = (Raise (OtherError "no route"), s')
       /\ this s' = this Site_start /\ requests s' = requests Site_start
       /\ jars s' = jars Site_start /\ cells s' = cells Site_start
       /\ calls s' = CallTryRewrite (PString "/nowhere") (request (this Site_start))
                       (originalRoute (this Site_start)) :: calls Site_start.
Proof.
  split; [reflexivity |]. split; [reflexivity |].
  destruct (resolver_failure_changes_nothing Site_unresolving Site.imports
              (fun _ => ret loopDetected) 0 0 [] Site_ctx (PString "/nowhere")
              Site_start (OtherError "no route") eq_refl) as [_ H].
  apply H. reflexivity.
Defined.

(** What a successful reset of [#executeRewrite] leaves behind. *)
Lemma executeRewrite_reset_Ok_inv (pipeline : Pipeline) (imports : Imports)
  (reroutePayload : RewritePayload) (s s' : Store) (component : ComponentInstance) :
  executeRewrite_reset pipeline imports reroutePayload s = (Ok component, s') ->
  exists routeData' newURL,
    tryRewrite pipeline (requests s) reroutePayload (request (this s))
               (originalRoute (this s)) = inr (routeData', component, newURL)
    /\ cookies (this s') = next_jar s
    /\ jars s' = upd (jars s) (next_jar s)
                   {| jar_request := request (this s'); outgoing := [] |}
    /\ url (this s') = req_url (requests s' (request (this s')))
    /\ pathname (this s') = url_pathname (url (this s'))
    /\ params (this s') = getParams imports routeData' (url_pathname (url (this s')))
    /\ routeData (this s') = routeData'
    /\ isRewriting (this s') = true
    /\ status (this s') = 200
    /\ match instanceof_Request reroutePayload with
       | Some r => request (this s') = r /\ requests s' = requests s
       | None =>
           bodyUsed s (requests s (request (this s))) = false
           /\ request (this s') = next_request s
           /\ requests s' =
              upd (requests s) (next_request s)
                {| req_url := newURL;
                   req_method := req_method (requests s (request (this s)));
                   req_headers := req_headers (requests s (request (this s)));
                   body := body (requests s (request (this s)));
                   clientAddressSymbol := None;
                   clientLocalsSymbol := None;
                   responseSentSymbol := false |}
       end.
Proof.
  unfold executeRewrite_reset, call_tryRewrite, pipeline_tryRewrite, bind, gets, modify,
    assign, lift.
  simpl.
  destruct (tryRewrite pipeline (requests s) reroutePayload (request (this s))
              (originalRoute (this s))) as [e | [[routeData' component'] newURL]];
    simpl; [discriminate |].
  destruct (instanceof_Request reroutePayload) as [r |]; simpl.
  - intros H. injection H as <- <-. exists routeData', newURL. simpl. auto 12.
  - unfold copyRequest. simpl.
    replace (bodyUsed _ (requests s (request (this s))))
      with (bodyUsed s (requests s (request (this s)))) by reflexivity.
    destruct (bodyUsed s (requests s (request (this s)))) eqn:Hb; simpl; [discriminate |].
    intros H. injection H as <- <-. exists routeData', newURL. simpl.
    repeat split; unfold upd; rewrite ?Nat.eqb_refl; reflexivity.
Qed.

(** X7: a rewrite through the API context, whatever its payload, gives the
    context a new jar with no cookie in it; every jar there was - the one
    the context had included - keeps what it holds. *)
Theorem executeRewrite_starts_an_empty_jar :
  forall (pipeline : Pipeline) (imports : Imports) (reroutePayload : RewritePayload)
         (s s' : Store) (component : ComponentInstance),
    executeRewrite_reset pipeline imports reroutePayload s = (Ok component, s') ->
    cookies (this s') = next_jar s
    /\ outgoing (jars s' (cookies (this s'))) = []
    /\ jar_request (jars s' (cookies (this s'))) = request (this s')
    /\ (forall j, j <> next_jar s -> jars s' j = jars s j).
Proof.
  intros pipeline imports reroutePayload s s' component H.
  destruct (executeRewrite_reset_Ok_inv _ _ _ _ _ _ H)
    as (routeData' & newURL & _ & Hc & Hj & _).
  rewrite Hc, Hj. unfold upd. rewrite Nat.eqb_refl. simpl.
  repeat split; try reflexivity.
  intros j Hne. destruct (Nat.eqb_spec j (next_jar s)); [contradiction | reflexivity].
Qed.

(** X8: after a rewrite through the API context with a string or URL as
    payload, the request of the context is a copy without the adapter's
    client-address property (and without the locals property): whatever the
    pipeline, [clientAddress()] throws, also when the request the rewrite
    started from carried an address. *)
Theorem clientAddress_is_lost_by_a_rewrite :
  forall (pipeline pipeline' : Pipeline) (imports : Imports)
         (reroutePayload : RewritePayload) (s s' : Store) (component : ComponentInstance),
    executeRewrite_reset pipeline imports reroutePayload s = (Ok component, s') ->
    instanceof_Request reroutePayload = None ->
    clientAddressSymbol (requests s' (request (this s'))) = None
    /\ clientLocalsSymbol (requests s' (request (this s'))) = None
    /\ exists d, clientAddress pipeline' s' = (Raise (AstroError d), s').
Proof.
  intros pipeline pipeline' imports reroutePayload s s' component H Hinst.
  destruct (executeRewrite_reset_Ok_inv _ _ _ _ _ _ H)
    as (routeData' & newURL & _ & _ & _ & _ & _ & _ & _ & _ & _ & Hreq).
  rewrite Hinst in Hreq. destruct Hreq as (_ & Hr & Hrs).
  assert (Hsym : clientAddressSymbol (requests s' (request (this s'))) = None).
  { rewrite Hrs, Hr. unfold upd. rewrite Nat.eqb_refl. reflexivity. }
  split; [exact Hsym |]. split.
  { rewrite Hrs, Hr. unfold upd. rewrite Nat.eqb_refl. reflexivity. }
  unfold clientAddress. rewrite Hsym.
  destruct (serverLike pipeline'); [| eexists; reflexivity].
  destruct (body (requests s' (request (this s')))); [| eexists; reflexivity].
  destruct (truthy_string (adapterName pipeline')); eexists; reflexivity.
Qed.


Lemma executeRewrite_starts_an_empty_jar_witness :
  let s := set_jar 0 (cookies_set "theme" "dark" (jars Site_start 0)) Site_start in
  let s' := snd (executeRewrite_reset Site.plain Site.imports (PString "/inner") s) in
  executeRewrite_reset Site.plain Site.imports (PString "/inner") s
    = (Ok (Site.pageOf "/inner"), s')
  /\ outgoing (jars s (cookies (this s))) = [("theme", "dark")]
  /\ cookies (this s') = next_jar s
  /\ outgoing (jars s' (cookies (this s'))) = []
  /\ jar_request (jars s' (cookies (this s'))) = request (this s')
  /\ (forall j, j <> next_jar s -> jars s' j = jars s j).
Proof.
  intros s s'.
  assert (H : executeRewrite_reset Site.plain Site.imports (PString "/inner") s
              = (Ok (Site.pageOf "/inner"), s')) by reflexivity.
  split; [exact H |]. split; [reflexivity |].
  exact (executeRewrite_starts_an_empty_jar Site.plain Site.imports (PString "/inner")
           s s' (Site.pageOf "/inner") H).
Defined.

Lemma clientAddress_is_lost_by_a_rewrite_witness :
  let s := Site_start_from_adapter in
  let s' := snd (executeRewrite_reset Site.plain Site.imports (PString "/inner") s) in
  executeRewrite_reset Site.plain Site.imports (PString "/inner") s
    = (Ok (Site.pageOf "/inner"), s')
  /\ instanceof_Request (PString "/inner") = None
  /\ clientAddress Site.plain s = (Ok "203.0.113.7", s)
  /\ clientAddressSymbol (requests s' (request (this s'))) = None
  /\ clientLocalsSymbol (requests s' (request (this s'))) = None
  /\ exists d, clientAddress Site.plain s' = (Raise (AstroError d), s').
Proof.
  intros s s'.
  assert (H : executeRewrite_reset Site.plain Site.imports (PString "/inner") s
              = (Ok (Site.pageOf "/inner"), s')) by reflexivity.
  split; [exact H |]. split; [reflexivity |]. split; [reflexivity |].
  exact (clientAddress_is_lost_by_a_rewrite Site.plain Site.plain Site.imports
           (PString "/inner") s s' (Site.pageOf "/inner") H eq_refl).
Defined.


(** ** Locales that are not found *)

Lemma computeCurrentLocale_undefined_step (pipeline : Pipeline) (imports : Imports)
  (cfg : I18n) (s : Store) :
  i18n pipeline = Some cfg ->
  strategy cfg <> "pathname-prefix-other-locales" ->
  strategy cfg <> "domains-prefix-other-locales" ->
  priv_currentLocale (this s) = None ->
  i18n_computeCurrentLocale imports (route (routeData (this s))) (locales cfg) = None ->
  i18n_computeCurrentLocale imports (url_pathname (url (this s))) (locales cfg) = None ->
  exists s',
    computeCurrentLocale pipeline imports s = (Ok None, s')
    /\ priv_currentLocale (this s') = None
    /\ routeData (this s') = routeData (this s)
    /\ url (this s') = url (this s)
    /\ calls s' = CallComputeCurrentLocale (url_pathname (url (this s)))
                    :: CallComputeCurrentLocale (route (routeData (this s))) :: calls s.
Proof.
  intros Hi H1 H2 Hc Hr Hu.
  unfold computeCurrentLocale, call_computeCurrentLocale, bind, gets, modify, assign, ret.
  simpl. rewrite Hi, Hc. simpl. rewrite Hr. simpl. rewrite Hu. simpl.
  destruct (String.eqb_spec (strategy cfg) "pathname-prefix-other-locales");
    [contradiction |].
  destruct (String.eqb_spec (strategy cfg) "domains-prefix-other-locales");
    [contradiction |].
  simpl. eexists. split; [reflexivity |]. simpl. auto.
Qed.

(** X10: when neither the route pattern nor the pathname names a locale and
    the strategy has no fallback, the current locale is [undefined] and
    nothing is cached: each of [n] accesses in a row asks the resolver twice,
    [2 * n] resolver calls in all. *)
Theorem currentLocale_undefined_is_recomputed :
  forall (pipeline : Pipeline) (imports : Imports) (cfg : I18n) (s : Store),
    i18n pipeline = Some cfg ->
    strategy cfg <> "pathname-prefix-other-locales" ->
    strategy cfg <> "domains-prefix-other-locales" ->
    priv_currentLocale (this s) = None ->
    i18n_computeCurrentLocale imports (route (routeData (this s))) (locales cfg) = None ->
    i18n_computeCurrentLocale imports (url_pathname (url (this s))) (locales cfg) = None ->
    forall n : nat,
      let sn := after_accesses (computeCurrentLocale pipeline imports) n s in
      fst (computeCurrentLocale pipeline imports sn) = Ok None
      /\ priv_currentLocale (this sn) = None
      /\ count_calls is_currentLocale_call (calls sn)
         = (count_calls is_currentLocale_call (calls s) + 2 * n)%nat.
Proof.
  intros pipeline imports cfg s Hi H1 H2 Hc Hr Hu n.
  assert (Inv : let sn := after_accesses (computeCurrentLocale pipeline imports) n s in
                priv_currentLocale (this sn) = None
                /\ routeData (this sn) = routeData (this s)
                /\ url (this sn) = url (this s)
                /\ count_calls is_currentLocale_call (calls sn)
                   = (count_calls is_currentLocale_call (calls s) + 2 * n)%nat).
  { induction n as [| n IH]; simpl.
    - repeat split; try assumption. lia.
    - simpl in IH. destruct IH as (Ic & Ird & Iu & In).
      fold (after_accesses (computeCurrentLocale pipeline imports) n s) in *.
      set (sn := after_accesses (computeCurrentLocale pipeline imports) n s) in *.
      destruct (computeCurrentLocale_undefined_step pipeline imports cfg sn Hi H1 H2 Ic)
        as (s' & E & Ec & Erd & Eu & Ecalls);
        [rewrite Ird; exact Hr | rewrite Iu; exact Hu |].
      rewrite E. simpl. repeat split; try congruence.
      rewrite Ecalls. unfold count_calls in *. simpl. rewrite In. lia. }
  simpl in Inv. destruct Inv as (Ic & Ird & Iu & In).
  set (sn := after_accesses (computeCurrentLocale pipeline imports) n s) in *.
  destruct (computeCurrentLocale_undefined_step pipeline imports cfg sn Hi H1 H2 Ic)
    as (s' & E & _); [rewrite Ird; exact Hr | rewrite Iu; exact Hu |].
  simpl. rewrite E. repeat split; assumption.
Qed.

Lemma currentLocale_undefined_is_recomputed_witness :
  let sn := after_accesses (computeCurrentLocale Site_localized Site.imports) 3
              Site_start in
  i18n Site_localized = Some Site_i18n
  /\ strategy Site_i18n <> "pathname-prefix-other-locales"
  /\ strategy Site_i18n <> "domains-prefix-other-locales"
  /\ priv_currentLocale (this Site_start) = None
  /\ i18n_computeCurrentLocale Site.imports (route (routeData (this Site_start)))
       (locales Site_i18n) = None
  /\ i18n_computeCurrentLocale Site.imports (url_pathname (url (this Site_start)))
       (locales Site_i18n) = None
  /\ fst (computeCurrentLocale Site_localized Site.imports sn) = Ok None
  /\ priv_currentLocale (this sn) = None
  /\ count_calls is_currentLocale_call (calls sn)
     = (count_calls is_currentLocale_call (calls Site_start) + 2 * 3)%nat.
Proof.
  intros sn.
  split; [reflexivity |]. split; [discriminate |]. split; [discriminate |].
  split; [reflexivity |]. split; [reflexivity |]. split; [reflexivity |].
  apply (currentLocale_undefined_is_recomputed Site_localized Site.imports Site_i18n
           Site_start); first [reflexivity | discriminate].
Defined.

(** X11: with a prefix-other-locales strategy the current locale is never
    [undefined] and is cached by the first access: it is the default locale
    when neither the route pattern nor the pathname names a locale. *)
Theorem currentLocale_falls_back_to_default :
  forall (pipeline : Pipeline) (imports : Imports) (cfg : I18n) (s : Store),
    i18n pipeline = Some cfg ->
    strategy cfg = "pathname-prefix-other-locales"
    \/ strategy cfg = "domains-prefix-other-locales" ->
    exists v s',
      computeCurrentLocale pipeline imports s = (Ok (Some v), s')
      /\ priv_currentLocale (this s') = Some v
      /\ (priv_currentLocale (this s) = None ->
          i18n_computeCurrentLocale imports (route (routeData (this s))) (locales cfg)
            = None ->
          i18n_computeCurrentLocale imports (url_pathname (url (this s))) (locales cfg)
            = None ->
          v = defaultLocale cfg).
Proof.
  intros pipeline imports cfg s Hi Hs.
  assert (Hf : String.eqb (strategy cfg) "pathname-prefix-other-locales"
               || String.eqb (strategy cfg) "domains-prefix-other-locales" = true).
  { destruct Hs as [-> | ->]; reflexivity. }
  unfold computeCurrentLocale, call_computeCurrentLocale, bind, gets, modify, assign, ret.
  simpl. rewrite Hi, Hf.
  destruct (priv_currentLocale (this s)) as [w |] eqn:Hc.
  - exists w, s. split; [reflexivity |]. split; [exact Hc | discriminate].
  - simpl.
    destruct (i18n_computeCurrentLocale imports (route (routeData (this s))) (locales cfg))
      as [a |]; simpl.
    + do 2 eexists. split; [reflexivity |]. split; [reflexivity | discriminate].
    + destruct (i18n_computeCurrentLocale imports (url_pathname (url (this s)))
                  (locales cfg)) as [b |]; simpl.
      * do 2 eexists. split; [reflexivity |]. split; [reflexivity | discriminate].
      * do 2 eexists. split; [reflexivity |]. split; [reflexivity | reflexivity].
Qed.

Lemma currentLocale_falls_back_to_default_witness :
  i18n (Site.pipeline true None (Some Site_i18n_fallback)) = Some Site_i18n_fallback
  /\ (strategy Site_i18n_fallback = "pathname-prefix-other-locales"
      \/ strategy Site_i18n_fallback = "domains-prefix-other-locales")
  /\ exists v s',
       computeCurrentLocale (Site.pipeline true None (Some Site_i18n_fallback))
         Site.imports Site_start = (Ok (Some v), s')
       /\ priv_currentLocale (this s') = Some v
       /\ (priv_currentLocale (this Site_start) = None ->
           i18n_computeCurrentLocale Site.imports (route (routeData (this Site_start)))
             (locales Site_i18n_fallback) = None ->
           i18n_computeCurrentLocale Site.imports (url_pathname (url (this Site_start)))
             (locales Site_i18n_fallback) = None ->
           v = defaultLocale Site_i18n_fallback).
Proof.
  split; [reflexivity |]. split; [left; reflexivity |].
  apply (currentLocale_falls_back_to_default
           (Site.pipeline true None (Some Site_i18n_fallback)) Site.imports
           Site_i18n_fallback Site_start); [reflexivity | left; reflexivity].
Defined.

Lemma computePreferredLocale_undefined_step (pipeline : Pipeline) (imports : Imports)
  (cfg : I18n) (s : Store) :
  i18n pipeline = Some cfg ->
  priv_preferredLocale (this s) = None ->
  i18n_computePreferredLocale imports (requests s (request (this s))) (locales cfg)
    = None ->
  exists s',
    computePreferredLocale pipeline imports s = (Ok None, s')
    /\ priv_preferredLocale (this s') = None
    /\ request (this s') = request (this s)
    /\ requests s' = requests s
    /\ calls s' = CallComputePreferredLocale :: calls s.
Proof.
  intros Hi Hc Hr.
  unfold computePreferredLocale, bind, gets, modify, assign, ret.
  simpl. rewrite Hi, Hc. simpl. rewrite Hr.
  eexists. split; [reflexivity |]. simpl. auto.
Qed.

(** X12: a preferred locale that the resolver does not find is [undefined]
    and is not cached: each of [n] accesses in a row asks the resolver
    again. *)
Theorem preferredLocale_undefined_is_recomputed :
  forall (pipeline : Pipeline) (imports : Imports) (cfg : I18n) (s : Store),
    i18n pipeline = Some cfg ->
    priv_preferredLocale (this s) = None ->
    i18n_computePreferredLocale imports (requests s (request (this s))) (locales cfg)
      = None ->
    forall n : nat,
      let sn := after_accesses (computePreferredLocale pipeline imports) n s in
      fst (computePreferredLocale pipeline imports sn) = Ok None
      /\ priv_preferredLocale (this sn) = None
      /\ count_calls is_preferredLocale_call (calls sn)
         = (count_calls is_preferredLocale_call (calls s) + n)%nat.
Proof.
  intros pipeline imports cfg s Hi Hc Hr n.
  assert (Inv : let sn := after_accesses (computePreferredLocale pipeline imports) n s in
                priv_preferredLocale (this sn) = None
                /\ request (this sn) = request (this s)
                /\ requests sn = requests s
                /\ count_calls is_preferredLocale_call (calls sn)
                   = (count_calls is_preferredLocale_call (calls s) + n)%nat).
  { induction n as [| n IH]; simpl.
    - repeat split; try assumption. lia.
    - simpl in IH. destruct IH as (Ic & Irq & Irs & In).
      fold (after_accesses (computePreferredLocale pipeline imports) n s) in *.
      set (sn := after_accesses (computePreferredLocale pipeline imports) n s) in *.
      destruct (computePreferredLocale_undefined_step pipeline imports cfg sn Hi Ic)
        as (s' & E & Ec & Erq & Ers & Ecalls); [rewrite Irs, Irq; exact Hr |].
      rewrite E. simpl. repeat split; try congruence.
      rewrite Ecalls. unfold count_calls in *. simpl. rewrite In. lia. }
  simpl in Inv. destruct Inv as (Ic & Irq & Irs & In).
  set (sn := after_accesses (computePreferredLocale pipeline imports) n s) in *.
  destruct (computePreferredLocale_undefined_step pipeline imports cfg sn Hi Ic)
    as (s' & E & _); [rewrite Irs, Irq; exact Hr |].
  simpl. rewrite E. repeat split; assumption.
Qed.

Lemma preferredLocale_undefined_is_recomputed_witness :
  let sn := after_accesses (computePreferredLocale Site_localized Site.imports) 3
              Site_start in
  i18n Site_localized = Some Site_i18n
  /\ priv_preferredLocale (this Site_start) = None
  /\ i18n_computePreferredLocale Site.imports
       (requests Site_start (request (this Site_start))) (locales Site_i18n) = None
  /\ fst (computePreferredLocale Site_localized Site.imports sn) = Ok None
  /\ priv_preferredLocale (this sn) = None
  /\ count_calls is_preferredLocale_call (calls sn)
     = (count_calls is_preferredLocale_call (calls Site_start) + 3)%nat.
Proof.
  intros sn.
  split; [reflexivity |]. split; [reflexivity |]. split; [reflexivity |].
  apply (preferredLocale_undefined_is_recomputed Site_localized Site.imports Site_i18n
           Site_start); reflexivity.
Defined.

(** ** The page partial of the [Astro] global *)

(** X13: while the context is not rewriting, the page partial is made by the
    first call of [createAstro] and every later call returns that very
    partial and leaves the store as it is, also when it is made for another
    result; once the context is rewriting, every call makes the partial anew
    from the fields the context has then, whatever was kept. *)
Theorem createAstro_memoised_until_rewriting :
  forall (pipeline : Pipeline) (s : Store),
    (isRewriting (this s) = false ->
     forall result1 result2 p1 s1,
       createAstro pipeline result1 s = (Ok p1, s1) ->
       createAstro pipeline result2 s1 = (Ok p1, s1))
    /\ (isRewriting (this s) = true ->
        forall result,
          exists p s',
            createAstro pipeline result s = (Ok p, s')
            /\ priv_astroPagePartial (this s') = Some p
            /\ astro_result p = result
            /\ astro_cookies p = cookies (this s)
            /\ astro_request p = request (this s)
            /\ astro_locals p = locals (this s)
            /\ astro_params p = params (this s)
            /\ astro_url p = url (this s)).
Proof.
  intros pipeline s. split.
  - intros Hr result1 result2 p1 s1.
    unfold createAstro, createAstroPagePartial, bind, gets, assign, modify, ret. simpl.
    rewrite Hr.
    destruct (priv_astroPagePartial (this s)) as [p |] eqn:Hp.
    + intros H. injection H as <- <-. rewrite Hr, Hp. reflexivity.
    + simpl. intros H. injection H as <- <-. simpl. rewrite Hr. reflexivity.
  - intros Hr result.
    unfold createAstro, createAstroPagePartial, bind, gets, assign, modify, ret. simpl.
    rewrite Hr. simpl. do 2 eexists. split; [reflexivity |]. simpl. auto 8.
Qed.

Lemma createAstro_memoised_until_rewriting_witness :
  let s1 := snd (createAstro Site.plain 0 Site_start) in
  let p1 := {| astro_cookies := 0%nat; astro_params := []; astro_locals := JObject 0;
               astro_request := 0%nat; astro_result := 0%nat; astro_site := None;
               astro_url := Site.localhost "/" |} in
  isRewriting (this Site_start) = false
  /\ createAstro Site.plain 0 Site_start = (Ok p1, s1)
  /\ createAstro Site.plain 5 s1 = (Ok p1, s1)
  /\ astro_result p1 <> 5%nat.
Proof.
  intros s1 p1.
  assert (H : createAstro Site.plain 0 Site_start = (Ok p1, s1)) by reflexivity.
  split; [reflexivity |]. split; [exact H |]. split; [| discriminate].
  destruct (createAstro_memoised_until_rewriting Site.plain Site_start) as [Hmemo _].
  exact (Hmemo eq_refl 0%nat 5%nat p1 s1 H).
Defined.

(** ** The dispatch of [lastNext] *)

Lemma bind_resp_set_header (name value : string) (r : Response)
  (k : Response -> M Response) (s : Store) :
  bind (lift (resp_set_header name value r)) k s
  = if headers_immutable r then (Raise (TypeError "immutable"), s)
    else k (with_header name value r) s.
Proof.
  unfold resp_set_header, bind. destruct (headers_immutable r); reflexivity.
Qed.

(** X14: when the response the template renderer gave has headers that can
    be changed, the page dispatch returns it with its status and body and
    tags it after the render: the route-type marker is ["page"]; the reroute
    directive is ["no"] when the route the context has after the render is
    [/404] or [/500], whatever the page set, and is what the page set
    otherwise; the rewrite directive is set when the context is rewriting
    after the render.  When its headers are immutable, the first [set]
    throws: the dispatch throws that [TypeError] in the store the render
    left, the result is not marked cancelled and no jar is merged. *)
Theorem page_response_is_tagged :
  forall (pipeline : Pipeline) (imports : Imports)
         (render_rec : option ComponentInstance -> M Response)
         (cell cookies0 : nat) (props : Props) (ctx : APIContext)
         (s s1 s2 : Store) (m : ComponentInstance) (result : nat) (r0 : Response),
    type (routeData (this s)) = page ->
    cells s cell = Some m ->
    createResult pipeline imports (Some m) s = (Ok result, s1) ->
    renderPage pipeline imports render_rec result m props s1 = (Ok r0, s2) ->
    (headers_immutable r0 = false ->
     exists response s3,
       lastNext_dispatch pipeline imports render_rec cell cookies0 props ctx s
         = (Ok response, s3)
       /\ this s3 = this s2
       /\ resp_status response = resp_status r0
       /\ resp_body response = resp_body r0
       /\ headers_get ROUTE_TYPE_HEADER (resp_headers response) = Some "page"
       /\ headers_get REROUTE_DIRECTIVE_HEADER (resp_headers response)
          = (if String.eqb (route (routeData (this s2))) "/404"
                || String.eqb (route (routeData (this s2))) "/500"
             then Some "no"
             else headers_get REROUTE_DIRECTIVE_HEADER (resp_headers r0))
       /\ headers_get REWRITE_DIRECTIVE_HEADER_KEY (resp_headers response)
          = (if isRewriting (this s2) then Some REWRITE_DIRECTIVE_HEADER_VALUE
             else headers_get REWRITE_DIRECTIVE_HEADER_KEY (resp_headers r0)))
    /\ (headers_immutable r0 = true ->
        lastNext_dispatch pipeline imports render_rec cell cookies0 props ctx s
        = (Raise (TypeError "immutable"), s2)).
Proof.
  intros pipeline imports render_rec cell cookies0 props ctx s s1 s2 m result r0
         Hpage Hcell Hcreate Hrender.
  split.
  - intros Himm.
    set (tagged :=
           (if isRewriting (this s2)
            then with_header REWRITE_DIRECTIVE_HEADER_KEY REWRITE_DIRECTIVE_HEADER_VALUE
                   (if String.eqb (route (routeData (this s2))) "/404"
                       || String.eqb (route (routeData (this s2))) "/500"
                    then with_header REROUTE_DIRECTIVE_HEADER "no"
                           (with_header ROUTE_TYPE_HEADER "page" r0)
                    else with_header ROUTE_TYPE_HEADER "page" r0)
            else (if String.eqb (route (routeData (this s2))) "/404"
                     || String.eqb (route (routeData (this s2))) "/500"
                  then with_header REROUTE_DIRECTIVE_HEADER "no"
                         (with_header ROUTE_TYPE_HEADER "page" r0)
                  else with_header ROUTE_TYPE_HEADER "page" r0))).
    assert (Htag :
              resp_status tagged = resp_status r0
              /\ resp_body tagged = resp_body r0
              /\ headers_get ROUTE_TYPE_HEADER (resp_headers tagged) = Some "page"
              /\ headers_get REROUTE_DIRECTIVE_HEADER (resp_headers tagged)
                 = (if String.eqb (route (routeData (this s2))) "/404"
                       || String.eqb (route (routeData (this s2))) "/500"
                    then Some "no"
                    else headers_get REROUTE_DIRECTIVE_HEADER (resp_headers r0))
              /\ headers_get REWRITE_DIRECTIVE_HEADER_KEY (resp_headers tagged)
                 = (if isRewriting (this s2) then Some REWRITE_DIRECTIVE_HEADER_VALUE
                    else headers_get REWRITE_DIRECTIVE_HEADER_KEY (resp_headers r0))).
    { subst tagged.
      destruct (isRewriting (this s2));
        destruct (String.eqb (route (routeData (this s2))) "/404"
                  || String.eqb (route (routeData (this s2))) "/500");
        cbn [resp_status resp_body resp_headers with_header];
        rewrite ?headers_get_set; repeat split; reflexivity. }
    assert (Hrun : lastNext_dispatch pipeline imports render_rec cell cookies0 props ctx s
                   = match getCookiesFromResponse tagged with
                     | Some responseCookies =>
                         (Ok tagged,
                          set_jar cookies0
                            (cookies_merge (jars s2 cookies0) (jars s2 responseCookies)) s2)
                     | None => (Ok tagged, s2)
                     end).
    { unfold lastNext_dispatch.
      unfold bind at 1. unfold gets at 1.
      unfold bind at 1. unfold gets at 1. rewrite Hcell, Hpage.
      unfold bind at 1. rewrite Hcreate.
      unfold bind at 1. unfold try_catch. rewrite Hrender.
      rewrite bind_resp_set_header, Himm.
      unfold bind at 1. unfold gets at 1.
      subst tagged.
      destruct (String.eqb (route (routeData (this s2))) "/404"
                || String.eqb (route (routeData (this s2))) "/500");
        destruct (isRewriting (this s2));
        rewrite ?bind_resp_set_header;
        cbn [headers_immutable with_header]; rewrite ?Himm;
        unfold bind at 1; unfold ret at 1;
        rewrite ?bind_resp_set_header;
        cbn [headers_immutable with_header]; rewrite ?Himm;
        try (unfold bind at 1; unfold ret at 1);
        match goal with
        | |- context [getCookiesFromResponse ?r] =>
            destruct (getCookiesFromResponse r); reflexivity
        end. }
    rewrite Hrun.
    destruct (getCookiesFromResponse tagged) as [responseCookies |].
    + exists tagged. eexists. split; [reflexivity |]. split; [reflexivity | exact Htag].
    + exists tagged, s2. split; [reflexivity |]. split; [reflexivity | exact Htag].
  - intros Himm.
    unfold lastNext_dispatch.
    unfold bind at 1. unfold gets at 1.
    unfold bind at 1. unfold gets at 1. rewrite Hcell, Hpage.
    unfold bind at 1. rewrite Hcreate.
    unfold bind at 1. unfold try_catch. rewrite Hrender.
    rewrite bind_resp_set_header, Himm. reflexivity.
Qed.

(** A page that answers with [Response.redirect], whose headers are
    immutable. *)
Lemma page_response_is_tagged_witness :
  let s := snd (alloc_cell (Some Site_notFoundPage) Site_start_404) in
  let s1 := snd (createResult Site.plain Site.imports (Some Site_notFoundPage) s) in
  let s2 := snd (renderPage Site.plain Site.imports (fun _ => ret loopDetected)
                   0 Site_notFoundPage [] s1) in
  let r0 := new_Response (Some "not found") 404 "Not Found"
              [(REROUTE_DIRECTIVE_HEADER, "yes")] in
  let t := snd (alloc_cell (Some Site_redirectingPage) Site_start) in
  let t1 := snd (createResult Site.plain Site.imports (Some Site_redirectingPage) t) in
  let t2 := snd (renderPage Site.plain Site.imports (fun _ => ret loopDetected)
                   0 Site_redirectingPage [] t1) in
  (type (routeData (this s)) = page
   /\ cells s 0%nat = Some Site_notFoundPage
   /\ createResult Site.plain Site.imports (Some Site_notFoundPage) s = (Ok 0%nat, s1)
   /\ renderPage Site.plain Site.imports (fun _ => ret loopDetected)
        0 Site_notFoundPage [] s1 = (Ok r0, s2)
   /\ headers_immutable r0 = false
   /\ exists response s3,
        lastNext_dispatch Site.plain Site.imports (fun _ => ret loopDetected)
          0 0 [] Site_ctx s = (Ok response, s3)
        /\ headers_get ROUTE_TYPE_HEADER (resp_headers response) = Some "page"
        /\ headers_get REROUTE_DIRECTIVE_HEADER (resp_headers r0) = Some "yes"
        /\ headers_get REROUTE_DIRECTIVE_HEADER (resp_headers response) = Some "no")
  /\ (type (routeData (this t)) = page
      /\ cells t 0%nat = Some Site_redirectingPage
      /\ createResult Site.plain Site.imports (Some Site_redirectingPage) t
         = (Ok 0%nat, t1)
      /\ renderPage Site.plain Site.imports (fun _ => ret loopDetected)
           0 Site_redirectingPage [] t1 = (Ok Site_redirected, t2)
      /\ headers_immutable Site_redirected = true
      /\ lastNext_dispatch Site.plain Site.imports (fun _ => ret loopDetected)
           0 0 [] Site_ctx t = (Raise (TypeError "immutable"), t2)).
Proof.
  intros s s1 s2 r0 t t1 t2. split.
  - split; [reflexivity |]. split; [reflexivity |].
    split; [reflexivity |]. split; [reflexivity |]. split; [reflexivity |].
    destruct (page_response_is_tagged Site.plain Site.imports (fun _ => ret loopDetected)
                0 0 [] Site_ctx s s1 s2 Site_notFoundPage 0 r0
                eq_refl eq_refl eq_refl eq_refl) as [H _].
    destruct (H eq_refl) as (response & s3 & Hrun & _ & _ & _ & Hmarker & Hreroute & _).
    exists response, s3. split; [exact Hrun |]. split; [exact Hmarker |].
    split; [reflexivity |]. rewrite Hreroute. reflexivity.
  - split; [reflexivity |]. split; [reflexivity |].
    split; [reflexivity |]. split; [reflexivity |]. split; [reflexivity |].
    destruct (page_response_is_tagged Site.plain Site.imports (fun _ => ret loopDetected)
                0 0 [] Site_ctx t t1 t2 Site_redirectingPage 0 Site_redirected
                eq_refl eq_refl eq_refl eq_refl) as [_ H].
    exact (H eq_refl).
Defined.



(** X16: an endpoint's response is returned as it is; when it carries a jar,
    that jar is merged into the jar [render] started with - a name the
    carried jar has takes its value, any other name keeps the value it had -
    and no other jar and no field of the render context changes. *)
Theorem endpoint_response_cookies_are_merged :
  forall (pipeline : Pipeline) (imports : Imports)
         (render_rec : option ComponentInstance -> M Response)
         (cell cookies0 : nat) (props : Props) (ctx : APIContext)
         (s s1 : Store) (response : Response) (responseCookies : nat),
    type (routeData (this s)) = endpoint ->
    renderEndpoint pipeline imports render_rec (cells s cell) ctx s = (Ok response, s1) ->
    getCookiesFromResponse response = Some responseCookies ->
    List.NoDup (map fst (outgoing (jars s1 responseCookies))) ->
    exists s2,
      lastNext_dispatch pipeline imports render_rec cell cookies0 props ctx s
        = (Ok response, s2)
      /\ this s2 = this s1
      /\ (forall j, j <> cookies0 -> jars s2 j = jars s1 j)
      /\ forall name,
           outgoing_get name (outgoing (jars s2 cookies0))
           = match outgoing_get name (outgoing (jars s1 responseCookies)) with
             | Some v => Some v
             | None => outgoing_get name (outgoing (jars s1 cookies0))
             end.
Proof.
  intros pipeline imports render_rec cell cookies0 props ctx s s1 response
         responseCookies Hendpoint Hrender Hjar Hnd.
  unfold lastNext_dispatch.
  unfold bind at 1. unfold gets at 1.
  unfold bind at 1. unfold gets at 1. rewrite Hendpoint.
  unfold bind at 1. rewrite Hrender. rewrite Hjar.
  unfold bind, modify, ret. simpl.
  eexists. split; [reflexivity |]. simpl. split; [reflexivity |]. split.
  - intros j Hne. unfold upd.
    destruct (Nat.eqb_spec j cookies0); [contradiction | reflexivity].
  - intros name. unfold upd. rewrite Nat.eqb_refl.
    apply cookies_merge_get. exact Hnd.
Qed.

Lemma endpoint_response_cookies_are_merged_witness :
  let render_rec := render Site.plain Site.imports Site_cookieThenNext 1 in
  let s := snd (alloc_cell (Some Site_rewritingEndpoint)
                  (set_jar 0 (cookies_set "theme" "outer" (jars Site_start_endpoint 0))
                     Site_start_endpoint)) in
  let s1 := snd (renderEndpoint Site.plain Site.imports render_rec (cells s 0%nat)
                   Site_ctx s) in
  let response :=
    attachCookiesToResponse
      (with_header REWRITE_DIRECTIVE_HEADER_KEY REWRITE_DIRECTIVE_HEADER_VALUE
         (Site.html "/inner")) 1 in
  type (routeData (this s)) = endpoint
  /\ renderEndpoint Site.plain Site.imports render_rec (cells s 0%nat) Site_ctx s
     = (Ok response, s1)
  /\ getCookiesFromResponse response = Some 1%nat
  /\ List.NoDup (map fst (outgoing (jars s1 1)))
  /\ outgoing (jars s1 0) = [("theme", "outer")]
  /\ outgoing (jars s1 1) = [("theme", "inner"); ("session", "abc")]
  /\ exists s2,
       lastNext_dispatch Site.plain Site.imports render_rec 0 0 [] Site_ctx s
         = (Ok response, s2)
       /\ this s2 = this s1
       /\ (forall j, j <> 0%nat -> jars s2 j = jars s1 j)
       /\ forall name,
            outgoing_get name (outgoing (jars s2 0))
            = match outgoing_get name (outgoing (jars s1 1)) with
              | Some v => Some v
              | None => outgoing_get name (outgoing (jars s1 0))
              end.
Proof.
  intros render_rec s s1 response.
  assert (H2 : renderEndpoint Site.plain Site.imports render_rec (cells s 0%nat)
                 Site_ctx s = (Ok response, s1)) by (vm_compute; reflexivity).
  assert (H4 : List.NoDup (map fst (outgoing (jars s1 1)))).
  { vm_compute.
    constructor; [intros [H | []]; discriminate H |].
    constructor; [intros [] | constructor]. }
  split; [reflexivity |]. split; [exact H2 |]. split; [reflexivity |].
  split; [exact H4 |]. split; [vm_compute; reflexivity |].
  split; [vm_compute; reflexivity |].
  exact (endpoint_response_cookies_are_merged Site.plain Site.imports render_rec
           0 0 [] Site_ctx s s1 response 1 eq_refl H2 eq_refl H4).
Defined.

(** * Properties of the server-side actions *)

Section ActionsFacts.

Variable Num : Type.
Variable Number : Actions.FormDataEntryValue -> Num.
Variable readonly_of_File : string -> bool.

#[local] Abbreviation Value := (Actions.Value Num).
#[local] Abbreviation JsObject := (Actions.JsObject Num).
#[local] Abbreviation fieldValue := (Actions.fieldValue Num Number).
#[local] Abbreviation formDataToObject_loop :=
  (Actions.formDataToObject_loop Num Number readonly_of_File).
#[local] Abbreviation formDataToObject :=
  (Actions.formDataToObject Num Number readonly_of_File).
#[local] Abbreviation own_get := (Actions.own_get Num).
#[local] Abbreviation own_set := (Actions.own_set Num).
#[local] Abbreviation obj_get := (Actions.obj_get Num).
#[local] Abbreviation obj_set := (Actions.obj_set Num readonly_of_File).
#[local] Abbreviation set_prototype := (Actions.set_prototype Num).
#[local] Abbreviation inherits_readonly := (Actions.inherits_readonly Num readonly_of_File).
#[local] Abbreviation own := (Actions.own Num).
#[local] Abbreviation prototype := (Actions.prototype Num).

Lemma own_get_set (key k : string) (value : Value) (props : list (string * Value)) :
  own_get k (own_set key value props)
  = if String.eqb key k then Some value else own_get k props.
Proof.
  induction props as [| [k0 v0] props IH]; simpl.
  - rewrite String.eqb_sym. destruct (String.eqb_spec k key); reflexivity.
  - destruct (String.eqb_spec k0 key) as [-> | Hne]; simpl.
    + destruct (String.eqb_spec key k); reflexivity.
    + rewrite IH. destruct (String.eqb_spec k0 k) as [-> | Hk].
      * destruct (String.eqb_spec key k); [congruence | reflexivity].
      * reflexivity.
Qed.

Lemma validator_of_None (key : string) (shape : list (string * Actions.ZodType)) :
  ~ In key (map fst shape) -> validator_of key shape = None.
Proof.
  induction shape as [| [k0 b0] shape IH]; simpl; intros H; [reflexivity |].
  destruct (String.eqb_spec k0 key) as [-> | _]; [exfalso; auto |].
  apply IH. auto.
Qed.

Lemma validator_of_In (key : string) (baseValidator : Actions.ZodType)
  (shape : list (string * Actions.ZodType)) :
  List.NoDup (map fst shape) ->
  In (key, baseValidator) shape -> validator_of key shape = Some baseValidator.
Proof.
  induction shape as [| [k0 b0] shape IH]; simpl; intros Hnd Hin; [destruct Hin |].
  inversion Hnd as [| k1 l1 Hnotin Hnd']; subst.
  destruct Hin as [Heq | Hin].
  - injection Heq as -> ->. rewrite String.eqb_refl. reflexivity.
  - destruct (String.eqb_spec k0 key) as [-> | _]; [| apply IH; assumption].
    exfalso. apply Hnotin. apply (List.in_map fst _ (key, baseValidator)). exact Hin.
Qed.

(** An assignment under a key other than [__proto__] that does not throw
    writes an own property and leaves the prototype. *)
Lemma obj_set_other (key : string) (value : Value) (obj obj1 : JsObject) :
  key <> "__proto__" ->
  obj_set key value obj = inr obj1 ->
  obj1 = {| Actions.own := own_set key value (own obj);
            Actions.prototype := prototype obj |}.
Proof.
  intros Hne. unfold Actions.obj_set.
  destruct (own_get key (own obj)); [intros H; injection H as <-; reflexivity |].
  destruct (String.eqb_spec key "__proto__"); [contradiction |]. simpl.
  destruct (inherits_readonly (prototype obj) key); [discriminate |].
  intros H. injection H as <-. reflexivity.
Qed.

Lemma obj_set_other_ok (key : string) (value : Value) (obj : JsObject) :
  key <> "__proto__" ->
  inherits_readonly (prototype obj) key = false ->
  obj_set key value obj
  = inr {| Actions.own := own_set key value (own obj);
           Actions.prototype := prototype obj |}.
Proof.
  intros Hne Hro. unfold Actions.obj_set.
  destruct (own_get key (own obj)); [reflexivity |].
  destruct (String.eqb_spec key "__proto__"); [contradiction |]. simpl.
  rewrite Hro. reflexivity.
Qed.

(** The assignment under [__proto__] on an object that has no such own
    property and inherits from [Object.prototype] is the setter. *)
Lemma obj_set_proto (value : Value) (obj : JsObject) :
  own_get "__proto__" (own obj) = None ->
  prototype obj = Actions.ObjectPrototype Num ->
  obj_set "__proto__" value obj = inr (set_prototype value obj)
  /\ own (set_prototype value obj) = own obj
  /\ prototype (set_prototype value obj) = prototype_after value.
Proof.
  intros Hown Hproto. unfold Actions.obj_set. rewrite Hown, Hproto. simpl.
  split; [reflexivity |].
  unfold prototype_after, Actions.set_prototype.
  destruct value as [| | b | n | e | l | l | l]; simpl; try (split; reflexivity);
    try (rewrite Hproto; split; reflexivity).
  destruct e; simpl; try rewrite Hproto; split; reflexivity.
Qed.

(** The loop over entries none of which is [__proto__]. *)
Lemma formDataToObject_loop_rest (formData : Actions.FormData)
  (shape : list (string * Actions.ZodType)) :
  forall obj obj' : JsObject,
    List.NoDup (map fst shape) ->
    ~ In "__proto__" (map fst shape) ->
    formDataToObject_loop formData shape obj = inr obj' ->
    prototype obj' = prototype obj
    /\ forall k,
         own_get k (own obj')
         = match validator_of k shape with
           | Some baseValidator => Some (fieldValue formData k baseValidator)
           | None => own_get k (own obj)
           end.
Proof.
  induction shape as [| [key baseValidator] shape IH]; intros obj obj' Hnd Hnp; simpl.
  - intros H. injection H as <-. split; reflexivity.
  - inversion Hnd as [| k1 l1 Hnotin Hnd']; subst.
    destruct (obj_set key (fieldValue formData key baseValidator) obj) as [e | obj1] eqn:E;
      [discriminate |].
    intros Hloop.
    apply obj_set_other in E; [| intros ->; apply Hnp; left; reflexivity].
    destruct (IH obj1 obj' Hnd') as [Hp Hk];
      [intros H; apply Hnp; right; exact H | exact Hloop |].
    subst obj1. simpl in Hp, Hk. split; [exact Hp |].
    intros k. rewrite Hk, own_get_set.
    destruct (String.eqb_spec key k) as [-> | _]; [| reflexivity].
    rewrite (validator_of_None _ _ Hnotin). reflexivity.
Qed.

Lemma formDataToObject_loop_rest_total (formData : Actions.FormData)
  (shape : list (string * Actions.ZodType)) :
  forall obj : JsObject,
    ~ In "__proto__" (map fst shape) ->
    (forall key, In key (map fst shape) -> inherits_readonly (prototype obj) key = false) ->
    exists obj', formDataToObject_loop formData shape obj = inr obj'.
Proof.
  induction shape as [| [key baseValidator] shape IH]; intros obj Hnp Hro; simpl.
  - eexists. reflexivity.
  - rewrite obj_set_other_ok;
      [| intros ->; apply Hnp; left; reflexivity | apply Hro; left; reflexivity].
    apply IH.
    + intros H. apply Hnp. right. exact H.
    + intros k Hin. simpl. apply Hro. right. exact Hin.
Qed.

(** The loop from an object that still inherits from [Object.prototype]. *)
Lemma formDataToObject_loop_spec (formData : Actions.FormData)
  (shape : list (string * Actions.ZodType)) :
  forall obj obj' : JsObject,
    List.NoDup (map fst shape) ->
    own_get "__proto__" (own obj) = None ->
    prototype obj = Actions.ObjectPrototype Num ->
    formDataToObject_loop formData shape obj = inr obj' ->
    prototype obj' = final_prototype Number formData shape
    /\ own_get "__proto__" (own obj') = None
    /\ forall k,
         k <> "__proto__" ->
         own_get k (own obj')
         = match validator_of k shape with
           | Some baseValidator => Some (fieldValue formData k baseValidator)
           | None => own_get k (own obj)
           end.
Proof.
  unfold final_prototype.
  induction shape as [| [key baseValidator] shape IH]; intros obj obj' Hnd Hown Hproto;
    simpl.
  - intros H. injection H as <-. auto.
  - inversion Hnd as [| k1 l1 Hnotin Hnd']; subst.
    destruct (String.eqb_spec key "__proto__") as [-> | Hne].
    + destruct (obj_set_proto (fieldValue formData "__proto__" baseValidator) obj
                  Hown Hproto) as (-> & Hown1 & Hproto1).
      intros Hloop.
      destruct (formDataToObject_loop_rest formData shape _ obj' Hnd' Hnotin Hloop)
        as [Hp Hk].
      split; [rewrite Hp; exact Hproto1 |].
      split.
      * rewrite Hk, (validator_of_None _ _ Hnotin), Hown1. exact Hown.
      * intros k Hk'. rewrite Hk, Hown1.
        destruct (String.eqb_spec "__proto__" k) as [<- | _]; [contradiction |].
        reflexivity.
    + destruct (obj_set key (fieldValue formData key baseValidator) obj)
        as [e | obj1] eqn:E; [discriminate |].
      intros Hloop.
      apply obj_set_other in E; [| exact Hne].
      destruct (IH obj1 obj' Hnd') as (Hp & Hown' & Hk); [| | exact Hloop |].
      { subst obj1. simpl. rewrite own_get_set.
        destruct (String.eqb_spec key "__proto__"); [contradiction | exact Hown]. }
      { subst obj1. exact Hproto. }
      split; [exact Hp |]. split; [exact Hown' |].
      intros k Hk'. rewrite (Hk k Hk'). subst obj1. simpl. rewrite own_get_set.
      destruct (String.eqb_spec key k) as [-> | _]; [| reflexivity].
      rewrite (validator_of_None _ _ Hnotin). reflexivity.
Qed.

Lemma formDataToObject_loop_total (formData : Actions.FormData)
  (shape : list (string * Actions.ZodType)) :
  forall obj : JsObject,
    List.NoDup (map fst shape) ->
    own_get "__proto__" (own obj) = None ->
    prototype obj = Actions.ObjectPrototype Num ->
    (forall key, In key (map fst shape) ->
                 inherits_readonly (final_prototype Number formData shape) key = false) ->
    exists obj', formDataToObject_loop formData shape obj = inr obj'.
Proof.
  unfold final_prototype.
  induction shape as [| [key baseValidator] shape IH]; intros obj Hnd Hown Hproto Hro;
    simpl in *.
  - eexists. reflexivity.
  - inversion Hnd as [| k1 l1 Hnotin Hnd']; subst.
    destruct (String.eqb_spec key "__proto__") as [-> | Hne].
    + destruct (obj_set_proto (fieldValue formData "__proto__" baseValidator) obj
                  Hown Hproto) as (-> & Hown1 & Hproto1).
      apply formDataToObject_loop_rest_total; [exact Hnotin |].
      intros k Hin. rewrite Hproto1. apply Hro. right. exact Hin.
    + rewrite obj_set_other_ok; [| exact Hne | rewrite Hproto; reflexivity].
      apply IH; [exact Hnd' | | exact Hproto |].
      * simpl. rewrite own_get_set.
        destruct (String.eqb_spec key "__proto__"); [contradiction | exact Hown].
      * intros k Hin. apply Hro. right. exact Hin.
Qed.

(** X17: the object [formDataToObject] returns has as own properties exactly
    the keys of the schema other than [__proto__], each with the value
    computed for its validator, also when the form has no entry for it; an
    entry of the form whose key the schema does not have is dropped.  A field
    [__proto__] of the schema never becomes an own property: its value goes
    to the setter, which makes [null], an array or a file the prototype of
    the object and ignores anything else.  The call returns unless a later
    key is an accessor without a setter that the object then inherits (from
    a file that became its prototype); with a schema that has no field
    [__proto__] it always returns, and the object keeps its prototype. *)
Theorem formDataToObject_has_the_keys_of_the_schema :
  forall (formData : Actions.FormData) (shape : list (string * Actions.ZodType)),
    List.NoDup (map fst shape) ->
    (forall obj,
        formDataToObject formData shape = inr obj ->
        (forall key baseValidator,
            In (key, baseValidator) shape ->
            key <> "__proto__" ->
            obj_get key obj = Some (fieldValue formData key baseValidator))
        /\ (forall key, ~ In key (map fst shape) -> obj_get key obj = None)
        /\ obj_get "__proto__" obj = None
        /\ prototype obj = final_prototype Number formData shape)
    /\ ((forall key, In key (map fst shape) ->
                     inherits_readonly (final_prototype Number formData shape) key
                     = false) ->
        exists obj, formDataToObject formData shape = inr obj)
    /\ (~ In "__proto__" (map fst shape) ->
        exists obj, formDataToObject formData shape = inr obj
                    /\ prototype obj = Actions.ObjectPrototype Num).
Proof.
  intros formData shape Hnd.
  assert (Hspec : forall obj,
             formDataToObject formData shape = inr obj ->
             prototype obj = final_prototype Number formData shape
             /\ own_get "__proto__" (own obj) = None
             /\ forall k,
                  k <> "__proto__" ->
                  own_get k (own obj)
                  = match validator_of k shape with
                    | Some baseValidator => Some (fieldValue formData k baseValidator)
                    | None => None
                    end).
  { intros obj H.
    exact (formDataToObject_loop_spec formData shape (Actions.empty_object Num) obj
             Hnd eq_refl eq_refl H). }
  assert (Htotal : (forall key, In key (map fst shape) ->
                      inherits_readonly (final_prototype Number formData shape) key
                      = false) ->
                   exists obj, formDataToObject formData shape = inr obj).
  { intros Hro.
    exact (formDataToObject_loop_total formData shape (Actions.empty_object Num)
             Hnd eq_refl eq_refl Hro). }
  split; [| split].
  - intros obj H. destruct (Hspec obj H) as (Hp & Hown & Hk).
    split; [| split; [| split]].
    + intros key baseValidator Hin Hne. unfold Actions.obj_get.
      rewrite (Hk key Hne), (validator_of_In _ _ _ Hnd Hin). reflexivity.
    + intros key Hnotin. unfold Actions.obj_get.
      destruct (String.eqb_spec key "__proto__") as [-> | Hne]; [exact Hown |].
      rewrite (Hk key Hne), (validator_of_None _ _ Hnotin). reflexivity.
    + exact Hown.
    + exact Hp.
  - exact Htotal.
  - intros Hnp.
    assert (Hfinal : final_prototype Number formData shape = Actions.ObjectPrototype Num).
    { unfold final_prototype. rewrite (validator_of_None _ _ Hnp). reflexivity. }
    destruct Htotal as [obj H].
    { intros key _. rewrite Hfinal. reflexivity. }
    exists obj. split; [exact H |].
    destruct (Hspec obj H) as (Hp & _). rewrite Hp. exact Hfinal.
Qed.

Lemma has_true_iff (key : string) (formData : Actions.FormData) :
  Actions.has key formData = true <-> exists v, In (key, v) formData.
Proof.
  unfold Actions.has. rewrite List.existsb_exists. split.
  - intros [[k v] [Hin Heq]]. simpl in Heq. apply String.eqb_eq in Heq. subst k.
    exists v. exact Hin.
  - intros [v Hin]. exists (key, v). split; [exact Hin | apply String.eqb_refl].
Qed.

(** What the object has for a field, given the value of the field. *)
Lemma formDataToObject_field (formData : Actions.FormData)
  (shape : list (string * Actions.ZodType)) (key : string)
  (baseValidator : Actions.ZodType) (obj : JsObject) :
  List.NoDup (map fst shape) ->
  In (key, baseValidator) shape ->
  formDataToObject formData shape = inr obj ->
  (key <> "__proto__" -> obj_get key obj = Some (fieldValue formData key baseValidator))
  /\ (key = "__proto__" ->
      obj_get key obj = None
      /\ prototype obj = prototype_after (fieldValue formData key baseValidator)).
Proof.
  intros Hnd Hin H.
  destruct (formDataToObject_loop_spec formData shape (Actions.empty_object Num) obj
              Hnd eq_refl eq_refl H) as (Hp & Hown & Hk).
  split.
  - intros Hne. unfold Actions.obj_get.
    rewrite (Hk key Hne), (validator_of_In _ _ _ Hnd Hin). reflexivity.
  - intros ->. split; [exact Hown |].
    rewrite Hp. unfold final_prototype.
    rewrite (validator_of_In _ _ _ Hnd Hin). reflexivity.
Qed.

(** X18: the value of a boolean field, however it is wrapped in optional and
    nullable, is [true] exactly when the form has an entry with its key -
    whatever the entry's value, ["false"] and the empty string included -
    and is [false], not [undefined] or [null], when the form has none.  The
    object that [formDataToObject] returns has it as the own property of that
    key; under the key [__proto__] it has no own property and keeps its
    prototype, the setter being given a boolean. *)
Theorem boolean_field_tells_presence :
  forall (formData : Actions.FormData) (shape : list (string * Actions.ZodType))
         (key : string) (baseValidator : Actions.ZodType),
    List.NoDup (map fst shape) ->
    In (key, baseValidator) shape ->
    Actions.unwrap baseValidator = Actions.ZodBoolean ->
    exists b,
      fieldValue formData key baseValidator = Actions.BooleanValue Num b
      /\ (b = true <-> exists v, In (key, v) formData)
      /\ forall obj,
           formDataToObject formData shape = inr obj ->
           (key <> "__proto__" -> obj_get key obj = Some (Actions.BooleanValue Num b))
           /\ (key = "__proto__" ->
               obj_get key obj = None /\ prototype obj = Actions.ObjectPrototype Num).
Proof.
  intros formData shape key baseValidator Hnd Hin Hbool.
  assert (Hf : fieldValue formData key baseValidator
               = Actions.BooleanValue Num (Actions.has key formData)).
  { unfold Actions.fieldValue. rewrite Hbool. reflexivity. }
  exists (Actions.has key formData). split; [exact Hf |].
  split; [apply has_true_iff |].
  intros obj H.
  destruct (formDataToObject_field formData shape key baseValidator obj Hnd Hin H)
    as [Hother Hproto].
  rewrite Hf in Hother, Hproto. split; [exact Hother |].
  intros Hk. destruct (Hproto Hk) as [Hnone Hp]. split; [exact Hnone | exact Hp].
Qed.

Lemma unwrap_not_wrapper (validator : Actions.ZodType) :
  match Actions.unwrap validator with
  | Actions.ZodOptional _ | Actions.ZodNullable _ => False
  | _ => True
  end.
Proof. induction validator; simpl; auto. Qed.

Lemma unwrap_idempotent (validator : Actions.ZodType) :
  Actions.unwrap (Actions.unwrap validator) = Actions.unwrap validator.
Proof. induction validator; simpl; auto. Qed.

(** X19: the value of a field that is neither boolean nor array is
    [undefined] or [null] exactly when the form has no entry for its key or
    the first entry is the empty string: [undefined] when the outermost
    validator is optional, [null] otherwise; a number field is never
    converted from the empty string.  Any other first entry is the value,
    converted with [Number] when the unwrapped validator is a number
    validator.  The object that [formDataToObject] returns has that value as
    the own property of the key, unless the key is [__proto__]: then it has
    no such own property, and the value went to the setter. *)
Theorem scalar_field_missing_or_empty :
  forall (formData : Actions.FormData) (shape : list (string * Actions.ZodType))
         (key : string) (baseValidator : Actions.ZodType),
    List.NoDup (map fst shape) ->
    In (key, baseValidator) shape ->
    is_scalar (Actions.unwrap baseValidator) ->
    (Actions.get key formData = None
     \/ Actions.get key formData = Some (Actions.EntryString "") ->
     fieldValue formData key baseValidator
     = match baseValidator with
       | Actions.ZodOptional _ => Actions.Undefined Num
       | _ => Actions.Null Num
       end)
    /\ (forall e,
          Actions.get key formData = Some e ->
          e <> Actions.EntryString "" ->
          fieldValue formData key baseValidator
          = match Actions.unwrap baseValidator with
            | Actions.ZodNumber => Actions.NumberValue Num (Number e)
            | _ => Actions.EntryValue Num e
            end)
    /\ (forall obj,
          formDataToObject formData shape = inr obj ->
          (key <> "__proto__" ->
           obj_get key obj = Some (fieldValue formData key baseValidator))
          /\ (key = "__proto__" ->
              obj_get key obj = None
              /\ prototype obj = prototype_after (fieldValue formData key baseValidator))).
Proof.
  intros formData shape key baseValidator Hnd Hin Hscalar.
  assert (Hf : fieldValue formData key baseValidator
               = Actions.handleFormDataGet Num Number key formData
                   (Actions.unwrap baseValidator) baseValidator).
  { unfold Actions.fieldValue.
    destruct (Actions.unwrap baseValidator); simpl in Hscalar;
      try reflexivity; contradiction. }
  split; [| split].
  - rewrite Hf. unfold Actions.handleFormDataGet. intros [-> | ->]; reflexivity.
  - rewrite Hf. unfold Actions.handleFormDataGet. intros e -> Hne.
    assert (Hb : Actions.Boolean e = true).
    { destruct e as [str | name]; simpl; [| reflexivity].
      destruct (String.eqb_spec str ""); [subst; contradiction | reflexivity]. }
    rewrite Hb. reflexivity.
  - intros obj H.
    exact (formDataToObject_field formData shape key baseValidator obj Hnd Hin H).
Qed.

(** X20: a nullable wrapper never changes the value of a field; an optional
    wrapper does not change the value of a boolean or array field; for the
    other fields the outermost wrapper alone decides between [undefined] and
    [null], so the order of [optional] and [nullable] matters. *)
Theorem wrappers_of_a_field :
  forall (formData : Actions.FormData) (key : string) (validator : Actions.ZodType),
    fieldValue formData key (Actions.ZodNullable validator)
    = fieldValue formData key (Actions.unwrap validator)
    /\ (~ is_scalar (Actions.unwrap validator) ->
        fieldValue formData key (Actions.ZodOptional validator)
        = fieldValue formData key (Actions.unwrap validator))
    /\ (is_scalar (Actions.unwrap validator) ->
        Actions.get key formData = None ->
        fieldValue formData key (Actions.ZodOptional (Actions.ZodNullable validator))
        = Actions.Undefined Num
        /\ fieldValue formData key (Actions.ZodNullable (Actions.ZodOptional validator))
           = Actions.Null Num).
Proof.
  intros formData key validator.
  pose proof (unwrap_not_wrapper validator) as Hw.
  unfold Actions.fieldValue. simpl. rewrite unwrap_idempotent.
  unfold Actions.handleFormDataGet.
  split; [| split].
  - destruct (Actions.unwrap validator); try reflexivity; try contradiction;
      destruct (Actions.get key formData) as [e |]; try reflexivity;
      destruct (Actions.Boolean e); reflexivity.
  - intros Hns. destruct (Actions.unwrap validator); simpl in Hns;
      try reflexivity; exfalso; apply Hns; exact I.
  - intros Hs Hg.
    destruct (Actions.unwrap validator); simpl in Hs; try contradiction;
      rewrite Hg; split; reflexivity.
Qed.

(** X21: the value of an array field, however the array validator is
    wrapped, is an array with one element for each entry of the form with
    its key, in the order of the form - the empty array when there is none,
    never [undefined] or [null]: the entries themselves, or what [Number] or
    [Boolean] makes of each when the element validator itself is a number or
    boolean validator (not when that is wrapped in optional or nullable).
    The object that [formDataToObject] returns has the array as the own
    property of the key, unless the key is [__proto__]: then it has no such
    own property and the array is its prototype. *)
Theorem array_field_collects_all_entries :
  forall (formData : Actions.FormData) (shape : list (string * Actions.ZodType))
         (key : string) (baseValidator elementValidator : Actions.ZodType),
    List.NoDup (map fst shape) ->
    In (key, baseValidator) shape ->
    Actions.unwrap baseValidator = Actions.ZodArray elementValidator ->
    let entries := map snd (List.filter (fun kv => String.eqb (fst kv) key) formData) in
    let array :=
      match elementValidator with
      | Actions.ZodNumber => Actions.NumberArray Num (map Number entries)
      | Actions.ZodBoolean => Actions.BooleanArray Num (map Actions.Boolean entries)
      | _ => Actions.EntryArray Num entries
      end in
    fieldValue formData key baseValidator = array
    /\ (forall e, In e entries <-> In (key, e) formData)
    /\ (forall obj,
          formDataToObject formData shape = inr obj ->
          (key <> "__proto__" -> obj_get key obj = Some array)
          /\ (key = "__proto__" ->
              obj_get key obj = None
              /\ prototype obj = Actions.ValuePrototype Num array)).
Proof.
  intros formData shape key baseValidator elementValidator Hnd Hin Harray entries array.
  assert (Hf : fieldValue formData key baseValidator = array).
  { unfold Actions.fieldValue. rewrite Harray. reflexivity. }
  split; [exact Hf |]. split.
  - intros e. subst entries. rewrite List.in_map_iff. split.
    + intros [[k v] [Heq Hfilter]]. simpl in Heq. subst v.
      apply List.filter_In in Hfilter. destruct Hfilter as [Hin' Hk].
      simpl in Hk. apply String.eqb_eq in Hk. subst k. exact Hin'.
    + intros Hin'. exists (key, e). split; [reflexivity |].
      apply List.filter_In. split; [exact Hin' | apply String.eqb_refl].
  - intros obj H.
    destruct (formDataToObject_field formData shape key baseValidator obj Hnd Hin H)
      as [Hother Hproto].
    rewrite Hf in Hother, Hproto. split; [exact Hother |].
    intros Hk. destruct (Hproto Hk) as [Hnone Hp]. split; [exact Hnone |].
    rewrite Hp. subst array. destruct elementValidator; reflexivity.
Qed.

End ActionsFacts.

Lemma signup_shape_NoDup : List.NoDup (map fst signup_shape).
Proof.
  simpl. repeat (constructor; [simpl; intuition discriminate |]). constructor.
Qed.

Lemma upload_shape_NoDup : List.NoDup (map fst upload_shape).
Proof.
  simpl. repeat (constructor; [simpl; intuition discriminate |]). constructor.
Qed.

(** The sign-up form gives an object; a form that uploads a file under
    [__proto__], with a schema that has that field and then a field [name],
    makes [formDataToObject] throw. *)
Lemma formDataToObject_has_the_keys_of_the_schema_witness :
  List.NoDup (map fst signup_shape)
  /\ ~ In "__proto__" (map fst signup_shape)
  /\ (exists obj,
        Actions.formDataToObject string numeral file_accessors signup_form signup_shape
        = inr obj
        /\ Actions.prototype string obj = Actions.ObjectPrototype string
        /\ Actions.obj_get string "csrf" obj = None
        /\ Actions.obj_get string "nickname" obj = Some (Actions.Null string)
        /\ Actions.obj_get string "name" obj
           = Some (Actions.EntryValue string (Actions.EntryString "Ada")))
  /\ Actions.formDataToObject string numeral file_accessors upload_form upload_shape
     = inl (TypeError "Cannot set property which has only a getter").
Proof.
  assert (Hnp : ~ In "__proto__" (map fst signup_shape))
    by (simpl; intuition discriminate).
  split; [exact signup_shape_NoDup |]. split; [exact Hnp |]. split; [| reflexivity].
  destruct (formDataToObject_has_the_keys_of_the_schema string numeral file_accessors
              signup_form signup_shape signup_shape_NoDup) as (Hkeys & _ & Hplain).
  destruct (Hplain Hnp) as (obj & Hrun & Hproto).
  destruct (Hkeys obj Hrun) as (Hin & Hout & _).
  exists obj. split; [exact Hrun |]. split; [exact Hproto |]. split; [| split].
  - apply Hout. simpl. intuition discriminate.
  - apply (Hin "nickname" (Actions.ZodNullable (Actions.ZodOptional Actions.ZodString)));
      [simpl; auto 8 | discriminate].
  - apply (Hin "name" Actions.ZodString); [simpl; auto 8 | discriminate].
Defined.

Lemma boolean_field_tells_presence_witness :
  List.NoDup (map fst signup_shape)
  /\ In ("newsletter", Actions.ZodOptional Actions.ZodBoolean) signup_shape
  /\ Actions.unwrap (Actions.ZodOptional Actions.ZodBoolean) = Actions.ZodBoolean
  /\ In ("newsletter", Actions.EntryString "false") signup_form
  /\ exists b,
       Actions.fieldValue string numeral signup_form "newsletter"
         (Actions.ZodOptional Actions.ZodBoolean) = Actions.BooleanValue string b
       /\ (b = true <-> exists v, In ("newsletter", v) signup_form)
       /\ forall obj,
            Actions.formDataToObject string numeral file_accessors signup_form
              signup_shape = inr obj ->
            Actions.obj_get string "newsletter" obj
            = Some (Actions.BooleanValue string b).
Proof.
  assert (Hin : In ("newsletter", Actions.ZodOptional Actions.ZodBoolean) signup_shape)
    by (simpl; auto 8).
  split; [exact signup_shape_NoDup |]. split; [exact Hin |].
  split; [reflexivity |]. split; [simpl; auto 8 |].
  destruct (boolean_field_tells_presence string numeral file_accessors signup_form
              signup_shape "newsletter" (Actions.ZodOptional Actions.ZodBoolean)
              signup_shape_NoDup Hin eq_refl) as (b & Hf & Hiff & Hobj).
  exists b. split; [exact Hf |]. split; [exact Hiff |].
  intros obj H. destruct (Hobj obj H) as [Hother _]. apply Hother. discriminate.
Defined.

Lemma scalar_field_missing_or_empty_witness :
  List.NoDup (map fst signup_shape)
  /\ In ("age", Actions.ZodOptional Actions.ZodNumber) signup_shape
  /\ is_scalar (Actions.unwrap (Actions.ZodOptional Actions.ZodNumber))
  /\ Actions.get "age" signup_form = Some (Actions.EntryString "")
  /\ Actions.fieldValue string numeral signup_form "age"
       (Actions.ZodOptional Actions.ZodNumber) = Actions.Undefined string.
Proof.
  assert (Hin : In ("age", Actions.ZodOptional Actions.ZodNumber) signup_shape)
    by (simpl; auto 8).
  split; [exact signup_shape_NoDup |]. split; [exact Hin |].
  split; [exact I |]. split; [reflexivity |].
  destruct (scalar_field_missing_or_empty string numeral file_accessors signup_form
              signup_shape "age" (Actions.ZodOptional Actions.ZodNumber)
              signup_shape_NoDup Hin I) as [Hmissing _].
  apply Hmissing. right. reflexivity.
Defined.

Lemma wrappers_of_a_field_witness :
  is_scalar (Actions.unwrap Actions.ZodString)
  /\ Actions.get "nickname" signup_form = None
  /\ Actions.fieldValue string numeral signup_form "nickname"
       (Actions.ZodOptional (Actions.ZodNullable Actions.ZodString))
     = Actions.Undefined string
  /\ Actions.fieldValue string numeral signup_form "nickname"
       (Actions.ZodNullable (Actions.ZodOptional Actions.ZodString))
     = Actions.Null string.
Proof.
  split; [exact I |]. split; [reflexivity |].
  destruct (wrappers_of_a_field string numeral signup_form "nickname" Actions.ZodString)
    as (_ & _ & H).
  exact (H I eq_refl).
Defined.

Lemma array_field_collects_all_entries_witness :
  List.NoDup (map fst signup_shape)
  /\ In ("tag", Actions.ZodArray Actions.ZodString) signup_shape
  /\ Actions.unwrap (Actions.ZodArray Actions.ZodString)
     = Actions.ZodArray Actions.ZodString
  /\ Actions.fieldValue string numeral signup_form "tag"
       (Actions.ZodArray Actions.ZodString)
     = Actions.EntryArray string [Actions.EntryString "a"; Actions.EntryString "b"].
Proof.
  assert (Hin : In ("tag", Actions.ZodArray Actions.ZodString) signup_shape)
    by (simpl; auto 10).
  split; [exact signup_shape_NoDup |]. split; [exact Hin |].
  split; [reflexivity |].
  exact (proj1 (array_field_collects_all_entries string numeral file_accessors
                  signup_form signup_shape "tag" (Actions.ZodArray Actions.ZodString)
                  Actions.ZodString signup_shape_NoDup Hin eq_refl)).
Defined.

Section ActionHandlers.

Variable Num : Type.
Variable Number : Actions.FormDataEntryValue -> Num.
Variable readonly_of_File : string -> bool.
Variables Other Issues Thrown Output Context SafeResult : Type.
Variable getApiContext : Thrown + Context.
Variable callSafely : Actions.Failure Issues Thrown + Output -> SafeResult.

#[local] Abbreviation defineAction :=
  (Actions.defineAction Num Number readonly_of_File Other Issues Thrown Output Context
     getApiContext SafeResult callSafely).
#[local] Abbreviation orThrow :=
  (Actions.orThrow Num Other Issues Thrown Output SafeResult).
#[local] Abbreviation safeServerHandler :=
  (Actions.safeServerHandler Num Other Issues Thrown Output SafeResult).
#[local] Abbreviation call_handler :=
  (Actions.call_handler Num Other Issues Thrown Output Context).
#[local] Abbreviation AFormData := (Actions.AFormData Num Other).
#[local] Abbreviation AnObject := (Actions.AnObject Num Other).
#[local] Abbreviation ActionError := (Actions.ActionError Issues Thrown).
#[local] Abbreviation ActionInputError := (Actions.ActionInputError Issues Thrown).
#[local] Abbreviation GetApiContextThrew := (Actions.GetApiContextThrew Issues Thrown).
#[local] Abbreviation ParseThrew := (Actions.ParseThrew Issues Thrown).
#[local] Abbreviation FormDataToObjectThrew :=
  (Actions.FormDataToObjectThrew Issues Thrown).

(** X22: an action that accepts forms refuses every input that is not a
    [FormData], and any other action - [accept] left out included - refuses
    every [FormData], with the [UNSUPPORTED_MEDIA_TYPE] error, whatever the
    handler and the schema are. *)
Theorem action_refuses_the_other_media_type :
  forall (accept : option Actions.ActionAccept)
         (inputSchema : option (Actions.InputSchema Num Other Issues Thrown))
         (handler : Actions.ActionHandler Num Other Thrown Output Context)
         (unparsedInput : Actions.Unknown Num Other),
    (accept = Some Actions.form ->
     (forall formData, unparsedInput <> AFormData formData) ->
     orThrow (defineAction accept inputSchema handler) unparsedInput
     = inl (ActionError "UNSUPPORTED_MEDIA_TYPE" "This action only accepts FormData."))
    /\ (accept <> Some Actions.form ->
        forall formData,
          orThrow (defineAction accept inputSchema handler) (AFormData formData)
          = inl (ActionError "UNSUPPORTED_MEDIA_TYPE" "This action only accepts JSON.")).
Proof.
  intros accept inputSchema handler unparsedInput. split.
  - intros -> Hnot. simpl. unfold Actions.getFormServerHandler.
    destruct unparsedInput as [formData | obj | value]; try reflexivity.
    exfalso. exact (Hnot formData eq_refl).
  - intros Hne formData.
    destruct accept as [[|] |]; simpl; try reflexivity.
    exfalso. apply Hne. reflexivity.
Qed.

(** X23: an action that accepts forms validates only with a schema that is an
    instance of [ZodObject]: with any other schema, as with none, the
    schema's parse is not consulted and [formDataToObject] is not called.
    [getApiContext()] is evaluated before the handler is called: when it
    hands out a context, the handler is called on the [FormData] as it came
    and on that context; when it throws, the call ends with what it threw and
    the handler is not called. *)
Theorem form_action_validates_only_object_schemas :
  forall (inputSchema : option (Actions.InputSchema Num Other Issues Thrown))
         (handler : Actions.ActionHandler Num Other Thrown Output Context)
         (formData : Actions.FormData),
    (forall schema, inputSchema = Some schema -> Actions.zodObject _ _ _ _ schema = None) ->
    (forall context,
        getApiContext = inr context ->
        orThrow (defineAction (Some Actions.form) inputSchema handler) (AFormData formData)
        = call_handler handler (AFormData formData) context)
    /\ (forall e,
          getApiContext = inl e ->
          forall handler',
            orThrow (defineAction (Some Actions.form) inputSchema handler')
              (AFormData formData)
            = inl (GetApiContextThrew e)).
Proof.
  intros inputSchema handler formData Hschema.
  assert (E : forall h,
             orThrow (defineAction (Some Actions.form) inputSchema h) (AFormData formData)
             = Actions.handler_with_context Num Other Issues Thrown Output Context
                 getApiContext h (AFormData formData)).
  { intros h. simpl.
    destruct inputSchema as [schema |]; [| reflexivity].
    rewrite (Hschema schema eq_refl). reflexivity. }
  split.
  - intros context Hctx. rewrite E. unfold Actions.handler_with_context.
    rewrite Hctx. reflexivity.
  - intros e Hctx handler'. rewrite E. unfold Actions.handler_with_context.
    rewrite Hctx. reflexivity.
Qed.

(** X24: with a schema that validates - any schema for an action that does
    not accept forms, an object schema for one that does - a call returns
    only when the parse succeeded, [getApiContext()] handed out a context and
    the handler returned on the parsed data and that context.  A parse that
    fails ends the call with [ActionInputError] carrying the issues, whatever
    the handler is and whether or not an API context is stored.  A form is
    parsed as the object that [formDataToObject] returns for it.  The safe
    variant is [callSafely] of the same run. *)
Theorem action_handler_gets_parsed_data :
  forall (schema : Actions.InputSchema Num Other Issues Thrown)
         (handler : Actions.ActionHandler Num Other Thrown Output Context),
    (forall accept unparsedInput,
        accept <> Some Actions.form ->
        (forall formData, unparsedInput <> AFormData formData) ->
        (forall output,
            orThrow (defineAction accept (Some schema) handler) unparsedInput
            = inr output ->
            exists data context,
              Actions.safeParseAsync _ _ _ _ schema unparsedInput = inr (inr data)
              /\ getApiContext = inr context
              /\ handler data context = inr output)
        /\ (forall issues,
              Actions.safeParseAsync _ _ _ _ schema unparsedInput = inr (inl issues) ->
              orThrow (defineAction accept (Some schema) handler) unparsedInput
              = inl (ActionInputError issues))
        /\ (forall data,
              Actions.safeParseAsync _ _ _ _ schema unparsedInput = inr (inr data) ->
              orThrow (defineAction accept (Some schema) handler) unparsedInput
              = match getApiContext with
                | inl e => inl (GetApiContextThrew e)
                | inr context => call_handler handler data context
                end))
    /\ (forall shape formData,
          Actions.zodObject _ _ _ _ schema = Some shape ->
          (forall output,
              orThrow (defineAction (Some Actions.form) (Some schema) handler)
                (AFormData formData) = inr output ->
              exists obj data context,
                Actions.formDataToObject Num Number readonly_of_File formData shape
                = inr obj
                /\ Actions.safeParseAsync _ _ _ _ schema (AnObject obj) = inr (inr data)
                /\ getApiContext = inr context
                /\ handler data context = inr output)
          /\ (forall obj issues,
                Actions.formDataToObject Num Number readonly_of_File formData shape
                = inr obj ->
                Actions.safeParseAsync _ _ _ _ schema (AnObject obj) = inr (inl issues) ->
                orThrow (defineAction (Some Actions.form) (Some schema) handler)
                  (AFormData formData)
                = inl (ActionInputError issues))
          /\ (forall obj data,
                Actions.formDataToObject Num Number readonly_of_File formData shape
                = inr obj ->
                Actions.safeParseAsync _ _ _ _ schema (AnObject obj) = inr (inr data) ->
                orThrow (defineAction (Some Actions.form) (Some schema) handler)
                  (AFormData formData)
                = match getApiContext with
                  | inl e => inl (GetApiContextThrew e)
                  | inr context => call_handler handler data context
                  end)
          /\ (forall e,
                Actions.formDataToObject Num Number readonly_of_File formData shape
                = inl e ->
                orThrow (defineAction (Some Actions.form) (Some schema) handler)
                  (AFormData formData)
                = inl (FormDataToObjectThrew e)))
    /\ (forall accept unparsedInput,
          safeServerHandler (defineAction accept (Some schema) handler) unparsedInput
          = callSafely (orThrow (defineAction accept (Some schema) handler)
                          unparsedInput)).
Proof.
  intros schema handler.
  assert (Hparse : forall input output,
             Actions.parse_then_handle Num Other Issues Thrown Output Context
               getApiContext handler schema input = inr output ->
             exists data context,
               Actions.safeParseAsync _ _ _ _ schema input = inr (inr data)
               /\ getApiContext = inr context
               /\ handler data context = inr output).
  { intros input output. unfold Actions.parse_then_handle, Actions.handler_with_context,
      Actions.call_handler.
    destruct (Actions.safeParseAsync _ _ _ _ schema input) as [e | [issues | data]];
      try discriminate.
    destruct getApiContext as [e | context]; [discriminate |].
    destruct (handler data context) as [e | o] eqn:Hh; [discriminate |].
    intros H. injection H as <-. exists data, context. auto. }
  split; [| split].
  - intros accept unparsedInput Hne Hnot.
    assert (Hjson : orThrow (defineAction accept (Some schema) handler) unparsedInput
                    = Actions.parse_then_handle Num Other Issues Thrown Output Context
                        getApiContext handler schema unparsedInput).
    { destruct accept as [[|] |]; simpl;
        try (exfalso; apply Hne; reflexivity);
        unfold Actions.getJsonServerHandler;
        (destruct unparsedInput as [formData | obj | value]; try reflexivity;
         exfalso; exact (Hnot formData eq_refl)). }
    rewrite Hjson. split; [| split].
    + intros output. apply Hparse.
    + intros issues Hp. unfold Actions.parse_then_handle. rewrite Hp. reflexivity.
    + intros data Hp. unfold Actions.parse_then_handle. rewrite Hp. reflexivity.
  - intros shape formData Hshape.
    assert (Hform : orThrow (defineAction (Some Actions.form) (Some schema) handler)
                      (AFormData formData)
                    = match Actions.formDataToObject Num Number readonly_of_File
                              formData shape with
                      | inl e => inl (FormDataToObjectThrew e)
                      | inr obj =>
                          Actions.parse_then_handle Num Other Issues Thrown Output Context
                            getApiContext handler schema (AnObject obj)
                      end).
    { simpl. rewrite Hshape. reflexivity. }
    rewrite Hform. split; [| split; [| split]].
    + intros output.
      destruct (Actions.formDataToObject Num Number readonly_of_File formData shape)
        as [e | obj]; [discriminate |].
      intros H. destruct (Hparse _ _ H) as (data & context & Hp & Hc & Hh).
      exists obj, data, context. auto.
    + intros obj issues -> Hp. unfold Actions.parse_then_handle. rewrite Hp. reflexivity.
    + intros obj data -> Hp. unfold Actions.parse_then_handle. rewrite Hp. reflexivity.
    + intros e ->. reflexivity.
  - intros accept unparsedInput. reflexivity.
Qed.

End ActionHandlers.

Lemma action_refuses_the_other_media_type_witness :
  (Some Actions.form = Some Actions.form
   /\ (forall formData,
         Actions.AnOther string string "{}" <> Actions.AFormData string string formData)
   /\ Actions.orThrow _ _ _ _ _ _
        (signup_action (inr tt) (Some Actions.form) (Some signup_schema))
        (Actions.AnOther string string "{}")
      = inl (Actions.ActionError string string "UNSUPPORTED_MEDIA_TYPE"
               "This action only accepts FormData."))
  /\ (None <> Some Actions.form
      /\ Actions.orThrow _ _ _ _ _ _ (signup_action (inr tt) None (Some signup_schema))
           (Actions.AFormData string string signup_form)
         = inl (Actions.ActionError string string "UNSUPPORTED_MEDIA_TYPE"
                  "This action only accepts JSON.")).
Proof.
  assert (H1 : forall formData,
             Actions.AnOther string string "{}"
             <> Actions.AFormData string string formData) by discriminate.
  assert (H2 : @None Actions.ActionAccept <> Some Actions.form) by discriminate.
  split.
  - split; [reflexivity |]. split; [exact H1 |].
    destruct (action_refuses_the_other_media_type string numeral file_accessors string
                string string string unit (Actions.Failure string string + string)
                (inr tt) (fun r => r)
                (Some Actions.form) (Some signup_schema) signup_handler
                (Actions.AnOther string string "{}")) as [H _].
    exact (H eq_refl H1).
  - split; [exact H2 |].
    destruct (action_refuses_the_other_media_type string numeral file_accessors string
                string string string unit (Actions.Failure string string + string)
                (inr tt) (fun r => r)
                None (Some signup_schema) signup_handler
                (Actions.AnOther string string "{}")) as [_ H].
    exact (H H2 signup_form).
Defined.

Lemma form_action_validates_only_object_schemas_witness :
  (forall schema, Some refined_schema = Some schema ->
                  Actions.zodObject _ _ _ _ schema = None)
  /\ Actions.safeParseAsync _ _ _ _ refined_schema
       (Actions.AFormData string string signup_form) = inr (inl "refinement failed")
  /\ Actions.orThrow _ _ _ _ _ _
       (signup_action (inr tt) (Some Actions.form) (Some refined_schema))
       (Actions.AFormData string string signup_form)
     = inr "welcome"
  /\ Actions.orThrow _ _ _ _ _ _
       (signup_action (inl "Unable to get API context") (Some Actions.form)
          (Some refined_schema))
       (Actions.AFormData string string signup_form)
     = inl (Actions.GetApiContextThrew string string "Unable to get API context").
Proof.
  assert (H : forall schema, Some refined_schema = Some schema ->
                             Actions.zodObject _ _ _ _ schema = None).
  { intros schema E. injection E as <-. reflexivity. }
  split; [exact H |]. split; [reflexivity |]. split.
  - exact (proj1 (form_action_validates_only_object_schemas string numeral file_accessors
                    string string string string unit
                    (Actions.Failure string string + string) (inr tt) (fun r => r)
                    (Some refined_schema) signup_handler signup_form H) tt eq_refl).
  - exact (proj2 (form_action_validates_only_object_schemas string numeral file_accessors
                    string string string string unit
                    (Actions.Failure string string + string)
                    (inl "Unable to get API context") (fun r => r)
                    (Some refined_schema) signup_handler signup_form H)
             "Unable to get API context" eq_refl signup_handler).
Defined.

Lemma action_handler_gets_parsed_data_witness :
  Actions.zodObject _ _ _ _ signup_schema = Some signup_shape
  /\ (exists obj,
        Actions.formDataToObject string numeral file_accessors signup_form signup_shape
        = inr obj
        /\ Actions.safeParseAsync _ _ _ _ signup_schema (Actions.AnObject string string obj)
           = inr (inr (Actions.AnObject string string obj))
        /\ Actions.orThrow _ _ _ _ _ _
             (signup_action (inr tt) (Some Actions.form) (Some signup_schema))
             (Actions.AFormData string string signup_form) = inr "welcome"
        /\ Actions.orThrow _ _ _ _ _ _
             (signup_action (inl "Unable to get API context") (Some Actions.form)
                (Some signup_schema))
             (Actions.AFormData string string signup_form)
           = inl (Actions.GetApiContextThrew string string "Unable to get API context"))
  /\ Actions.orThrow _ _ _ _ _ _
       (signup_action (inr tt) (Some Actions.form) (Some signup_schema))
       (Actions.AFormData string string [])
     = inl (Actions.ActionInputError string string "name: Required").
Proof.
  split; [reflexivity |].
  destruct (action_handler_gets_parsed_data string numeral file_accessors string string
              string string unit (Actions.Failure string string + string) (inr tt)
              (fun r => r) signup_schema signup_handler) as (_ & Hstored & _).
  destruct (action_handler_gets_parsed_data string numeral file_accessors string string
              string string unit (Actions.Failure string string + string)
              (inl "Unable to get API context") (fun r => r) signup_schema signup_handler)
    as (_ & Hnone & _).
  destruct (Hstored signup_shape signup_form eq_refl) as (_ & _ & Hdata & _).
  destruct (Hnone signup_shape signup_form eq_refl) as (_ & _ & Hdata' & _).
  destruct (Hstored signup_shape [] eq_refl) as (_ & Hissues & _).
  split.
  - eexists. split; [vm_compute; reflexivity |]. split; [reflexivity |]. split.
    + exact (Hdata _ _ eq_refl eq_refl).
    + exact (Hdata' _ _ eq_refl eq_refl).
  - eapply Hissues; [vm_compute; reflexivity | reflexivity].
Defined.
